(** * frida-il2cpp-bridge: the Image class table, the Assembly name and the dump pipeline

    A shallow embedding of [Il2CppImage] (class table of an image under the
    legacy and the current layout), [Il2CppAssembly] (image and name) and
    [Il2CppDumper] (the classes dump, the methods dump and [build]).

    Native handles are integers ([Z], [0] is the null pointer).  The VM, the
    host application and the entity classes whose code is not part of the
    sources at hand are gathered in the interface [Runtime].  Getters marked
    [@cache] keep their value in the session state; calls into the VM, console
    notices and raw inflations are recorded in the session trace. *)

From stdpp Require Import base gmap strings list numbers pretty.
From Stdlib Require Import ZArith String Ascii.

Open Scope string_scope.
Open Scope list_scope.
Open Scope Z_scope.

(** ** JavaScript values, errors and strings *)

Module JS.

(** The failures the modelled code can raise: the two JavaScript errors it can
    run into, the two conditions the entities and the file raise, and an
    exception thrown by an invoked managed method. *)
Inductive error : Type :=
  | TypeError
  | RangeError
  | InvalidHandle
  | IOFailure
  | ManagedException.

Inductive result (A : Type) : Type :=
  | Ok (a : A)
  | Err (e : error).
Arguments Ok {A} a.
Arguments Err {A} e.

Definition result_bind {A B} (r : result A) (f : A -> result B) : result B :=
  match r with
  | Ok a => f a
  | Err e => Err e
  end.

(** [`${x}`] for a string that may be [null]. *)
Definition template (x : option string) : string := default "null" x.

Fixpoint string_drop (n : nat) (s : string) : string :=
  match n, s with
  | O, _ => s
  | S n', String _ s' => string_drop n' s'
  | S _, EmptyString => EmptyString
  end.

(** [s.replace(pattern, replacement)] with a string pattern: the first
    occurrence of [pattern] in [s] is replaced, the rest of [s] is kept. *)
Fixpoint replace (pattern replacement s : string) : string :=
  if String.prefix pattern s
  then replacement +:+ string_drop (String.length pattern) s
  else match s with
       | EmptyString => EmptyString
       | String c s' => String c (replace pattern replacement s')
       end.

(** [Array(n).fill(x)]: a [RangeError] unless [n] is a valid array length. *)
Definition Array_fill {A} (n : Z) (x : A) : result (list A) :=
  if bool_decide (0 <= n < 2 ^ 32)
  then Ok (replicate (Z.to_nat n) x)
  else Err RangeError.

(** The line terminator. *)
Definition newline : string := String (ascii_of_nat 10) EmptyString.

(** [`${n}`] for an integral number. *)
Definition number_toString (n : Z) : string := pretty n.

End JS.
Export JS.

(** ** State and exceptions *)

(** A computation over a state [S] that returns a value or throws; the state
    reached when it throws is kept. *)
Definition M (S A : Type) : Type := S -> S * result A.

Definition ret {S A} (a : A) : M S A := fun s => (s, Ok a).
Definition throw {S A} (e : error) : M S A := fun s => (s, Err e).
Definition bind {S A B} (m : M S A) (f : A -> M S B) : M S B :=
  fun s => match m s with
           | (s', Ok a) => f a s'
           | (s', Err e) => (s', Err e)
           end.
(** [try { m } catch (e) { h }] *)
Definition try_catch {S A} (m : M S A) (h : M S A) : M S A :=
  fun s => match m s with
           | (s', Ok a) => (s', Ok a)
           | (s', Err _) => h s'
           end.
Definition of_result {S A} (r : result A) : M S A := fun s => (s, r).

Declare Scope M_scope.
Delimit Scope M_scope with M.
Notation "'let*' x ':=' m 'in' k" := (bind m (fun x => k))
  (at level 10, x name, m at level 100, k at level 200) : M_scope.
Notation "m ';;' k" := (bind m (fun _ => k))
  (at level 100, k at level 200, right associativity) : M_scope.
Open Scope M_scope.

(** A [for] loop over the items of [l] that threads an accumulator. *)
Fixpoint foldM {S A B} (f : B -> A -> M S B) (l : list A) (b : B) : M S B :=
  match l with
  | [] => ret b
  | a :: l' => let* b' := f b a in foldM f l' b'
  end.

(** Running a computation on one half of a pair of states. *)
Definition liftL {S T A} (m : M S A) : M (S * T) A :=
  fun st => match m st.1 with (s', r) => ((s', st.2), r) end.
Definition liftR {S T A} (m : M T A) : M (S * T) A :=
  fun st => match m st.2 with (t', r) => ((st.1, t'), r) end.

(** ** Accessor: an object used as a table from names to entities *)

Module Accessor.

(** Modelled from the spec: the [Accessor] class is not part of the sources at
    hand.  It is an object whose own properties are the entries; the spec gives
    its policy: insertion order follows traversal order, and an assignment to a
    key that is already present overwrites that key's slot.  Iterating the
    accessor yields the values of the slots, in slot order. *)
Definition t (T : Type) : Type := list (string * T).

Definition empty {T} : t T := [].

(** [accessor[key] = value] *)
Fixpoint set {T} (acc : t T) (key : string) (value : T) : t T :=
  match acc with
  | [] => [(key, value)]
  | (k, v) :: rest =>
      if decide (k = key) then (k, value) :: rest else (k, v) :: set rest key value
  end.

(** [accessor[key]], [None] for [undefined]. *)
Fixpoint get {T} (acc : t T) (key : string) : option T :=
  match acc with
  | [] => None
  | (k, v) :: rest => if decide (k = key) then Some v else get rest key
  end.

Definition keys {T} (acc : t T) : list string := acc.*1.

(** [for (const value of accessor)] *)
Definition values {T} (acc : t T) : list T := acc.*2.

End Accessor.

(** Modelled from the spec: [getUntilFound] is not part of the sources at
    hand; it returns the entry of the first of the given keys that the record
    has, and [undefined] when it has none of them. *)
Fixpoint getUntilFound {T} (record : Accessor.t T) (keys : list string) : option T :=
  match keys with
  | [] => None
  | key :: keys' =>
      match Accessor.get record key with
      | Some item => Some item
      | None => getUntilFound record keys'
      end
  end.

(** ** The runtime: VM entry points, host application and absent entity code *)

(** An [Il2Cpp.Array]: the class of its elements and the elements. *)
Record Il2CppArray : Type := {
  elementClass : option Z;
  elements : list Z;
}.

(** An [Il2Cpp.String]: [content] is [null] for a null string. *)
Record Il2CppString : Type := {
  content : option string;
}.

(** The entry points of [Api] that the sources call, the globals they read,
    and the members of [Il2Cpp.Domain], [Il2Cpp.Class], [Il2Cpp.Method] and of
    the utilities that they use but that are defined elsewhere. *)
Class Runtime : Type := {
  (* the layout, fixed for the session *)
  unityVersion_isLegacy : bool;
  Process_pointerSize : Z;
  Il2CppType_offsetOfTypeEnum : Z;
  (* Api *)
  Api_imageGetClassCount : Z -> Z;
  Api_imageGetClassStart : Z -> Z;
  Api_imageGetClass : Z -> Z -> Z;
  (* the class the VM resolves a type descriptor to, as a function of the
     index held by the descriptor: the global class table *)
  Api_typeGetClassOrElementClass : Z -> Z;
  Api_imageGetName : Z -> option string;
  Api_assemblyGetImage : Z -> Z;
  (* Il2Cpp.Domain and Il2Cpp.Image.corlib *)
  Domain_assembly_handles : list Z;
  Image_corlib : Z;
  (* Il2Cpp.Class *)
  Class_type_name : Z -> string;
  Class_type_object : Z -> Z;
  Class_isGeneric : Z -> bool;
  Class_genericParameterCount : Z -> Z;
  Class_methods : Z -> Accessor.t Z;
  Class_toString : Z -> string;
  Class_inflateRaw_handle : Z -> Il2CppArray -> Z;
  (* Il2Cpp.Method *)
  Method_name : Z -> string;
  Method_isGeneric : Z -> bool;
  Method_genericParameterCount : Z -> Z;
  Method_virtualAddress : Z -> Z;
  Method_relativeVirtualAddress : Z -> Z;
  Method_inflateRaw_handle : Z -> Il2CppArray -> Z;
  Method_invoke : Z -> result Il2CppString;
  (* utilities and the host *)
  formatNativePointer : Z -> string;
  Date_getTime : Z;
  File_openable : string -> bool;
}.

(** What the session trace records. *)
Inductive event : Type :=
  | Call_imageGetClassCount (image : Z)
  | Call_imageGetClassStart (image : Z)
  | Call_imageGetClass (image : Z) (index : Z)
  | Call_typeGetClassOrElementClass (type : Z) (index : Z) (typeEnum : Z)
  | Call_imageGetName (image : Z)
  | Call_assemblyGetImage (assembly : Z)
  | Memory_allocated (size : Z) (pointer : Z)
  | Inflated_class (klass : Z) (types : Il2CppArray)
  | Inflated_method (method : Z) (types : Il2CppArray)
  | Console_inform (message : string)
  | Console_ok (message : string).

(** The state of an inspection session: the values kept by the [@cache]
    getters (keyed by the handle of the entity), the native memory written
    through [NativePointer.writeInt], and the trace. *)
Record Session : Type := {
  classCount_cache : gmap Z Z;
  classStart_cache : gmap Z Z;
  classes_cache : gmap Z (Accessor.t Z);
  name_cache : gmap Z (option string);
  image_cache : gmap Z Z;
  assembly_name_cache : gmap Z string;
  heap : gmap Z Z;
  heap_next : Z;
  trace : list event;
}.

Definition Session_init : Session := {|
  classCount_cache := ∅; classStart_cache := ∅; classes_cache := ∅;
  name_cache := ∅; image_cache := ∅; assembly_name_cache := ∅;
  heap := ∅; heap_next := 4096; trace := [];
|}.

(** The session with [evs] appended to its trace. *)
Definition add_events (evs : list event) (s : Session) : Session :=
  {| classCount_cache := classCount_cache s;
     classStart_cache := classStart_cache s;
     classes_cache := classes_cache s;
     name_cache := name_cache s;
     image_cache := image_cache s;
     assembly_name_cache := assembly_name_cache s;
     heap := heap s; heap_next := heap_next s;
     trace := trace s ++ evs |}.

(** The session with its native memory replaced. *)
Definition with_heap (m : gmap Z Z) (next : Z) (s : Session) : Session :=
  {| classCount_cache := classCount_cache s;
     classStart_cache := classStart_cache s;
     classes_cache := classes_cache s;
     name_cache := name_cache s;
     image_cache := image_cache s;
     assembly_name_cache := assembly_name_cache s;
     heap := m; heap_next := next;
     trace := trace s |}.

Definition log (e : event) : M Session unit :=
  fun s => (add_events [e] s, Ok ()).

(** A [@cache] getter reads its slot through [view] and fills it through
    [fill]. *)
Record Slot (A : Type) : Type := {
  view : Session -> gmap Z A;
  fill : Z -> A -> Session -> Session;
}.
Arguments view {A} _ _.
Arguments fill {A} _ _ _ _.

(** [@cache get f() { compute }]: the first access that returns keeps the
    value; later accesses return it without running [compute]. *)
Definition cached {A} (slot : Slot A) (this : Z) (compute : M Session A) : M Session A :=
  fun s => match view slot s !! this with
           | Some v => (s, Ok v)
           | None =>
               match compute s with
               | (s', Ok v) => (fill slot this v s', Ok v)
               | (s', Err e) => (s', Err e)
               end
           end.

Definition classCount_slot : Slot Z := {|
  view := classCount_cache;
  fill this v s :=
    {| classCount_cache := <[this := v]> (classCount_cache s);
       classStart_cache := classStart_cache s; classes_cache := classes_cache s;
       name_cache := name_cache s; image_cache := image_cache s;
       assembly_name_cache := assembly_name_cache s;
       heap := heap s; heap_next := heap_next s; trace := trace s |};
|}.

Definition classStart_slot : Slot Z := {|
  view := classStart_cache;
  fill this v s :=
    {| classCount_cache := classCount_cache s;
       classStart_cache := <[this := v]> (classStart_cache s);
       classes_cache := classes_cache s;
       name_cache := name_cache s; image_cache := image_cache s;
       assembly_name_cache := assembly_name_cache s;
       heap := heap s; heap_next := heap_next s; trace := trace s |};
|}.

Definition classes_slot : Slot (Accessor.t Z) := {|
  view := classes_cache;
  fill this v s :=
    {| classCount_cache := classCount_cache s;
       classStart_cache := classStart_cache s;
       classes_cache := <[this := v]> (classes_cache s);
       name_cache := name_cache s; image_cache := image_cache s;
       assembly_name_cache := assembly_name_cache s;
       heap := heap s; heap_next := heap_next s; trace := trace s |};
|}.

Definition name_slot : Slot (option string) := {|
  view := name_cache;
  fill this v s :=
    {| classCount_cache := classCount_cache s;
       classStart_cache := classStart_cache s; classes_cache := classes_cache s;
       name_cache := <[this := v]> (name_cache s);
       image_cache := image_cache s;
       assembly_name_cache := assembly_name_cache s;
       heap := heap s; heap_next := heap_next s; trace := trace s |};
|}.

Definition image_slot : Slot Z := {|
  view := image_cache;
  fill this v s :=
    {| classCount_cache := classCount_cache s;
       classStart_cache := classStart_cache s; classes_cache := classes_cache s;
       name_cache := name_cache s;
       image_cache := <[this := v]> (image_cache s);
       assembly_name_cache := assembly_name_cache s;
       heap := heap s; heap_next := heap_next s; trace := trace s |};
|}.

Definition assembly_name_slot : Slot string := {|
  view := assembly_name_cache;
  fill this v s :=
    {| classCount_cache := classCount_cache s;
       classStart_cache := classStart_cache s; classes_cache := classes_cache s;
       name_cache := name_cache s; image_cache := image_cache s;
       assembly_name_cache := <[this := v]> (assembly_name_cache s);
       heap := heap s; heap_next := heap_next s; trace := trace s |};
|}.

(** ** Native memory: [Memory.alloc] and 32-bit little-endian integers *)

Module Memory.

Definition byte_of (v k : Z) : Z := (v / 256 ^ k) mod 256.

Definition byte_at (m : gmap Z Z) (a : Z) : Z := default 0 (m !! a).

(** The signed 32-bit integer a number is stored as. *)
Definition to_int32 (v : Z) : Z :=
  let u := v mod 2 ^ 32 in if u <? 2 ^ 31 then u else u - 2 ^ 32.

Definition store32 (m : gmap Z Z) (p v : Z) : gmap Z Z :=
  <[p + 3 := byte_of v 3]> (<[p + 2 := byte_of v 2]>
    (<[p + 1 := byte_of v 1]> (<[p := byte_of v 0]> m))).

Definition load32 (m : gmap Z Z) (p : Z) : Z :=
  to_int32 (byte_at m p + 256 * byte_at m (p + 1)
            + 65536 * byte_at m (p + 2) + 16777216 * byte_at m (p + 3)).

(** [Memory.alloc(size)]: a fresh block; the trace records it. *)
Definition alloc (size : Z) : M Session Z :=
  fun s =>
    let p := heap_next s in
    (add_events [Memory_allocated size p] (with_heap (heap s) (p + Z.max size 1) s), Ok p).

(** [pointer.writeInt(value)]: stores the value and returns the pointer. *)
Definition writeInt (pointer value : Z) : M Session Z :=
  fun s => (with_heap (store32 (heap s) pointer value) (heap_next s) s, Ok pointer).

End Memory.

(** ** NativeStruct *)

Module NativeStruct.

(** Modelled from the spec: the [@nonNullHandle] decorator is not part of the
    sources at hand; constructing a view over a null handle fails with the
    [InvalidHandle] condition. *)
Definition nonNullHandle {S} (handle : Z) : M S Z :=
  if bool_decide (handle = 0) then throw InvalidHandle else ret handle.

End NativeStruct.

(** ** Il2CppImage *)

Module Il2CppImage.
Section Getters.
Context {rt : Runtime}.

Definition Api_imageGetClassCount_call (image : Z) : M Session Z :=
  log (Call_imageGetClassCount image);; ret (Api_imageGetClassCount image).

Definition Api_imageGetClassStart_call (image : Z) : M Session Z :=
  log (Call_imageGetClassStart image);; ret (Api_imageGetClassStart image).

Definition Api_imageGetClass_call (image index : Z) : M Session Z :=
  log (Call_imageGetClass image index);; ret (Api_imageGetClass image index).

Definition Api_imageGetName_call (image : Z) : M Session (option string) :=
  log (Call_imageGetName image);; ret (Api_imageGetName image).

(** The VM reads the descriptor it is handed: the index in its first field
    and the type enum at [Il2CppType.offsetOfTypeEnum]. *)
Definition Api_typeGetClassOrElementClass_call (type : Z) : M Session Z :=
  fun s =>
    let index := Memory.load32 (heap s) type in
    let typeEnum := Memory.load32 (heap s) (type + Il2CppType_offsetOfTypeEnum) in
    (log (Call_typeGetClassOrElementClass type index typeEnum);;
     ret (Api_typeGetClassOrElementClass index)) s.

(** [new Il2CppClass(handle)] *)
Definition new_Il2CppClass (handle : Z) : M Session Z :=
  NativeStruct.nonNullHandle handle.

Definition classCount (this : Z) : M Session Z :=
  cached classCount_slot this (Api_imageGetClassCount_call this).

Definition classStart (this : Z) : M Session Z :=
  cached classStart_slot this (Api_imageGetClassStart_call this).

Definition classes (this : Z) : M Session (Accessor.t Z) :=
  cached classes_slot this
    (let accessor := Accessor.empty in
     if unityVersion_isLegacy then
       let* start := classStart this in
       let* count := classCount this in
       let end_ := start + count in
       let* globalIndex := Memory.alloc Process_pointerSize in
       let* _ := Memory.writeInt (globalIndex + Il2CppType_offsetOfTypeEnum) 32 in
       foldM (fun accessor i =>
                let* type := Memory.writeInt globalIndex i in
                let* handle := Api_typeGetClassOrElementClass_call type in
                let* klass := new_Il2CppClass handle in
                ret (Accessor.set accessor (Class_type_name klass) klass))
             (seqZ start (end_ - start)) accessor
     else
       let* end_ := classCount this in
       foldM (fun accessor i =>
                let* handle := Api_imageGetClass_call this i in
                let* klass := new_Il2CppClass handle in
                ret (Accessor.set accessor (Class_type_name klass) klass))
             (seqZ 0 end_) accessor).

Definition name (this : Z) : M Session (option string) :=
  cached name_slot this (Api_imageGetName_call this).

End Getters.
End Il2CppImage.

(** ** Il2CppAssembly *)

Module Il2CppAssembly.
Section Getters.
Context {rt : Runtime}.

Definition Api_assemblyGetImage_call (assembly : Z) : M Session Z :=
  log (Call_assemblyGetImage assembly);; ret (Api_assemblyGetImage assembly).

(** [new Il2Cpp.Image(handle)]: [Il2CppImage] is a [@nonNullHandle] view. *)
Definition new_Il2CppImage (handle : Z) : M Session Z :=
  NativeStruct.nonNullHandle handle.

Definition image (this : Z) : M Session Z :=
  cached image_slot this
    (let* handle := Api_assemblyGetImage_call this in new_Il2CppImage handle).

(** [this.image.name.replace(".dll", "")]; a [null] image name has no
    [replace]. *)
Definition name (this : Z) : M Session string :=
  cached assembly_name_slot this
    (let* image := image this in
     let* image_name := Il2CppImage.name image in
     match image_name with
     | Some n => ret (JS.replace ".dll" "" n)
     | None => throw TypeError
     end).

End Getters.
End Il2CppAssembly.

(** ** Il2CppDomain *)

Module Il2CppDomain.
Section Getters.
Context {rt : Runtime}.

(** Modelled from the spec: [Il2Cpp.Domain] is not part of the sources at
    hand.  The domain owns the assemblies in the VM's registration order;
    its by-name table is keyed by the assembly name and follows the same
    collision policy as every [Accessor]. *)
Definition assemblies : M Session (Accessor.t Z) :=
  foldM (fun accessor assembly =>
           let* name := Il2CppAssembly.name assembly in
           ret (Accessor.set accessor name assembly))
        Domain_assembly_handles Accessor.empty.

End Getters.
End Il2CppDomain.

(** ** Generators *)

(** The body of a [function*]: it ends, hands a chunk to its consumer and
    goes on when asked for the next one, or runs a piece of session code and
    goes on with its value.  A piece of session code that throws ends the
    generator with that failure. *)
Inductive Generator : Type :=
  | Done
  | Yield (chunk : string) (next : Generator)
  | Step {A : Type} (m : M Session A) (next : A -> Generator).

Fixpoint gen_seq (g1 g2 : Generator) : Generator :=
  match g1 with
  | Done => g2
  | Yield chunk next => Yield chunk (gen_seq next g2)
  | Step m next => Step m (fun a => gen_seq (next a) g2)
  end.

(** [for (const a of l) { body }] inside a generator. *)
Definition gen_for {A} (l : list A) (body : A -> Generator) : Generator :=
  foldr (fun a rest => gen_seq (body a) rest) Done l.

(** [for (const chunk of generator) { body }]: the generator runs up to its
    next [yield], then the loop body runs on the chunk. *)
Fixpoint consume {T} (g : Generator) (body : string -> M (Session * T) unit)
  : M (Session * T) unit :=
  match g with
  | Done => ret ()
  | Yield chunk next => body chunk;; consume next body
  | Step m next => let* a := liftL m in consume (next a) body
  end.

(** ** File *)

Module File.

Record FileObject : Type := {
  path : string;
  pending : string;
  opened : bool;
}.

Inductive file_event : Type :=
  | Opened (path : string)
  | Written (file : nat) (chunk : string)
  | Flushed (file : nat)
  | Closed (file : nat).

(** What is on disk, the file objects created so far (a file is named by its
    position) and the operations performed on them. *)
Record FileSystem : Type := {
  disk : gmap string string;
  files : list FileObject;
  operations : list file_event;
}.

Definition FileSystem_init : FileSystem :=
  {| disk := ∅; files := []; operations := [] |}.

Section Operations.
Context {rt : Runtime}.

(** [new File(path, "w")]: truncates the file, or fails when it cannot be
    opened for writing. *)
Definition new (path : string) : M FileSystem nat :=
  fun fs =>
    if File_openable path
    then ({| disk := <[path := ""]> (disk fs);
             files := files fs ++ [{| path := path; pending := ""; opened := true |}];
             operations := operations fs ++ [Opened path] |},
          Ok (List.length (files fs)))
    else (fs, Err IOFailure).

(** [file.write(chunk)]: buffered until the next flush. *)
Definition write (file : nat) (chunk : string) : M FileSystem unit :=
  fun fs =>
    match files fs !! file with
    | Some f =>
        if opened f
        then ({| disk := disk fs;
                 files := <[file := {| path := path f; pending := pending f +:+ chunk;
                                       opened := true |}]> (files fs);
                 operations := operations fs ++ [Written file chunk] |}, Ok ())
        else (fs, Err IOFailure)
    | None => (fs, Err IOFailure)
    end.

Definition flush (file : nat) : M FileSystem unit :=
  fun fs =>
    match files fs !! file with
    | Some f =>
        if opened f
        then ({| disk := <[path f := default "" (disk fs !! path f) +:+ pending f]> (disk fs);
                 files := <[file := {| path := path f; pending := ""; opened := true |}]> (files fs);
                 operations := operations fs ++ [Flushed file] |}, Ok ())
        else (fs, Err IOFailure)
    | None => (fs, Err IOFailure)
    end.

Definition close (file : nat) : M FileSystem unit :=
  fun fs =>
    match files fs !! file with
    | Some f =>
        if opened f
        then ({| disk := <[path f := default "" (disk fs !! path f) +:+ pending f]> (disk fs);
                 files := <[file := {| path := path f; pending := ""; opened := false |}]> (files fs);
                 operations := operations fs ++ [Closed file] |}, Ok ())
        else (fs, Err IOFailure)
    | None => (fs, Err IOFailure)
    end.

End Operations.
End File.

(** ** Il2CppDumper *)

Module Il2CppDumper.

Record t : Type := {
  directoryPath_ : option string;
  fileName_ : option string;
  extension_ : option string;
  generator_ : option Generator;
}.

(** [new Il2Cpp.Dumper()] *)
Definition new : t :=
  {| directoryPath_ := None; fileName_ := None; extension_ := None; generator_ := None |}.

Definition directoryPath (this : t) (directoryPath : string) : t :=
  {| directoryPath_ := Some directoryPath; fileName_ := fileName_ this;
     extension_ := extension_ this; generator_ := generator_ this |}.

Definition fileName (this : t) (fileName : string) : t :=
  {| directoryPath_ := directoryPath_ this; fileName_ := Some fileName;
     extension_ := extension_ this; generator_ := generator_ this |}.

(** The escape character of the console styles. *)
Definition esc : string := String (ascii_of_nat 27) EmptyString.

Section Methods.
Context {rt : Runtime}.

Definition inform (message : string) : M Session unit := log (Console_inform message).
Definition ok (message : string) : M Session unit := log (Console_ok message).

(** Reading a member of a value that may be [undefined]. *)
Definition member {A} (x : option A) : M Session A :=
  match x with
  | Some a => ret a
  | None => throw TypeError
  end.

(** [getUntilFound(Il2Cpp.Domain.assemblies, "UnityEngine.CoreModule",
    "UnityEngine")!.image], then [UnityEngine.classes["UnityEngine.Application"]]. *)
Definition Application : M Session (option Z) :=
  let* assemblies := Il2CppDomain.assemblies in
  let* assembly := member (getUntilFound assemblies ["UnityEngine.CoreModule"; "UnityEngine"]) in
  let* UnityEngine := Il2CppAssembly.image assembly in
  let* classes := Il2CppImage.classes UnityEngine in
  ret (Accessor.get classes "UnityEngine.Application").

Definition defaultDirectoryPath : M Session (option string) :=
  let* Application := Application in
  let* Application := member Application in
  let* get_persistentDataPath :=
    member (Accessor.get (Class_methods Application) "get_persistentDataPath") in
  let* path := of_result (Method_invoke get_persistentDataPath) in
  ret (content path).

Definition defaultFileName : M Session string :=
  let* Application := Application in
  try_catch
    (let* Application := member Application in
     let* getter :=
       member (getUntilFound (Class_methods Application)
                 ["get_identifier"; "get_bundleIdentifier"]) in
     let* identifier := of_result (Method_invoke getter) in
     let* get_version := member (Accessor.get (Class_methods Application) "get_version") in
     let* version := of_result (Method_invoke get_version) in
     ret (template (content identifier) +:+ "_" +:+ template (content version)))
    (ret (number_toString Date_getTime)).

(** The classes dump: one chunk per class, the class's own string form. *)
Definition classes_of_assembly (assembly : Z) : Generator :=
  Step (let* name := Il2CppAssembly.name assembly in
        inform ("Dumping " +:+ esc +:+ "[1m" +:+ name +:+ esc +:+ "[0m..."))
    (fun _ =>
  Step (let* image := Il2CppAssembly.image assembly in Il2CppImage.classes image)
    (fun classes =>
  gen_for (Accessor.values classes) (fun klass =>
    Yield (Class_toString klass) Done))).

Definition classes_generator : Generator :=
  Step Il2CppDomain.assemblies (fun assemblies =>
    gen_for (Accessor.values assemblies) classes_of_assembly).

Definition classes (this : t) : t :=
  {| directoryPath_ := directoryPath_ this; fileName_ := fileName_ this;
     extension_ := Some "cs"; generator_ := Some classes_generator |}.

(** [klass.inflateRaw(types)] and [method.inflateRaw(types)]: the resolver
    hands back the instantiated entity; the trace records the request. *)
Definition Class_inflateRaw (klass : Z) (types : Il2CppArray) : M Session Z :=
  log (Inflated_class klass types);; ret (Class_inflateRaw_handle klass types).

Definition Method_inflateRaw (method : Z) (types : Il2CppArray) : M Session Z :=
  log (Inflated_method method types);; ret (Method_inflateRaw_handle method types).

Section MethodsDump.
(** [SystemType] is [undefined] when corlib has no such class. *)
Variable SystemType : option Z.
Variable SystemObject : Z.

(** [Il2Cpp.Array.from(SystemType, Array(genericParameterCount).fill(SystemObject))] *)
Definition getTypeArray (genericParameterCount : Z) : M Session Il2CppArray :=
  let* slots := of_result (Array_fill genericParameterCount SystemObject) in
  ret {| elementClass := SystemType; elements := slots |}.

(** The body of the loop over the methods of [klass]. *)
Definition methods_of_method (klass method : Z) : Generator :=
  Step (if Method_isGeneric method && negb (Class_isGeneric klass)
        then let* types := getTypeArray (Method_genericParameterCount method) in
             Method_inflateRaw method types
        else ret method)
    (fun method =>
  if negb (bool_decide (Method_virtualAddress method = 0))
  then Yield (formatNativePointer (Method_relativeVirtualAddress method) +:+ " "
              +:+ Class_type_name klass +:+ "." +:+ Method_name method +:+ newline) Done
  else Done).

(** The body of the loop over the classes of an image. *)
Definition methods_of_class (klass : Z) : Generator :=
  Step (if Class_isGeneric klass
        then let* types := getTypeArray (Class_genericParameterCount klass) in
             Class_inflateRaw klass types
        else ret klass)
    (fun klass =>
  gen_for (Accessor.values (Class_methods klass)) (methods_of_method klass)).

Definition methods_of_assembly (assembly : Z) : Generator :=
  Step (let* name := Il2CppAssembly.name assembly in
        inform ("Dumping methods from " +:+ esc +:+ "[1m" +:+ name +:+ esc +:+ "[0m..."))
    (fun _ =>
  Step (let* image := Il2CppAssembly.image assembly in Il2CppImage.classes image)
    (fun classes =>
  gen_for (Accessor.values classes) methods_of_class)).

Definition methods_generator : Generator :=
  Step Il2CppDomain.assemblies (fun assemblies =>
    gen_for (Accessor.values assemblies) methods_of_assembly).

End MethodsDump.

(** [methods()] looks the two corlib classes up at once; the generator it
    installs captures them. *)
Definition methods (this : t) : M Session t :=
  let* corlib_classes := Il2CppImage.classes Image_corlib in
  let SystemType := Accessor.get corlib_classes "System.Type" in
  let* corlib_classes := Il2CppImage.classes Image_corlib in
  let* System_Object := member (Accessor.get corlib_classes "System.Object") in
  let SystemObject := Class_type_object System_Object in
  ret {| directoryPath_ := directoryPath_ this; fileName_ := fileName_ this;
         extension_ := Some "ms";
         generator_ := Some (methods_generator SystemType SystemObject) |}.

Definition build (this : t) : M (Session * File.FileSystem) unit :=
  let* directoryPath :=
    match directoryPath_ this with
    | Some directoryPath => ret (Some directoryPath)
    | None => liftL defaultDirectoryPath
    end in
  let* fileName :=
    match fileName_ this with
    | Some fileName => ret fileName
    | None => liftL defaultFileName
    end in
  let destinationPath :=
    template directoryPath +:+ "/" +:+ fileName +:+ "."
    +:+ default "dump" (extension_ this) in
  let* file := liftR (File.new destinationPath) in
  let* generator :=
    match generator_ this with
    | Some generator => ret generator
    | None => throw TypeError
    end in
  consume generator (fun chunk => liftR (File.write file chunk));;
  liftR (File.flush file);;
  liftR (File.close file);;
  liftL (ok ("Dump saved to " +:+ destinationPath +:+ ".")).

End Methods.
End Il2CppDumper.

(** ** What the code computes, without the caches *)

(** The chunks a generator hands out when it is run to its end or to its
    failure, with the session it leaves. *)
Fixpoint collect (g : Generator) (s : Session) : Session * list string * result unit :=
  match g with
  | Done => (s, [], Ok ())
  | Yield chunk next =>
      match collect next s with
      | (s', chunks, r) => (s', chunk :: chunks, r)
      end
  | Step m next =>
      match m s with
      | (s', Ok a) => collect (next a) s'
      | (s', Err e) => (s', [], Err e)
      end
  end.

(** The names of a list in the order of their first occurrence. *)
Fixpoint first_occurrences (l : list string) : list string :=
  match l with
  | [] => []
  | x :: l' => x :: filter (fun y => y ≠ x) (first_occurrences l')
  end.

Section Denotations.
Context {rt : Runtime}.

(** The class handles of an image in the order [classes] traverses them. *)
Definition class_handles (image : Z) : list Z :=
  if unityVersion_isLegacy
  then (fun i => Api_typeGetClassOrElementClass (Memory.to_int32 i))
         <$> seqZ (Api_imageGetClassStart image) (Api_imageGetClassCount image)
  else Api_imageGetClass image <$> seqZ 0 (Api_imageGetClassCount image).

(** The table built from handles in traversal order. *)
Definition table_of (handles : list Z) : Accessor.t Z :=
  foldl (fun accessor klass => Accessor.set accessor (Class_type_name klass) klass)
        Accessor.empty handles.

Definition classes_of (image : Z) : result (Accessor.t Z) :=
  if bool_decide (Forall (fun h => h ≠ 0) (class_handles image))
  then Ok (table_of (class_handles image))
  else Err InvalidHandle.

Definition image_of (assembly : Z) : result Z :=
  if bool_decide (Api_assemblyGetImage assembly = 0)
  then Err InvalidHandle
  else Ok (Api_assemblyGetImage assembly).

Definition assembly_name_of (assembly : Z) : result string :=
  result_bind (image_of assembly) (fun image =>
    match Api_imageGetName image with
    | Some n => Ok (JS.replace ".dll" "" n)
    | None => Err TypeError
    end).

(** Every cached value is the value its getter computes. *)
Record coherent (s : Session) : Prop := {
  coherent_classCount : forall h v,
    classCount_cache s !! h = Some v -> v = Api_imageGetClassCount h;
  coherent_classStart : forall h v,
    classStart_cache s !! h = Some v -> v = Api_imageGetClassStart h;
  coherent_classes : forall h v,
    classes_cache s !! h = Some v -> classes_of h = Ok v;
  coherent_name : forall h v,
    name_cache s !! h = Some v -> v = Api_imageGetName h;
  coherent_image : forall h v,
    image_cache s !! h = Some v -> image_of h = Ok v;
  coherent_assembly_name : forall h v,
    assembly_name_cache s !! h = Some v -> assembly_name_of h = Ok v;
}.

(** [m] returns [d] from every coherent session, and leaves one. *)
Definition denotes {A} (m : M Session A) (d : result A) : Prop :=
  forall s, coherent s -> exists s', m s = (s', d) /\ coherent s'.

End Denotations.

(** Every event [m] adds to the trace satisfies [P]. *)
Definition emits {A} (P : event -> Prop) (m : M Session A) : Prop :=
  forall s, exists evs, trace (m s).1 = trace s ++ evs /\ Forall P evs.

Section HostDefaults.
Context {rt : Runtime}.

(** A loop in the [result] monad, the pure counterpart of [foldM]. *)
Fixpoint foldR {A B} (g : B -> A -> result B) (l : list A) (b : B) : result B :=
  match l with
  | [] => Ok b
  | a :: l' => result_bind (g b a) (foldR g l')
  end.

Definition assemblies_of : result (Accessor.t Z) :=
  foldR (fun accessor assembly =>
           result_bind (assembly_name_of assembly) (fun name =>
             Ok (Accessor.set accessor name assembly)))
        Domain_assembly_handles Accessor.empty.

Definition member_of {A} (x : option A) : result A :=
  match x with
  | Some a => Ok a
  | None => Err TypeError
  end.

(** The host's [UnityEngine.Application] class, [None] when the UnityEngine
    image has no class of that name. *)
Definition Application_of : result (option Z) :=
  result_bind assemblies_of (fun assemblies =>
  result_bind (member_of (getUntilFound assemblies
                            ["UnityEngine.CoreModule"; "UnityEngine"])) (fun assembly =>
  result_bind (image_of assembly) (fun UnityEngine =>
  result_bind (classes_of UnityEngine) (fun classes =>
  Ok (Accessor.get classes "UnityEngine.Application"))))).

(** The host's persistent-data path, read through its getter. *)
Definition persistentDataPath_of : result (option string) :=
  result_bind Application_of (fun Application =>
  result_bind (member_of Application) (fun Application =>
  result_bind (member_of (Accessor.get (Class_methods Application)
                            "get_persistentDataPath")) (fun getter =>
  result_bind (Method_invoke getter) (fun path => Ok (content path))))).

(** The default base name as the spec words it: identifier and version joined
    by an underscore when both getters are there and return, a numeric
    timestamp otherwise. *)
Definition default_base_name (Application : option Z) : string :=
  match Application with
  | Some Application =>
      match getUntilFound (Class_methods Application)
              ["get_identifier"; "get_bundleIdentifier"],
            Accessor.get (Class_methods Application) "get_version" with
      | Some get_identifier, Some get_version =>
          match Method_invoke get_identifier, Method_invoke get_version with
          | Ok identifier, Ok version =>
              template (content identifier) +:+ "_" +:+ template (content version)
          | _, _ => number_toString Date_getTime
          end
      | _, _ => number_toString Date_getTime
      end
  | None => number_toString Date_getTime
  end.

End HostDefaults.

(** ** Table-driven runtimes, for running the code on concrete VMs *)

Module Toy.

Record class_row : Type := {
  c_handle : Z;
  c_name : string;
  c_isGeneric : bool;
  c_arity : Z;
  c_methods : list (string * Z);
  c_inflated : Z;
}.

Record method_row : Type := {
  m_handle : Z;
  m_name : string;
  m_isGeneric : bool;
  m_arity : Z;
  m_address : Z;
  m_inflated : Z;
  m_returns : result Il2CppString;
}.

Record image_row : Type := {
  i_handle : Z;
  i_name : option string;
  i_start : Z;
  i_classes : list Z;
}.

Record vm : Type := {
  legacy : bool;
  assemblies : list (Z * Z);
  images : list image_row;
  class_rows : list class_row;
  method_rows : list method_row;
  class_table : list Z;
  unwritable : list string;
  module_base : Z;
  now : Z;
}.

Definition class_row_of (v : vm) (h : Z) : option class_row :=
  List.find (fun r => bool_decide (c_handle r = h)) (class_rows v).
Definition method_row_of (v : vm) (h : Z) : option method_row :=
  List.find (fun r => bool_decide (m_handle r = h)) (method_rows v).
Definition image_row_of (v : vm) (h : Z) : option image_row :=
  List.find (fun r => bool_decide (i_handle r = h)) (images v).

Definition at_index (l : list Z) (i : Z) : Z :=
  if bool_decide (0 <= i) then List.nth (Z.to_nat i) l 0 else 0.

Definition hex_digit (d : Z) : ascii :=
  List.nth (Z.to_nat d) (list_ascii_of_string "0123456789abcdef") "0"%char.

Fixpoint hex (digits : nat) (n : Z) (acc : string) : string :=
  match digits with
  | O => acc
  | S k => hex k (n / 16) (String (hex_digit (n mod 16)) acc)
  end.

Definition runtime (v : vm) : Runtime := {|
  unityVersion_isLegacy := legacy v;
  Process_pointerSize := 8;
  Il2CppType_offsetOfTypeEnum := 10;
  Api_imageGetClassCount h :=
    from_option (fun r => Z.of_nat (List.length (i_classes r))) 0 (image_row_of v h);
  Api_imageGetClassStart h := from_option i_start 0 (image_row_of v h);
  Api_imageGetClass h i := from_option (fun r => at_index (i_classes r) i) 0 (image_row_of v h);
  Api_typeGetClassOrElementClass i := at_index (class_table v) i;
  Api_imageGetName h := from_option i_name None (image_row_of v h);
  Api_assemblyGetImage a :=
    from_option snd 0 (List.find (fun r => bool_decide (r.1 = a)) (assemblies v));
  Domain_assembly_handles := (assemblies v).*1;
  Image_corlib := from_option snd 0 (head (assemblies v));
  Class_type_name h := from_option c_name "" (class_row_of v h);
  Class_type_object h := h + 1000;
  Class_isGeneric h := from_option c_isGeneric false (class_row_of v h);
  Class_genericParameterCount h := from_option c_arity 0 (class_row_of v h);
  Class_methods h := from_option c_methods [] (class_row_of v h);
  Class_toString h := "class " +:+ from_option c_name "" (class_row_of v h) +:+ " {}";
  Class_inflateRaw_handle h _ := from_option c_inflated 0 (class_row_of v h);
  Method_name h := from_option m_name "" (method_row_of v h);
  Method_isGeneric h := from_option m_isGeneric false (method_row_of v h);
  Method_genericParameterCount h := from_option m_arity 0 (method_row_of v h);
  Method_virtualAddress h := from_option m_address 0 (method_row_of v h);
  Method_relativeVirtualAddress h := from_option m_address 0 (method_row_of v h) - module_base v;
  Method_inflateRaw_handle h _ := from_option m_inflated 0 (method_row_of v h);
  Method_invoke h := from_option m_returns (Err ManagedException) (method_row_of v h);
  formatNativePointer p := "0x" +:+ hex 8 p "";
  Date_getTime := now v;
  File_openable p := negb (bool_decide (p ∈ unwritable v));
|}.

Definition plain_class (h : Z) (name : string) (methods : list (string * Z)) : class_row :=
  {| c_handle := h; c_name := name; c_isGeneric := false; c_arity := 0;
     c_methods := methods; c_inflated := 0 |}.

Definition plain_method (h : Z) (name : string) (address : Z) : method_row :=
  {| m_handle := h; m_name := name; m_isGeneric := false; m_arity := 0;
     m_address := address; m_inflated := 0; m_returns := Err ManagedException |}.

Definition getter (h : Z) (name : string) (value : string) : method_row :=
  {| m_handle := h; m_name := name; m_isGeneric := false; m_arity := 0;
     m_address := 4096 + h; m_inflated := 0;
     m_returns := Ok {| content := Some value |} |}.

(** corlib with [System.Object] and [System.Type], and a second assembly [A]
    whose image holds the open generic class [Box<T>] with a generic method
    [Convert<U>] and an abstract method [Peek]. *)
Definition generic_vm : vm := {|
  legacy := false;
  assemblies := [(1, 101); (2, 102)];
  images := [ {| i_handle := 101; i_name := Some "mscorlib.dll"; i_start := 0;
                 i_classes := [201; 202] |};
              {| i_handle := 102; i_name := Some "A.dll"; i_start := 2;
                 i_classes := [210] |} ];
  class_rows := [ plain_class 201 "System.Object" [];
                  plain_class 202 "System.Type" [];
                  {| c_handle := 210; c_name := "Box<T>"; c_isGeneric := true;
                     c_arity := 1; c_methods := []; c_inflated := 211 |};
                  plain_class 211 "Box<System.Object>"
                    [("Get", 301); ("Peek", 302); ("Convert", 303)] ];
  method_rows := [ plain_method 301 "Get" 73728;
                   plain_method 302 "Peek" 0;
                   {| m_handle := 303; m_name := "Convert"; m_isGeneric := true;
                      m_arity := 1; m_address := 0; m_inflated := 304;
                      m_returns := Err ManagedException |};
                   plain_method 304 "Convert" 73984 ];
  class_table := [201; 202; 210];
  unwritable := [];
  module_base := 65536;
  now := 1700000000000;
|}.

(** One assembly whose image holds two classes of the same full type name
    (a class [B.C] in namespace [A] and a class [C] in namespace [A.B]) and a
    third class. *)
Definition clash_vm : vm := {|
  legacy := false;
  assemblies := [(1, 101)];
  images := [ {| i_handle := 101; i_name := Some "Game.dll"; i_start := 0;
                 i_classes := [201; 202; 203] |} ];
  class_rows := [ plain_class 201 "A.B.C" [("First", 301)];
                  plain_class 202 "A.D" [("Second", 302)];
                  plain_class 203 "A.B.C" [("Third", 303)] ];
  method_rows := [ plain_method 301 "First" 69632;
                   plain_method 302 "Second" 69888;
                   plain_method 303 "Third" 70144 ];
  class_table := [201; 202; 203];
  unwritable := [];
  module_base := 65536;
  now := 1700000000000;
|}.

(** Two images under the legacy layout; the second one owns the indices 2
    and 3 of the global class table. *)
Definition legacy_vm : vm := {|
  legacy := true;
  assemblies := [(1, 101); (2, 102)];
  images := [ {| i_handle := 101; i_name := Some "mscorlib.dll"; i_start := 0;
                 i_classes := [201; 202] |};
              {| i_handle := 102; i_name := Some "Game.dll"; i_start := 2;
                 i_classes := [203; 204] |} ];
  class_rows := [ plain_class 201 "System.Object" [];
                  plain_class 202 "System.Type" [];
                  plain_class 203 "Game.Player" [("Update", 301)];
                  plain_class 204 "Game.Enemy" [] ];
  method_rows := [ plain_method 301 "Update" 69632 ];
  class_table := [201; 202; 203; 204];
  unwritable := [];
  module_base := 65536;
  now := 1700000000000;
|}.

(** The image of the second assembly hands out a null class handle. *)
Definition broken_vm : vm := {|
  legacy := false;
  assemblies := [(1, 101); (2, 102)];
  images := [ {| i_handle := 101; i_name := Some "Game.dll"; i_start := 0;
                 i_classes := [201] |};
              {| i_handle := 102; i_name := Some "Broken.dll"; i_start := 1;
                 i_classes := [0] |} ];
  class_rows := [ plain_class 201 "Game.Player" [("Update", 301)] ];
  method_rows := [ plain_method 301 "Update" 69632 ];
  class_table := [201];
  unwritable := ["/readonly/out.cs"];
  module_base := 65536;
  now := 1700000000000;
|}.

(** A host application: corlib, and [UnityEngine.CoreModule] with the
    [UnityEngine.Application] class and its getters. *)
Definition host_vm : vm := {|
  legacy := false;
  assemblies := [(1, 101); (2, 102)];
  images := [ {| i_handle := 101; i_name := Some "mscorlib.dll"; i_start := 0;
                 i_classes := [201; 202] |};
              {| i_handle := 102; i_name := Some "UnityEngine.CoreModule.dll";
                 i_start := 2; i_classes := [220] |} ];
  class_rows := [ plain_class 201 "System.Object" [];
                  plain_class 202 "System.Type" [];
                  plain_class 220 "UnityEngine.Application"
                    [("get_persistentDataPath", 401); ("get_identifier", 402);
                     ("get_version", 403)] ];
  method_rows := [ getter 401 "get_persistentDataPath" "/data/files";
                   getter 402 "get_identifier" "com.x.y";
                   getter 403 "get_version" "1.0" ];
  class_table := [201; 202; 220];
  unwritable := [];
  module_base := 0;
  now := 1700000000000;
|}.

(** The same host without a version getter. *)
Definition old_host_vm : vm := {|
  legacy := false;
  assemblies := [(1, 101); (2, 102)];
  images := [ {| i_handle := 101; i_name := Some "mscorlib.dll"; i_start := 0;
                 i_classes := [201; 202] |};
              {| i_handle := 102; i_name := Some "UnityEngine.dll";
                 i_start := 2; i_classes := [220] |} ];
  class_rows := [ plain_class 201 "System.Object" [];
                  plain_class 202 "System.Type" [];
                  plain_class 220 "UnityEngine.Application"
                    [("get_persistentDataPath", 401); ("get_bundleIdentifier", 402)] ];
  method_rows := [ getter 401 "get_persistentDataPath" "/data/files";
                   getter 402 "get_bundleIdentifier" "com.x.y" ];
  class_table := [201; 202; 220];
  unwritable := [];
  module_base := 0;
  now := 1700000000000;
|}.

(** An assembly [Tools.dll.Editor]: its image is [Tools.dll.Editor.dll]. *)
Definition dotted_vm : vm := {|
  legacy := false;
  assemblies := [(1, 101)];
  images := [ {| i_handle := 101; i_name := Some "Tools.dll.Editor.dll"; i_start := 0;
                 i_classes := [201] |} ];
  class_rows := [ plain_class 201 "Tools.Menu" [] ];
  method_rows := [];
  class_table := [201];
  unwritable := [];
  module_base := 0;
  now := 1700000000000;
|}.

End Toy.

(** ** Traces of the class-table loops *)

(** The body of both class-table loops once the class is at hand. *)
Abbreviation table_step :=
  (fun accessor klass => Accessor.set accessor (Class_type_name klass) klass).

(** The resolution requests of the legacy loop, with what the VM finds in the
    descriptor at each of them. *)
Fixpoint legacy_calls (p off : Z) (m : gmap Z Z) (l : list Z) : list event :=
  match l with
  | [] => []
  | i :: l' =>
      let m' := Memory.store32 m p i in
      Call_typeGetClassOrElementClass p (Memory.load32 m' p) (Memory.load32 m' (p + off))
      :: legacy_calls p off m' l'
  end.

(** The reads of a cached count that reach the VM: none when it is cached. *)
Definition classCount_reads (s : Session) (this : Z) : list event :=
  match classCount_cache s !! this with
  | Some _ => []
  | None => [Call_imageGetClassCount this]
  end.

Definition classStart_reads (s : Session) (this : Z) : list event :=
  match classStart_cache s !! this with
  | Some _ => []
  | None => [Call_imageGetClassStart this]
  end.

Section ClassesTrace.
Context {rt : Runtime}.

(** What a first access to [classes] adds to the trace. *)
Definition classes_trace (s : Session) (this : Z) : list event :=
  if unityVersion_isLegacy
  then classStart_reads s this ++ classCount_reads s this
       ++ [Memory_allocated Process_pointerSize (heap_next s)]
       ++ legacy_calls (heap_next s) Il2CppType_offsetOfTypeEnum
            (Memory.store32 (heap s) (heap_next s + Il2CppType_offsetOfTypeEnum) 32)
            (seqZ (Api_imageGetClassStart this) (Api_imageGetClassCount this))
  else classCount_reads s this
       ++ (Call_imageGetClass this <$> seqZ 0 (Api_imageGetClassCount this)).

End ClassesTrace.

(** ** What ends up in the file *)

(** The chunks put end to end. *)
Definition joined (chunks : list string) : string := foldr String.append "" chunks.

(** The part of [build] that follows the computation of the destination
    path. *)
Definition build_at {rt : Runtime} (this : Il2CppDumper.t) (destinationPath : string)
  : M (Session * File.FileSystem) unit :=
  let* file := liftR (File.new destinationPath) in
  let* generator :=
    match Il2CppDumper.generator_ this with
    | Some generator => ret generator
    | None => throw TypeError
    end in
  consume generator (fun chunk => liftR (File.write file chunk));;
  liftR (File.flush file);;
  liftR (File.close file);;
  liftL (Il2CppDumper.ok ("Dump saved to " +:+ destinationPath +:+ ".")).

(** The file system after [build] has opened [path] as the file [file],
    written [chunks] to it and, when [finished], flushed and closed it. *)
Definition dumped (fs : File.FileSystem) (path : string) (chunks : list string)
    (finished : bool) : File.FileSystem :=
  {| File.disk := <[path := if finished then joined chunks else ""]> (File.disk fs);
     File.files :=
       File.files fs
       ++ [{| File.path := path;
              File.pending := if finished then "" else joined chunks;
              File.opened := negb finished |}];
     File.operations :=
       File.operations fs ++ [File.Opened path]
       ++ (File.Written (List.length (File.files fs)) <$> chunks)
       ++ (if finished
           then [File.Flushed (List.length (File.files fs));
                 File.Closed (List.length (File.files fs))]
           else []) |}.

(** What [build] does once the destination path is known, from the session
    [s] and the file system [fs]: nothing but an [IOFailure] when the file
    cannot be opened; otherwise the file is opened, the chunks the generator
    hands out are written, and the file is flushed and closed when the
    generator ends. *)
Definition build_outcome {rt : Runtime} (this : Il2CppDumper.t) (destinationPath : string)
    (s : Session) (fs : File.FileSystem)
  : (Session * File.FileSystem) * result unit :=
  if File_openable destinationPath then
    match Il2CppDumper.generator_ this with
    | None => ((s, dumped fs destinationPath [] false), Err TypeError)
    | Some g =>
        match collect g s with
        | (s', chunks, Ok _) =>
            ((add_events [Console_ok ("Dump saved to " +:+ destinationPath +:+ ".")] s',
              dumped fs destinationPath chunks true), Ok ())
        | (s', chunks, Err e) => ((s', dumped fs destinationPath chunks false), Err e)
        end
    end
  else ((s, fs), Err IOFailure).

(** ** What the methods dump writes *)

Section MethodsDumpSpec.
Context {rt : Runtime}.
Variable SystemType : option Z.
Variable SystemObject : Z.

(** A generic parameter count [Array(k)] accepts. *)
Definition valid_length (k : Z) : Prop := 0 <= k < 2 ^ 32.

(** The placeholder argument list for [k] generic parameters. *)
Definition placeholder_types (k : Z) : Il2CppArray :=
  {| elementClass := SystemType; elements := replicate (Z.to_nat k) SystemObject |}.

(** The class whose methods are dumped for the class [klass] of an image. *)
Definition dumped_class (klass : Z) : Z :=
  if Class_isGeneric klass
  then Class_inflateRaw_handle klass (placeholder_types (Class_genericParameterCount klass))
  else klass.

(** The method that is looked at for the method [method] of the dumped class
    [klass]. *)
Definition dumped_method (klass method : Z) : Z :=
  if Method_isGeneric method && negb (Class_isGeneric klass)
  then Method_inflateRaw_handle method
         (placeholder_types (Method_genericParameterCount method))
  else method.

Definition method_line (klass method : Z) : string :=
  formatNativePointer (Method_relativeVirtualAddress method) +:+ " "
  +:+ Class_type_name klass +:+ "." +:+ Method_name method +:+ newline.

(** One line for a method with a virtual address, none for one without. *)
Definition method_lines (klass method : Z) : list string :=
  if bool_decide (Method_virtualAddress (dumped_method klass method) = 0)
  then []
  else [method_line klass (dumped_method klass method)].

Definition class_lines (klass : Z) : list string :=
  List.concat (method_lines (dumped_class klass)
            <$> Accessor.values (Class_methods (dumped_class klass))).

(** The generic parameter counts met while the methods of [klass] are dumped
    are valid array lengths. *)
Definition dumpable (klass : Z) : Prop :=
  (Class_isGeneric klass = true -> valid_length (Class_genericParameterCount klass))
  /\ forall method,
       method ∈ Accessor.values (Class_methods (dumped_class klass)) ->
       Method_isGeneric method = true ->
       Class_isGeneric (dumped_class klass) = false ->
       valid_length (Method_genericParameterCount method).

(** An inflation recorded in the trace was given one [SystemObject] per
    generic parameter of the inflated entity. *)
Definition placeholder_inflation (e : event) : Prop :=
  match e with
  | Inflated_class klass types =>
      elements types = replicate (Z.to_nat (Class_genericParameterCount klass)) SystemObject
      /\ Z.of_nat (List.length (elements types)) = Class_genericParameterCount klass
  | Inflated_method method types =>
      elements types = replicate (Z.to_nat (Method_genericParameterCount method)) SystemObject
      /\ Z.of_nat (List.length (elements types)) = Method_genericParameterCount method
  | _ => True
  end.

End MethodsDumpSpec.

(** [g] hands out [chunks] and ends, from every coherent session. *)
Definition produces {rt : Runtime} (g : Generator) (chunks : list string) : Prop :=
  forall s, coherent s -> exists s', collect g s = (s', chunks, Ok ()) /\ coherent s'.

(** [g] hands out [chunks] and ends, and only adds events to the session. *)
Definition appends (g : Generator) (chunks : list string) : Prop :=
  forall s, exists evs, collect g s = (add_events evs s, chunks, Ok ()).

(** Every event a run of [g] adds to the trace satisfies [P], whether the run
    ends or fails. *)
Definition gen_emits (P : event -> Prop) (g : Generator) : Prop :=
  forall s, exists evs, trace (collect g s).1.1 = trace s ++ evs /\ Forall P evs.

(** ** Further definitions for the properties of the remaining code *)

(** [s.indexOf(pattern)]: the position of the first occurrence of [pattern]
    in [s], [None] for [-1]. *)
Fixpoint indexOf (pattern s : string) : option nat :=
  if String.prefix pattern s then Some O
  else match s with
       | EmptyString => None
       | String _ s' => S <$> indexOf pattern s'
       end.

Section DumpSpec.
Context {rt : Runtime}.

(** The classes the dumps go through for an assembly: the values of the
    table of its image. *)
Definition assembly_classes (assembly : Z) : list Z :=
  match image_of assembly with
  | Ok image =>
      match classes_of image with
      | Ok acc => Accessor.values acc
      | Err _ => []
      end
  | Err _ => []
  end.

(** The image, the name and the class table of the assembly can be read. *)
Definition readable (assembly : Z) : Prop :=
  exists image name acc,
    image_of assembly = Ok image /\ assembly_name_of assembly = Ok name
    /\ classes_of image = Ok acc.

(** The name of an assembly that has one. *)
Definition assembly_name_or_empty (assembly : Z) : string :=
  match assembly_name_of assembly with
  | Ok name => name
  | Err _ => ""
  end.

(** What [Il2CppAssembly.name] returns, read off the VM. *)
Definition assembly_name_result (assembly : Z) : result string :=
  if bool_decide (Api_assemblyGetImage assembly = 0) then Err InvalidHandle
  else match Api_imageGetName (Api_assemblyGetImage assembly) with
       | None => Err TypeError
       | Some n => Ok (JS.replace ".dll" "" n)
       end.

End DumpSpec.

(** A progress notice of one of the dumps. *)
Definition is_notice (e : event) : bool :=
  match e with
  | Console_inform _ => true
  | _ => false
  end.

(** A request to the VM or to the allocator: neither a console message nor
    an inflation. *)
Definition vm_event (e : event) : Prop :=
  match e with
  | Inflated_class _ _ | Inflated_method _ _ | Console_inform _ | Console_ok _ => False
  | _ => True
  end.

(** The same VM seen under the other layout. *)
Definition Toy_with_layout (legacy : bool) (v : Toy.vm) : Toy.vm :=
  {| Toy.legacy := legacy;
     Toy.assemblies := Toy.assemblies v;
     Toy.images := Toy.images v;
     Toy.class_rows := Toy.class_rows v;
     Toy.method_rows := Toy.method_rows v;
     Toy.class_table := Toy.class_table v;
     Toy.unwritable := Toy.unwritable v;
     Toy.module_base := Toy.module_base v;
     Toy.now := Toy.now v |}.

(** A host whose UnityEngine image has no [UnityEngine.Application] class,
    and a second image without classes. *)
Definition Toy_bare_vm : Toy.vm := {|
  Toy.legacy := false;
  Toy.assemblies := [(1, 101); (2, 102); (3, 103)];
  Toy.images := [ {| Toy.i_handle := 101; Toy.i_name := Some "mscorlib.dll";
                     Toy.i_start := 0; Toy.i_classes := [201; 202] |};
                  {| Toy.i_handle := 102; Toy.i_name := Some "UnityEngine.dll";
                     Toy.i_start := 2; Toy.i_classes := [220] |};
                  {| Toy.i_handle := 103; Toy.i_name := Some "Empty";
                     Toy.i_start := 3; Toy.i_classes := [] |} ];
  Toy.class_rows := [ Toy.plain_class 201 "System.Object" [];
                      Toy.plain_class 202 "System.Type" [];
                      Toy.plain_class 220 "UnityEngine.Object" [("ToString", 401)] ];
  Toy.method_rows := [ Toy.plain_method 401 "ToString" 4096 ];
  Toy.class_table := [201; 202; 220];
  Toy.unwritable := [];
  Toy.module_base := 0;
  Toy.now := 1700000000000;
|}.

(** The progress notices among events. *)
Definition notices_of (evs : list event) : list event :=
  filter (fun e => is_notice e = true) evs.

(** [g] ends normally from every coherent session, and the progress notices
    it sends to the console are [messages], in this order. *)
Definition announces {rt : Runtime} (g : Generator) (messages : list string) : Prop :=
  forall s, coherent s ->
    exists s' chunks evs,
      collect g s = (s', chunks, Ok ()) /\ coherent s'
      /\ trace s' = trace s ++ evs /\ notices_of evs = Console_inform <$> messages.

(** ** The destination of a dump *)

Section Destination.
Context {rt : Runtime}.

(** The [destinationPath] of [build]: the configured directory and file
    name, or the host's defaults where one is not configured, and the
    extension of the dump kind. *)
Definition destinationPath (this : Il2CppDumper.t) : M Session string :=
  let* directoryPath :=
    match Il2CppDumper.directoryPath_ this with
    | Some directoryPath => ret (Some directoryPath)
    | None => Il2CppDumper.defaultDirectoryPath
    end in
  let* fileName :=
    match Il2CppDumper.fileName_ this with
    | Some fileName => ret fileName
    | None => Il2CppDumper.defaultFileName
    end in
  ret (template directoryPath +:+ "/" +:+ fileName +:+ "."
       +:+ default "dump" (Il2CppDumper.extension_ this)).

End Destination.

(** ** The inflations of the methods dump *)

Section Inflations.
Context {rt : Runtime}.

(** The inflations the methods dump asks for while it dumps the class
    [klass] of an image: the class when it is generic, then every generic
    method of the dumped class, unless the dumped class reports
    [isGeneric]. *)
Definition class_inflations (SystemType : option Z) (SystemObject : Z) (klass : Z)
  : list event :=
  (if Class_isGeneric klass
   then [Inflated_class klass
           (placeholder_types SystemType SystemObject (Class_genericParameterCount klass))]
   else [])
  ++ List.concat
       ((fun method =>
           if Method_isGeneric method
              && negb (Class_isGeneric (dumped_class SystemType SystemObject klass))
           then [Inflated_method method
                   (placeholder_types SystemType SystemObject
                      (Method_genericParameterCount method))]
           else [])
          <$> Accessor.values (Class_methods (dumped_class SystemType SystemObject klass))).

End Inflations.

(** * Properties *)


(** ** The accessor *)

Section AccessorFacts.
Context {T : Type}.
Implicit Types (acc : Accessor.t T) (k : string) (v : T).

Lemma Accessor_get_set acc k v k' :
  Accessor.get (Accessor.set acc k v) k' =
  if decide (k = k') then Some v else Accessor.get acc k'.
Proof.
  induction acc as [|[k0 v0] acc IH]; simpl.
  - destruct (decide (k = k')); reflexivity.
  - destruct (decide (k0 = k)) as [->|Hne]; simpl.
    + destruct (decide (k = k')); reflexivity.
    + rewrite IH. destruct (decide (k0 = k')) as [->|?]; [|reflexivity].
      destruct (decide (k = k')); congruence.
Qed.

Lemma Accessor_keys_set acc k v :
  Accessor.keys (Accessor.set acc k v) =
  if decide (k ∈ Accessor.keys acc) then Accessor.keys acc else Accessor.keys acc ++ [k].
Proof.
  unfold Accessor.keys. induction acc as [|[k0 v0] acc IH].
  - cbn [Accessor.set fmap list_fmap app]. case_decide as Hin; [inversion Hin | reflexivity].
  - cbn [Accessor.set]. destruct (decide (k0 = k)) as [->|Hne].
    + clear IH. rewrite !fmap_cons. cbn [fst]. case_decide as Hn; [reflexivity|].
      exfalso. apply Hn. left.
    + rewrite !fmap_cons, IH. clear IH. cbn [fst].
      destruct (decide (k ∈ acc.*1)) as [Hin|Hnin].
      * case_decide as Hn; [reflexivity|]. exfalso. apply Hn. right. exact Hin.
      * case_decide as Hin'; [|reflexivity].
        apply elem_of_cons in Hin' as [->|?]; congruence.
Qed.

Lemma Accessor_values_set_fresh acc k v :
  k ∉ Accessor.keys acc ->
  Accessor.values (Accessor.set acc k v) = Accessor.values acc ++ [v].
Proof.
  unfold Accessor.keys, Accessor.values.
  induction acc as [|[k0 v0] acc IH]; intros Hk; [reflexivity|].
  rewrite fmap_cons in Hk. apply not_elem_of_cons in Hk as [Hne Hk].
  cbn [Accessor.set fst] in *. destruct (decide (k0 = k)); [congruence|].
  rewrite !fmap_cons, IH by exact Hk. reflexivity.
Qed.

Lemma Accessor_get_None acc k : k ∉ Accessor.keys acc -> Accessor.get acc k = None.
Proof.
  unfold Accessor.keys. induction acc as [|[k0 v0] acc IH]; intros Hk; [reflexivity|].
  rewrite fmap_cons in Hk. apply not_elem_of_cons in Hk as [Hne Hk].
  cbn [Accessor.get fst] in *. destruct (decide (k0 = k)); [congruence|]. by apply IH.
Qed.

(** A value the accessor iterates over sits in the slot of some key. *)
Lemma Accessor_values_get acc v :
  NoDup (Accessor.keys acc) -> v ∈ Accessor.values acc ->
  exists k, Accessor.get acc k = Some v.
Proof.
  unfold Accessor.keys, Accessor.values.
  induction acc as [|[k0 v0] acc IH]; intros Hnd Hv.
  - inversion Hv.
  - rewrite fmap_cons in Hnd. rewrite fmap_cons in Hv. cbn [fst snd] in *.
    apply NoDup_cons in Hnd as [Hk0 Hnd].
    apply elem_of_cons in Hv as [->|Hv].
    + exists k0. cbn [Accessor.get]. destruct (decide (k0 = k0)); congruence.
    + destruct (IH Hnd Hv) as [k Hk]. exists k. cbn [Accessor.get].
      destruct (decide (k0 = k)) as [->|]; [|exact Hk].
      rewrite Accessor_get_None in Hk; [discriminate | exact Hk0].
Qed.

Lemma Accessor_keys_set_NoDup acc k v :
  NoDup (Accessor.keys acc) -> NoDup (Accessor.keys (Accessor.set acc k v)).
Proof.
  intros Hnd. rewrite Accessor_keys_set.
  destruct (decide (k ∈ Accessor.keys acc)); [exact Hnd|].
  apply NoDup_app. split; [exact Hnd|]. split.
  - intros x Hx Hx'. apply list_elem_of_singleton in Hx'. congruence.
  - apply NoDup_singleton.
Qed.

End AccessorFacts.

(** ** The table built from a traversal *)

Section TableFacts.
Context {rt : Runtime}.
Implicit Types (hs : list Z) (acc : Accessor.t Z).

Lemma table_get_from hs acc n :
  Accessor.get (foldl table_step acc hs) n =
  match last (filter (fun h => Class_type_name h = n) hs) with
  | Some h => Some h
  | None => Accessor.get acc n
  end.
Proof.
  revert acc. induction hs as [|h hs IH]; intros acc; [reflexivity|].
  cbn [foldl]. rewrite IH, filter_cons, Accessor_get_set.
  destruct (decide (Class_type_name h = n)) as [Heq|Hne].
  - rewrite last_cons. destruct (last _); reflexivity.
  - reflexivity.
Qed.

Lemma table_keys_from hs acc :
  Accessor.keys (foldl table_step acc hs) =
  Accessor.keys acc
  ++ filter (fun k => k ∉ Accessor.keys acc) (first_occurrences (Class_type_name <$> hs)).
Proof.
  revert acc. induction hs as [|h hs IH]; intros acc.
  - cbn. by rewrite app_nil_r.
  - cbn [foldl]. rewrite IH, Accessor_keys_set, fmap_cons. cbn [first_occurrences].
    set (x := Class_type_name h). set (fo := first_occurrences _).
    destruct (decide (x ∈ Accessor.keys acc)) as [Hin|Hnin].
    + rewrite filter_cons_False by (intros Hn; exact (Hn Hin)).
      f_equal. rewrite list_filter_filter. apply list_filter_iff.
      intros y. split; [|tauto]. intros Hy. split; [exact Hy|congruence].
    + rewrite filter_cons_True by exact Hnin.
      rewrite <- app_assoc. cbn [app]. do 2 f_equal.
      rewrite list_filter_filter. apply list_filter_iff.
      intros y. rewrite elem_of_app, list_elem_of_singleton. tauto.
Qed.

Lemma table_keys_NoDup hs acc :
  NoDup (Accessor.keys acc) -> NoDup (Accessor.keys (foldl table_step acc hs)).
Proof.
  revert acc. induction hs as [|h hs IH]; intros acc Hnd; [exact Hnd|].
  cbn [foldl]. apply IH, Accessor_keys_set_NoDup, Hnd.
Qed.

Lemma table_values_from hs acc :
  NoDup (Accessor.keys acc ++ (Class_type_name <$> hs)) ->
  Accessor.values (foldl table_step acc hs) = Accessor.values acc ++ hs.
Proof.
  revert acc. induction hs as [|h hs IH]; intros acc Hnd.
  - cbn. by rewrite app_nil_r.
  - rewrite fmap_cons in Hnd. cbn [foldl].
    assert (Hfresh : Class_type_name h ∉ Accessor.keys acc).
    { apply NoDup_app in Hnd as (_ & Hdisj & _). intros Hin.
      apply (Hdisj _ Hin). left. }
    rewrite IH.
    + rewrite Accessor_values_set_fresh by exact Hfresh. by rewrite <- app_assoc.
    + rewrite Accessor_keys_set. destruct (decide _) as [|_]; [contradiction|].
      rewrite <- app_assoc. exact Hnd.
Qed.

(** With pairwise distinct names the table iterates over the handles as they
    were traversed. *)
Lemma table_of_values hs :
  NoDup (Class_type_name <$> hs) -> Accessor.values (table_of hs) = hs.
Proof. intros Hnd. unfold table_of. by rewrite table_values_from. Qed.

Lemma table_of_get hs n :
  Accessor.get (table_of hs) n = last (filter (fun h => Class_type_name h = n) hs).
Proof.
  unfold table_of. rewrite table_get_from. by destruct (last _).
Qed.

Lemma table_of_keys hs :
  Accessor.keys (table_of hs) = first_occurrences (Class_type_name <$> hs).
Proof.
  unfold table_of. rewrite table_keys_from. cbn [Accessor.keys Accessor.empty fmap list_fmap app].
  induction (first_occurrences _) as [|k l IH]; [reflexivity|].
  rewrite filter_cons_True by (intros Hin; inversion Hin). by rewrite IH.
Qed.

(** A handle that is followed by a class of the same name, and that does not
    come back later, is not among the values of the table. *)
Lemma table_of_shadowed l1 h l2 h' :
  h' ∈ l2 -> Class_type_name h' = Class_type_name h -> h ∉ l2 ->
  h ∉ Accessor.values (table_of (l1 ++ h :: l2)).
Proof.
  intros Hin Hname Hnot Hv.
  apply Accessor_values_get in Hv as [k Hk].
  2:{ apply table_keys_NoDup, NoDup_nil_2. }
  rewrite table_of_get in Hk.
  assert (Hk' : Class_type_name h = k).
  { apply last_Some_elem_of, list_elem_of_filter in Hk. tauto. }
  subst k. rewrite filter_app, filter_cons_True in Hk by reflexivity.
  rewrite last_app, last_cons in Hk.
  assert (Hne : filter (fun x => Class_type_name x = Class_type_name h) l2 ≠ []).
  { intros Hnil. assert (Hx : h' ∈ filter (fun x => Class_type_name x = Class_type_name h) l2)
      by (apply list_elem_of_filter; tauto).
    rewrite Hnil in Hx. inversion Hx. }
  apply last_is_Some in Hne as [y Hy]. rewrite Hy in Hk.
  injection Hk as ->. apply last_Some_elem_of, list_elem_of_filter in Hy. tauto.
Qed.

End TableFacts.

(** ** 32-bit stores and loads *)

Section MemoryFacts.
Implicit Types (m : gmap Z Z) (p v : Z).

Lemma byte_at_store32_inside m p v k :
  0 <= k < 4 -> Memory.byte_at (Memory.store32 m p v) (p + k) = Memory.byte_of v k.
Proof.
  intros Hk. unfold Memory.byte_at, Memory.store32.
  assert (k = 0 \/ k = 1 \/ k = 2 \/ k = 3) as [-> | [-> | [-> | ->]]] by lia.
  - rewrite !lookup_insert_ne by lia. replace (p + 0) with p by lia.
    by rewrite lookup_insert_eq.
  - rewrite !lookup_insert_ne by lia. by rewrite lookup_insert_eq.
  - rewrite lookup_insert_ne by lia. by rewrite lookup_insert_eq.
  - by rewrite lookup_insert_eq.
Qed.

Lemma byte_at_store32_outside m p v a :
  a < p \/ p + 3 < a -> Memory.byte_at (Memory.store32 m p v) a = Memory.byte_at m a.
Proof.
  intros Ha. unfold Memory.byte_at, Memory.store32.
  by rewrite !lookup_insert_ne by lia.
Qed.

Lemma int32_bytes v :
  Memory.byte_of v 0 + 256 * Memory.byte_of v 1
  + 65536 * Memory.byte_of v 2 + 16777216 * Memory.byte_of v 3 = v mod 2 ^ 32.
Proof.
  unfold Memory.byte_of.
  change (256 ^ 0) with 1. change (256 ^ 1) with 256.
  change (256 ^ 2) with 65536. change (256 ^ 3) with 16777216.
  change (2 ^ 32) with 4294967296.
  Z.to_euclidean_division_equations. lia.
Qed.

Lemma to_int32_mod v : Memory.to_int32 (v mod 2 ^ 32) = Memory.to_int32 v.
Proof. unfold Memory.to_int32. by rewrite Z.mod_mod. Qed.

Lemma to_int32_small v : - 2 ^ 31 <= v < 2 ^ 31 -> Memory.to_int32 v = v.
Proof.
  intros Hv. unfold Memory.to_int32.
  change (2 ^ 32) with 4294967296 in *. change (2 ^ 31) with 2147483648 in *.
  destruct (Z.ltb_spec (v mod 4294967296) 2147483648);
    Z.to_euclidean_division_equations; lia.
Qed.

(** Reading back what was just stored gives the stored number as a signed
    32-bit integer. *)
Lemma load32_store32 m p v : Memory.load32 (Memory.store32 m p v) p = Memory.to_int32 v.
Proof.
  unfold Memory.load32.
  rewrite <- (Z.add_0_r p) at 2.
  rewrite !byte_at_store32_inside by lia.
  by rewrite int32_bytes, to_int32_mod.
Qed.

(** A store does not change what a load of a disjoint word gives. *)
Lemma load32_store32_disjoint m p v q :
  q + 3 < p \/ p + 3 < q -> Memory.load32 (Memory.store32 m p v) q = Memory.load32 m q.
Proof.
  intros Hq. unfold Memory.load32.
  by rewrite !byte_at_store32_outside by lia.
Qed.

End MemoryFacts.

(** ** Sessions, caches and what computations denote *)

Lemma add_events_nil s : add_events [] s = s.
Proof. destruct s. unfold add_events. cbn. by rewrite app_nil_r. Qed.

Lemma add_events_app evs1 evs2 s :
  add_events evs2 (add_events evs1 s) = add_events (evs1 ++ evs2) s.
Proof. unfold add_events. cbn. by rewrite app_assoc. Qed.

Lemma with_heap_add_events m next evs s :
  with_heap m next (add_events evs s) = add_events evs (with_heap m next s).
Proof. reflexivity. Qed.

Lemma with_heap_with_heap m1 n1 m2 n2 s :
  with_heap m2 n2 (with_heap m1 n1 s) = with_heap m2 n2 s.
Proof. reflexivity. Qed.

Section Coherence.
Context {rt : Runtime}.

(** Coherence only looks at the caches. *)
Lemma coherent_same_caches s s' :
  classCount_cache s' = classCount_cache s ->
  classStart_cache s' = classStart_cache s ->
  classes_cache s' = classes_cache s ->
  name_cache s' = name_cache s ->
  image_cache s' = image_cache s ->
  assembly_name_cache s' = assembly_name_cache s ->
  coherent s -> coherent s'.
Proof.
  intros H1 H2 H3 H4 H5 H6 [C1 C2 C3 C4 C5 C6].
  split; [rewrite H1|rewrite H2|rewrite H3|rewrite H4|rewrite H5|rewrite H6]; assumption.
Qed.

Lemma coherent_add_events evs s : coherent s -> coherent (add_events evs s).
Proof. by apply coherent_same_caches. Qed.

Lemma coherent_with_heap m next s : coherent s -> coherent (with_heap m next s).
Proof. by apply coherent_same_caches. Qed.

Lemma coherent_init : coherent Session_init.
Proof. split; cbn; intros h v Hv; by rewrite lookup_empty in Hv. Qed.

Lemma coherent_fill_classCount this s :
  coherent s -> coherent (fill classCount_slot this (Api_imageGetClassCount this) s).
Proof.
  intros [C1 C2 C3 C4 C5 C6]. split; cbn; try assumption.
  intros h v. rewrite lookup_insert. case_decide; [congruence | apply C1].
Qed.

Lemma coherent_fill_classStart this s :
  coherent s -> coherent (fill classStart_slot this (Api_imageGetClassStart this) s).
Proof.
  intros [C1 C2 C3 C4 C5 C6]. split; cbn; try assumption.
  intros h v. rewrite lookup_insert. case_decide; [congruence | apply C2].
Qed.

Lemma coherent_fill_classes this acc s :
  classes_of this = Ok acc -> coherent s -> coherent (fill classes_slot this acc s).
Proof.
  intros Hacc [C1 C2 C3 C4 C5 C6]. split; cbn; try assumption.
  intros h v. rewrite lookup_insert. case_decide; [congruence | apply C3].
Qed.

Lemma coherent_fill_name this s :
  coherent s -> coherent (fill name_slot this (Api_imageGetName this) s).
Proof.
  intros [C1 C2 C3 C4 C5 C6]. split; cbn; try assumption.
  intros h v. rewrite lookup_insert. case_decide; [congruence | apply C4].
Qed.

Lemma coherent_fill_image this img s :
  image_of this = Ok img -> coherent s -> coherent (fill image_slot this img s).
Proof.
  intros Himg [C1 C2 C3 C4 C5 C6]. split; cbn; try assumption.
  intros h v. rewrite lookup_insert. case_decide; [congruence | apply C5].
Qed.

Lemma coherent_fill_assembly_name this n s :
  assembly_name_of this = Ok n -> coherent s ->
  coherent (fill assembly_name_slot this n s).
Proof.
  intros Hn [C1 C2 C3 C4 C5 C6]. split; cbn; try assumption.
  intros h v. rewrite lookup_insert. case_decide; [congruence | apply C6].
Qed.

Lemma denotes_ret {A} (a : A) : denotes (ret a) (Ok a).
Proof. intros s Hs. by exists s. Qed.

Lemma denotes_bind {A B} (m : M Session A) (f : A -> M Session B) a d :
  denotes m (Ok a) -> denotes (f a) d -> denotes (let* x := m in f x) d.
Proof.
  intros Hm Hf s Hs. destruct (Hm s Hs) as (s1 & E1 & Hs1).
  destruct (Hf s1 Hs1) as (s2 & E2 & Hs2).
  exists s2. unfold bind. by rewrite E1.
Qed.

Lemma denotes_bind_Err {A B} (m : M Session A) (f : A -> M Session B) e :
  denotes m (Err e) -> denotes (let* x := m in f x) (Err e).
Proof.
  intros Hm s Hs. destruct (Hm s Hs) as (s1 & E1 & Hs1).
  exists s1. unfold bind. by rewrite E1.
Qed.

Lemma denotes_of_result {A} (r : result A) : denotes (of_result r) r.
Proof. intros s Hs. by exists s. Qed.

Lemma denotes_log e : denotes (log e) (Ok ()).
Proof. intros s Hs. eexists. split; [reflexivity|]. by apply coherent_add_events. Qed.

(** A cached getter returns the value its body denotes, provided the slot is
    coherent with that value. *)
Lemma denotes_cached {A} (slot : Slot A) this (compute : M Session A) v :
  (forall s v', coherent s -> view slot s !! this = Some v' -> v' = v) ->
  (forall s, coherent s -> coherent (fill slot this v s)) ->
  denotes compute (Ok v) -> denotes (cached slot this compute) (Ok v).
Proof.
  intros Hview Hfill Hc s Hs. unfold cached.
  destruct (view slot s !! this) as [v'|] eqn:E.
  - rewrite (Hview s v' Hs E). by exists s.
  - destruct (Hc s Hs) as (s1 & E1 & Hs1). rewrite E1.
    eexists. split; [reflexivity|]. by apply Hfill.
Qed.

Lemma denotes_foldM {A B} (f : B -> A -> M Session B) (g : B -> A -> result B) l b v :
  (forall b a v, g b a = Ok v -> denotes (f b a) (Ok v)) ->
  foldR g l b = Ok v -> denotes (foldM f l b) (Ok v).
Proof.
  intros Hfg. revert b. induction l as [|a l IH]; intros b Hv; cbn in *.
  - injection Hv as <-. apply denotes_ret.
  - destruct (g b a) as [b'|] eqn:E; [|discriminate].
    eapply denotes_bind; [by apply Hfg | by apply IH].
Qed.

End Coherence.

(** ** The getters of an image *)

Section ImageFacts.
Context {rt : Runtime}.

Lemma classCount_run this s :
  coherent s ->
  exists s', Il2CppImage.classCount this s = (s', Ok (Api_imageGetClassCount this))
    /\ coherent s' /\ trace s' = trace s ++ classCount_reads s this
    /\ heap s' = heap s /\ heap_next s' = heap_next s
    /\ classes_cache s' = classes_cache s.
Proof.
  intros Hs. unfold Il2CppImage.classCount, cached, classCount_reads.
  cbn [view classCount_slot].
  destruct (classCount_cache s !! this) as [v|] eqn:E.
  - rewrite (coherent_classCount s Hs _ _ E). exists s.
    rewrite app_nil_r. tauto.
  - eexists. split; [reflexivity|]. split; [|by cbn].
    by apply coherent_fill_classCount, coherent_add_events.
Qed.

Lemma classStart_run this s :
  coherent s ->
  exists s', Il2CppImage.classStart this s = (s', Ok (Api_imageGetClassStart this))
    /\ coherent s' /\ trace s' = trace s ++ classStart_reads s this
    /\ heap s' = heap s /\ heap_next s' = heap_next s
    /\ classes_cache s' = classes_cache s
    /\ classCount_cache s' = classCount_cache s.
Proof.
  intros Hs. unfold Il2CppImage.classStart, cached, classStart_reads.
  cbn [view classStart_slot].
  destruct (classStart_cache s !! this) as [v|] eqn:E.
  - rewrite (coherent_classStart s Hs _ _ E). exists s.
    rewrite app_nil_r. tauto.
  - eexists. split; [reflexivity|]. split; [|by cbn].
    by apply coherent_fill_classStart, coherent_add_events.
Qed.

(** The loop of the current layout: one request per index, in order. *)
Lemma current_loop this l acc s :
  Forall (fun i => Api_imageGetClass this i ≠ 0) l ->
  foldM (fun accessor i =>
           let* handle := Il2CppImage.Api_imageGetClass_call this i in
           let* klass := Il2CppImage.new_Il2CppClass handle in
           ret (Accessor.set accessor (Class_type_name klass) klass)) l acc s
  = (add_events (Call_imageGetClass this <$> l) s,
     Ok (foldl table_step acc (Api_imageGetClass this <$> l))).
Proof.
  intros Hl. revert acc s. induction Hl as [|i l Hi Hl IH]; intros acc s.
  - cbn. by rewrite add_events_nil.
  - cbn [foldM]. unfold bind at 1.
    unfold Il2CppImage.Api_imageGetClass_call, Il2CppImage.new_Il2CppClass,
      NativeStruct.nonNullHandle, bind, log, ret, throw.
    rewrite bool_decide_eq_false_2 by exact Hi.
    rewrite IH, add_events_app. reflexivity.
Qed.

(** The loop of the legacy layout: each index is stored in the descriptor,
    then the VM is asked to resolve the descriptor. *)
Lemma legacy_loop p l acc s :
  Forall (fun i => Api_typeGetClassOrElementClass (Memory.to_int32 i) ≠ 0) l ->
  foldM (fun accessor i =>
           let* type := Memory.writeInt p i in
           let* handle := Il2CppImage.Api_typeGetClassOrElementClass_call type in
           let* klass := Il2CppImage.new_Il2CppClass handle in
           ret (Accessor.set accessor (Class_type_name klass) klass)) l acc s
  = (add_events (legacy_calls p Il2CppType_offsetOfTypeEnum (heap s) l)
       (with_heap (foldl (fun m i => Memory.store32 m p i) (heap s) l) (heap_next s) s),
     Ok (foldl table_step acc
           ((fun i => Api_typeGetClassOrElementClass (Memory.to_int32 i)) <$> l))).
Proof.
  intros Hl. revert acc s. induction Hl as [|i l Hi Hl IH]; intros acc s.
  - cbn. rewrite add_events_nil. by destruct s.
  - cbn [foldM]. unfold bind at 1.
    unfold Memory.writeInt, Il2CppImage.Api_typeGetClassOrElementClass_call,
      Il2CppImage.new_Il2CppClass, NativeStruct.nonNullHandle, bind, log, ret, throw.
    cbn [heap with_heap]. rewrite load32_store32.
    rewrite bool_decide_eq_false_2 by exact Hi.
    rewrite IH. cbn [heap heap_next add_events with_heap legacy_calls foldl fmap list_fmap].
    rewrite load32_store32. unfold add_events, with_heap. cbn.
    by rewrite <- app_assoc.
Qed.

Lemma legacy_calls_plain p off m l :
  4 <= off -> Memory.load32 m (p + off) = 32 ->
  legacy_calls p off m l
  = (fun i => Call_typeGetClassOrElementClass p (Memory.to_int32 i) 32) <$> l.
Proof.
  intros Hoff. revert m. induction l as [|i l IH]; intros m Hm; [reflexivity|].
  cbn [legacy_calls fmap list_fmap].
  rewrite load32_store32, load32_store32_disjoint by lia. rewrite Hm.
  f_equal. apply IH. rewrite load32_store32_disjoint by lia. exact Hm.
Qed.

End ImageFacts.

Section ClassesFacts.
Context {rt : Runtime}.

(** [classes] on an image without null class handles: the table of the
    traversal, kept in the cache; a first access adds [classes_trace]. *)
Lemma classes_run this s :
  coherent s ->
  Forall (fun h => h ≠ 0) (class_handles this) ->
  exists s',
    Il2CppImage.classes this s = (s', Ok (table_of (class_handles this)))
    /\ coherent s'
    /\ classes_cache s' !! this = Some (table_of (class_handles this))
    /\ (classes_cache s !! this = None -> trace s' = trace s ++ classes_trace s this)
    /\ (is_Some (classes_cache s !! this) -> s' = s).
Proof.
  intros Hs Hnz.
  assert (Hof : classes_of this = Ok (table_of (class_handles this))).
  { unfold classes_of. by rewrite bool_decide_eq_true_2. }
  unfold Il2CppImage.classes, cached. cbn [view classes_slot].
  destruct (classes_cache s !! this) as [v|] eqn:E.
  { pose proof (coherent_classes s Hs _ _ E) as Hv. rewrite Hof in Hv.
    injection Hv as <-. exists s. split; [reflexivity|]. split; [exact Hs|].
    split; [exact E|]. split; [intros; discriminate | reflexivity]. }
  unfold class_handles, classes_trace in *.
  destruct unityVersion_isLegacy.
  - unfold bind at 1.
    destruct (classStart_run this s Hs) as (s1 & E1 & Hs1 & T1 & M1 & N1 & K1 & C1).
    rewrite E1. unfold bind at 1.
    destruct (classCount_run this s1 Hs1) as (s2 & E2 & Hs2 & T2 & M2 & N2 & K2).
    rewrite E2. unfold bind at 1. unfold Memory.alloc at 1.
    unfold bind at 1. unfold Memory.writeInt at 1.
    replace (Api_imageGetClassStart this + Api_imageGetClassCount this
             - Api_imageGetClassStart this) with (Api_imageGetClassCount this) by lia.
    rewrite legacy_loop.
    2:{ rewrite Forall_fmap in Hnz. exact Hnz. }
    eexists. split; [reflexivity|].
    split.
    { apply coherent_fill_classes; [exact Hof|].
      by apply coherent_add_events, coherent_with_heap, coherent_with_heap,
        coherent_add_events, coherent_with_heap. }
    split; [cbn; by rewrite lookup_insert_eq|].
    split; [|intros [? ?]; discriminate].
    intros _. cbn. rewrite T2, T1, N2, N1, M2, M1.
    unfold classCount_reads. rewrite C1. by rewrite <- !app_assoc.
  - unfold bind at 1.
    destruct (classCount_run this s Hs) as (s1 & E1 & Hs1 & T1 & M1 & N1 & K1).
    rewrite E1. rewrite current_loop.
    2:{ rewrite Forall_fmap in Hnz. exact Hnz. }
    eexists. split; [reflexivity|].
    split.
    { apply coherent_fill_classes; [exact Hof|]. by apply coherent_add_events. }
    split; [cbn; by rewrite lookup_insert_eq|].
    split; [|intros [? ?]; discriminate].
    intros _. cbn. rewrite T1. by rewrite <- !app_assoc.
Qed.

Lemma classes_denotes this acc :
  classes_of this = Ok acc -> denotes (Il2CppImage.classes this) (Ok acc).
Proof.
  unfold classes_of. case_bool_decide as Hnz; [|discriminate].
  intros [= <-] s Hs.
  destruct (classes_run this s Hs Hnz) as (s' & E & Hs' & _).
  by exists s'.
Qed.

End ClassesFacts.

(** ** Assemblies, the domain and the host application *)

Section AssemblyFacts.
Context {rt : Runtime}.

Lemma image_denotes this img :
  image_of this = Ok img -> denotes (Il2CppAssembly.image this) (Ok img).
Proof.
  intros Himg. unfold Il2CppAssembly.image. apply denotes_cached.
  - intros s v' Hs Hv. pose proof (coherent_image s Hs _ _ Hv). congruence.
  - intros s. by apply coherent_fill_image.
  - unfold image_of in Himg. case_bool_decide as Hz; [discriminate|].
    injection Himg as <-.
    eapply denotes_bind.
    + unfold Il2CppAssembly.Api_assemblyGetImage_call.
      eapply denotes_bind; [apply denotes_log | apply denotes_ret].
    + unfold Il2CppAssembly.new_Il2CppImage, NativeStruct.nonNullHandle.
      rewrite bool_decide_eq_false_2 by exact Hz. apply denotes_ret.
Qed.

Lemma image_name_denotes this :
  denotes (Il2CppImage.name this) (Ok (Api_imageGetName this)).
Proof.
  unfold Il2CppImage.name. apply denotes_cached.
  - intros s v' Hs Hv. exact (coherent_name s Hs _ _ Hv).
  - intros s. apply coherent_fill_name.
  - unfold Il2CppImage.Api_imageGetName_call.
    eapply denotes_bind; [apply denotes_log | apply denotes_ret].
Qed.

Lemma assembly_name_denotes this n :
  assembly_name_of this = Ok n -> denotes (Il2CppAssembly.name this) (Ok n).
Proof.
  intros Hn. unfold Il2CppAssembly.name. apply denotes_cached.
  - intros s v' Hs Hv. pose proof (coherent_assembly_name s Hs _ _ Hv). congruence.
  - intros s. by apply coherent_fill_assembly_name.
  - unfold assembly_name_of in Hn.
    destruct (image_of this) as [img|] eqn:Himg; [|discriminate]. cbn in Hn.
    eapply denotes_bind; [by apply image_denotes|].
    eapply denotes_bind; [apply image_name_denotes|].
    destruct (Api_imageGetName img); [|discriminate].
    injection Hn as <-. apply denotes_ret.
Qed.

Lemma assemblies_denotes acc :
  assemblies_of = Ok acc -> denotes Il2CppDomain.assemblies (Ok acc).
Proof.
  intros Hacc. unfold Il2CppDomain.assemblies.
  eapply denotes_foldM; [|exact Hacc].
  intros b a v Hv. cbn in Hv.
  destruct (assembly_name_of a) as [n|] eqn:Hn; [|discriminate].
  injection Hv as <-.
  eapply denotes_bind; [by apply assembly_name_denotes | apply denotes_ret].
Qed.

Lemma member_denotes {A} (x : option A) : denotes (Il2CppDumper.member x) (member_of x).
Proof. destruct x; [apply denotes_ret | intros s Hs; by exists s]. Qed.

Lemma Application_denotes app :
  Application_of = Ok app -> denotes Il2CppDumper.Application (Ok app).
Proof.
  unfold Application_of, Il2CppDumper.Application. intros Happ.
  destruct assemblies_of as [assemblies|] eqn:E1; [|discriminate]. cbn in Happ.
  destruct (member_of _) as [assembly|] eqn:E2; [|discriminate]. cbn in Happ.
  destruct (image_of assembly) as [UnityEngine|] eqn:E3; [|discriminate]. cbn in Happ.
  destruct (classes_of UnityEngine) as [classes|] eqn:E4; [|discriminate]. cbn in Happ.
  injection Happ as <-.
  eapply denotes_bind; [by apply assemblies_denotes|].
  eapply denotes_bind; [rewrite <- E2; apply member_denotes|].
  eapply denotes_bind; [by apply image_denotes|].
  eapply denotes_bind; [by apply classes_denotes|].
  apply denotes_ret.
Qed.

Lemma defaultDirectoryPath_denotes path :
  persistentDataPath_of = Ok path -> denotes Il2CppDumper.defaultDirectoryPath (Ok path).
Proof.
  unfold persistentDataPath_of, Il2CppDumper.defaultDirectoryPath. intros Hp.
  destruct Application_of as [app|] eqn:E1; [|discriminate]. cbn in Hp.
  destruct (member_of app) as [Application|] eqn:E2; [|discriminate]. cbn in Hp.
  destruct (member_of (Accessor.get _ _)) as [getter|] eqn:E3; [|discriminate].
  cbn in Hp.
  destruct (Method_invoke getter) as [str|] eqn:E4; [|discriminate].
  injection Hp as <-.
  eapply denotes_bind; [by apply Application_denotes|].
  eapply denotes_bind; [rewrite <- E2; apply member_denotes|].
  eapply denotes_bind; [rewrite <- E3; apply member_denotes|].
  eapply denotes_bind; [rewrite <- E4; apply denotes_of_result|].
  apply denotes_ret.
Qed.

(** The default file name is the base name of the spec: the guarded block
    computes it, or its handler puts the timestamp in its place. *)
Lemma defaultFileName_denotes app :
  Application_of = Ok app ->
  denotes Il2CppDumper.defaultFileName (Ok (default_base_name app)).
Proof.
  intros Happ. unfold Il2CppDumper.defaultFileName.
  eapply denotes_bind; [by apply Application_denotes|].
  intros s Hs. exists s. split; [|exact Hs].
  unfold default_base_name, try_catch, bind, Il2CppDumper.member, of_result, ret, throw.
  destruct app as [Application|]; [|reflexivity].
  destruct (getUntilFound _ _) as [getter|]; [|reflexivity].
  destruct (Method_invoke getter) as [identifier|].
  - destruct (Accessor.get _ _) as [get_version|]; [|reflexivity].
    by destruct (Method_invoke get_version).
  - by destruct (Accessor.get _ _).
Qed.

End AssemblyFacts.

(** ** Generators and the file they are written to *)

Lemma string_app_assoc (a b c : string) : (a +:+ b) +:+ c = a +:+ b +:+ c.
Proof.
  induction a as [|x a IH]; [reflexivity|].
  change (String x ((a +:+ b) +:+ c) = String x (a +:+ b +:+ c)). by rewrite IH.
Qed.

Lemma string_app_nil_r (a : string) : a +:+ "" = a.
Proof.
  induction a as [|x a IH]; [reflexivity|].
  change (String x (a +:+ "") = String x a). by rewrite IH.
Qed.

Lemma collect_seq g1 g2 s :
  collect (gen_seq g1 g2) s =
  match collect g1 s with
  | (s1, chunks1, Ok _) =>
      match collect g2 s1 with
      | (s2, chunks2, r) => (s2, chunks1 ++ chunks2, r)
      end
  | (s1, chunks1, Err e) => (s1, chunks1, Err e)
  end.
Proof.
  revert s. induction g1 as [|chunk next IH|A m next IH]; intros s; cbn.
  - by destruct (collect g2 s) as [[s2 chunks2] r].
  - rewrite IH. destruct (collect next s) as [[s1 chunks1] [[]|e]]; [|reflexivity].
    by destruct (collect g2 s1) as [[s2 chunks2] r].
  - destruct (m s) as [s1 [a|e]]; [apply IH | reflexivity].
Qed.

Section FileFacts.
Context {rt : Runtime}.

(** Consuming a generator into an open file: the chunks of [collect] are
    appended to the pending data of the file, one write per chunk. *)
Lemma consume_into_file g s fs file path pending ops disk files1 :
  fs = {| File.disk := disk;
          File.files := files1 ++ [{| File.path := path; File.pending := pending;
                                      File.opened := true |}];
          File.operations := ops |} ->
  file = List.length files1 ->
  consume g (fun chunk => liftR (File.write file chunk)) (s, fs) =
  match collect g s with
  | (s', chunks, r) =>
      ((s', {| File.disk := disk;
               File.files := files1 ++ [{| File.path := path;
                                           File.pending := pending +:+ joined chunks;
                                           File.opened := true |}];
               File.operations := ops ++ (File.Written file <$> chunks) |}), r)
  end.
Proof.
  intros -> ->. revert s pending ops.
  induction g as [|chunk next IH|A m next IH]; intros s pending ops.
  - cbn. by rewrite string_app_nil_r, app_nil_r.
  - cbn [consume collect]. unfold bind at 1. unfold liftR at 1, File.write at 1.
    cbn [snd fst File.files]. rewrite list_lookup_middle by reflexivity.
    cbn [File.opened File.path File.pending File.disk File.operations].
    replace (<[_:=_]> (files1 ++ _)) with
      (files1 ++ [{| File.path := path; File.pending := pending +:+ chunk;
                     File.opened := true |}]).
    2:{ rewrite <- (Nat.add_0_r (List.length files1)) at 1.
        by rewrite insert_app_r. }
    rewrite IH. destruct (collect next s) as [[s' chunks] r].
    cbn [joined foldr fmap list_fmap]. rewrite string_app_assoc.
    by rewrite <- app_assoc.
  - cbn [consume collect]. unfold bind at 1, liftL at 1. cbn [fst snd].
    destruct (m s) as [s1 [a|e]].
    + apply IH.
    + cbn. by rewrite string_app_nil_r, app_nil_r.
Qed.

(** [build] once the destination path is known. *)
Lemma build_at_run this destinationPath s fs :
  build_at this destinationPath (s, fs) = build_outcome this destinationPath s fs.
Proof.
  unfold build_outcome, build_at. unfold bind at 1. unfold liftR at 1, File.new at 1. cbn [fst snd].
  destruct (File_openable destinationPath); [|by destruct fs].
  destruct (Il2CppDumper.generator_ this) as [g|].
  2:{ unfold bind, throw, dumped. reflexivity. }
  unfold bind at 1, ret at 1. unfold bind at 1.
  erewrite consume_into_file by reflexivity.
  destruct (collect g s) as [[s' chunks] [[]|e]].
  - unfold bind, liftR, liftL, File.flush, File.close, Il2CppDumper.ok, log.
    cbn [fst snd File.files]. rewrite list_lookup_middle by reflexivity.
    cbn [File.opened File.path File.pending File.disk File.operations File.files].
    replace (<[List.length (File.files fs):=_]> (File.files fs ++ _)) with
      (File.files fs ++ [{| File.path := destinationPath; File.pending := "";
                            File.opened := true |}]).
    2:{ rewrite <- (Nat.add_0_r (List.length (File.files fs))) at 1.
        by rewrite insert_app_r. }
    cbn [fst snd File.files]. rewrite list_lookup_middle by reflexivity.
    cbn [File.opened File.path File.pending File.disk File.operations File.files].
    unfold dumped. cbn [negb fst snd]. f_equal. f_equal. f_equal.
    + rewrite !lookup_insert_eq. cbn [default from_option id].
      change ("" +:+ "" +:+ joined chunks) with (joined chunks).
      rewrite string_app_nil_r. by rewrite !insert_insert_eq.
    + rewrite <- (Nat.add_0_r (List.length (File.files fs))) at 1.
      by rewrite insert_app_r.
    + rewrite <- !app_assoc. reflexivity.
  - unfold dumped. cbn [negb]. do 2 f_equal.
    rewrite app_nil_r, <- app_assoc. reflexivity.
Qed.

End FileFacts.

(** ** Generators that only add events *)

Section GeneratorFacts.
Context {rt : Runtime}.

Lemma appends_Done : appends Done [].
Proof. intros s. exists []. cbn. by rewrite add_events_nil. Qed.

Lemma appends_Yield chunk next chunks :
  appends next chunks -> appends (Yield chunk next) (chunk :: chunks).
Proof. intros Hn s. destruct (Hn s) as [evs E]. exists evs. cbn. by rewrite E. Qed.

Lemma appends_Step {A} (m : M Session A) next a chunks :
  (forall s, exists evs, m s = (add_events evs s, Ok a)) ->
  appends (next a) chunks -> appends (Step m next) chunks.
Proof.
  intros Hm Hn s. destruct (Hm s) as [evs1 E1].
  destruct (Hn (add_events evs1 s)) as [evs2 E2].
  exists (evs1 ++ evs2). cbn. by rewrite E1, E2, add_events_app.
Qed.

Lemma appends_seq g1 g2 chunks1 chunks2 :
  appends g1 chunks1 -> appends g2 chunks2 -> appends (gen_seq g1 g2) (chunks1 ++ chunks2).
Proof.
  intros H1 H2 s. destruct (H1 s) as [evs1 E1].
  destruct (H2 (add_events evs1 s)) as [evs2 E2].
  exists (evs1 ++ evs2). by rewrite collect_seq, E1, E2, add_events_app.
Qed.

Lemma appends_for {A} (l : list A) body (f : A -> list string) :
  (forall a, a ∈ l -> appends (body a) (f a)) ->
  appends (gen_for l body) (List.concat (f <$> l)).
Proof.
  induction l as [|a l IH]; intros Hb.
  - apply appends_Done.
  - cbn. apply appends_seq.
    + apply Hb. left.
    + apply IH. intros a' Ha'. apply Hb. by right.
Qed.

Lemma appends_produces g chunks : appends g chunks -> produces g chunks.
Proof.
  intros Ha s Hs. destruct (Ha s) as [evs E]. eexists. split; [exact E|].
  by apply coherent_add_events.
Qed.

Lemma produces_Step {A} (m : M Session A) next a chunks :
  denotes m (Ok a) -> produces (next a) chunks -> produces (Step m next) chunks.
Proof.
  intros Hm Hn s Hs. destruct (Hm s Hs) as (s1 & E1 & Hs1).
  destruct (Hn s1 Hs1) as (s2 & E2 & Hs2). exists s2. cbn. by rewrite E1.
Qed.

Lemma produces_seq g1 g2 chunks1 chunks2 :
  produces g1 chunks1 -> produces g2 chunks2 ->
  produces (gen_seq g1 g2) (chunks1 ++ chunks2).
Proof.
  intros H1 H2 s Hs. destruct (H1 s Hs) as (s1 & E1 & Hs1).
  destruct (H2 s1 Hs1) as (s2 & E2 & Hs2).
  exists s2. by rewrite collect_seq, E1, E2.
Qed.

Lemma produces_for {A} (l : list A) body (f : A -> list string) :
  (forall a, a ∈ l -> produces (body a) (f a)) ->
  produces (gen_for l body) (List.concat (f <$> l)).
Proof.
  induction l as [|a l IH]; intros Hb.
  - intros s Hs. by exists s.
  - cbn. apply produces_seq.
    + apply Hb. left.
    + apply IH. intros a' Ha'. apply Hb. by right.
Qed.

Variable SystemType : option Z.
Variable SystemObject : Z.

Lemma getTypeArray_run k s :
  valid_length k ->
  Il2CppDumper.getTypeArray SystemType SystemObject k s
  = (s, Ok (placeholder_types SystemType SystemObject k)).
Proof.
  intros Hk. unfold Il2CppDumper.getTypeArray, bind, of_result, Array_fill, ret.
  by rewrite bool_decide_eq_true_2.
Qed.

Lemma methods_of_method_appends klass method :
  (Method_isGeneric method = true -> Class_isGeneric klass = false ->
   valid_length (Method_genericParameterCount method)) ->
  appends (Il2CppDumper.methods_of_method SystemType SystemObject klass method)
          (method_lines SystemType SystemObject klass method).
Proof.
  intros Hk. unfold Il2CppDumper.methods_of_method, method_lines.
  apply appends_Step with (a := dumped_method SystemType SystemObject klass method).
  - intros s. unfold dumped_method.
    destruct (Method_isGeneric method) eqn:Eg, (Class_isGeneric klass) eqn:Ec; cbn [andb negb].
    + exists []. by rewrite add_events_nil.
    + eexists. unfold bind. rewrite getTypeArray_run by auto.
      unfold Il2CppDumper.Method_inflateRaw, bind, log, ret. reflexivity.
    + exists []. by rewrite add_events_nil.
    + exists []. by rewrite add_events_nil.
  - case_bool_decide; cbn [negb]; [apply appends_Done|].
    apply appends_Yield, appends_Done.
Qed.

Lemma methods_of_class_appends klass :
  dumpable SystemType SystemObject klass ->
  appends (Il2CppDumper.methods_of_class SystemType SystemObject klass)
          (class_lines SystemType SystemObject klass).
Proof.
  intros [Hk Hm]. unfold Il2CppDumper.methods_of_class, class_lines.
  apply appends_Step with (a := dumped_class SystemType SystemObject klass).
  - intros s. unfold dumped_class. destruct (Class_isGeneric klass) eqn:Eg.
    + eexists. unfold bind. rewrite getTypeArray_run by auto.
      unfold Il2CppDumper.Class_inflateRaw, bind, log, ret. reflexivity.
    + exists []. by rewrite add_events_nil.
  - apply appends_for. intros method Hin.
    apply methods_of_method_appends. intros. by apply Hm.
Qed.

Lemma classes_of_assembly_produces assembly image name acc :
  image_of assembly = Ok image -> assembly_name_of assembly = Ok name ->
  classes_of image = Ok acc ->
  produces (Il2CppDumper.classes_of_assembly assembly)
           (Class_toString <$> Accessor.values acc).
Proof.
  intros Hi Hn Hc. unfold Il2CppDumper.classes_of_assembly.
  eapply produces_Step.
  { eapply denotes_bind; [by apply assembly_name_denotes | apply denotes_log]. }
  eapply produces_Step.
  { eapply denotes_bind; [by apply image_denotes | by apply classes_denotes]. }
  replace (Class_toString <$> Accessor.values acc)
    with (List.concat ((fun k => [Class_toString k]) <$> Accessor.values acc)).
  2:{ induction (Accessor.values acc) as [|k l IH]; cbn; [reflexivity | by rewrite IH]. }
  apply produces_for. intros k _. apply appends_produces, appends_Yield, appends_Done.
Qed.

Lemma methods_of_assembly_produces assembly image name acc :
  image_of assembly = Ok image -> assembly_name_of assembly = Ok name ->
  classes_of image = Ok acc ->
  Forall (dumpable SystemType SystemObject) (Accessor.values acc) ->
  produces (Il2CppDumper.methods_of_assembly SystemType SystemObject assembly)
           (List.concat (class_lines SystemType SystemObject <$> Accessor.values acc)).
Proof.
  intros Hi Hn Hc Hd. unfold Il2CppDumper.methods_of_assembly.
  eapply produces_Step.
  { eapply denotes_bind; [by apply assembly_name_denotes | apply denotes_log]. }
  eapply produces_Step.
  { eapply denotes_bind; [by apply image_denotes | by apply classes_denotes]. }
  apply produces_for. intros k Hk.
  apply appends_produces, methods_of_class_appends.
  rewrite Forall_forall in Hd. by apply Hd.
Qed.

End GeneratorFacts.

(** ** Events of whole runs *)

Section EmitsFacts.
Variable P : event -> Prop.

Lemma emits_ret {A} (a : A) : emits P (ret a).
Proof. intros s. exists []. cbn. by rewrite app_nil_r. Qed.

Lemma emits_throw {A} e : emits P (throw (A := A) e).
Proof. intros s. exists []. cbn. by rewrite app_nil_r. Qed.

Lemma emits_of_result {A} (r : result A) : emits P (of_result r).
Proof. intros s. exists []. cbn. by rewrite app_nil_r. Qed.

Lemma emits_log e : P e -> emits P (log e).
Proof. intros He s. exists [e]. cbn. split; [reflexivity | by constructor]. Qed.

Lemma emits_bind {A B} (m : M Session A) (f : A -> M Session B) :
  emits P m -> (forall a, emits P (f a)) -> emits P (let* x := m in f x).
Proof.
  intros Hm Hf s. destruct (Hm s) as (evs1 & T1 & F1). unfold bind.
  destruct (m s) as [s1 [a|e]]; cbn [fst] in *.
  - destruct (Hf a s1) as (evs2 & T2 & F2). exists (evs1 ++ evs2).
    rewrite T2, T1, app_assoc. split; [reflexivity | by apply Forall_app].
  - by exists evs1.
Qed.

Lemma emits_foldM {A B} (f : B -> A -> M Session B) l b :
  (forall b a, emits P (f b a)) -> emits P (foldM f l b).
Proof.
  intros Hf. revert b. induction l as [|a l IH]; intros b; cbn.
  - apply emits_ret.
  - apply emits_bind; [apply Hf | intros b'; apply IH].
Qed.

(** The slots of the session do not touch the trace. *)
Lemma emits_cached {A} (slot : Slot A) this (compute : M Session A) :
  (forall v s, trace (fill slot this v s) = trace s) ->
  emits P compute -> emits P (cached slot this compute).
Proof.
  intros Hfill Hc s. unfold cached. destruct (view slot s !! this).
  - exists []. cbn. by rewrite app_nil_r.
  - destruct (Hc s) as (evs & T & F). exists evs.
    destruct (compute s) as [s1 [v|e]]; cbn [fst] in *; [|by split].
    by rewrite Hfill.
Qed.

Lemma emits_member {A} (x : option A) : emits P (Il2CppDumper.member x).
Proof. destruct x; [apply emits_ret | apply emits_throw]. Qed.

Lemma gen_emits_Done : gen_emits P Done.
Proof. intros s. exists []. cbn. by rewrite app_nil_r. Qed.

Lemma gen_emits_Yield chunk next : gen_emits P next -> gen_emits P (Yield chunk next).
Proof.
  intros Hn s. destruct (Hn s) as (evs & T & F). exists evs. cbn.
  by destruct (collect next s) as [[s' chunks] r].
Qed.

Lemma gen_emits_Step {A} (m : M Session A) next :
  emits P m -> (forall a, gen_emits P (next a)) -> gen_emits P (Step m next).
Proof.
  intros Hm Hn s. destruct (Hm s) as (evs1 & T1 & F1). cbn.
  destruct (m s) as [s1 [a|e]]; cbn [fst] in *.
  - destruct (Hn a s1) as (evs2 & T2 & F2). exists (evs1 ++ evs2).
    rewrite T2, T1, app_assoc. split; [reflexivity | by apply Forall_app].
  - by exists evs1.
Qed.

Lemma gen_emits_seq g1 g2 : gen_emits P g1 -> gen_emits P g2 -> gen_emits P (gen_seq g1 g2).
Proof.
  intros H1 H2 s. destruct (H1 s) as (evs1 & T1 & F1). rewrite collect_seq.
  destruct (collect g1 s) as [[s1 chunks1] [[]|e]]; cbn [fst] in *.
  - destruct (H2 s1) as (evs2 & T2 & F2). exists (evs1 ++ evs2).
    destruct (collect g2 s1) as [[s2 chunks2] r]. cbn [fst] in *.
    rewrite T2, T1, app_assoc. split; [reflexivity | by apply Forall_app].
  - by exists evs1.
Qed.

Lemma gen_emits_for {A} (l : list A) body :
  (forall a, gen_emits P (body a)) -> gen_emits P (gen_for l body).
Proof.
  intros Hb. induction l as [|a l IH]; cbn.
  - apply gen_emits_Done.
  - by apply gen_emits_seq.
Qed.

End EmitsFacts.

Section InflationFacts.
Context {rt : Runtime}.
Variable SystemType : option Z.
Variable SystemObject : Z.

Lemma classes_emits this : emits (placeholder_inflation SystemObject) (Il2CppImage.classes this).
Proof.
  unfold Il2CppImage.classes. apply emits_cached; [reflexivity|].
  destruct unityVersion_isLegacy.
  - apply emits_bind.
    { apply emits_cached; [reflexivity|].
      apply emits_bind; [by apply emits_log | intros; apply emits_ret]. }
    intros start. apply emits_bind.
    { apply emits_cached; [reflexivity|].
      apply emits_bind; [by apply emits_log | intros; apply emits_ret]. }
    intros count. apply emits_bind.
    { intros s. eexists [_]. cbn. split; [reflexivity | by constructor]. }
    intros p. apply emits_bind.
    { intros s. exists []. cbn. by rewrite app_nil_r. }
    intros _. apply emits_foldM. intros acc i. apply emits_bind.
    { intros s. exists []. cbn. by rewrite app_nil_r. }
    intros type. apply emits_bind.
    { intros s. eexists [_]. cbn. split; [reflexivity | by constructor]. }
    intros handle. apply emits_bind; [|intros; apply emits_ret].
    unfold Il2CppImage.new_Il2CppClass, NativeStruct.nonNullHandle.
    case_bool_decide; [apply emits_throw | apply emits_ret].
  - apply emits_bind.
    { apply emits_cached; [reflexivity|].
      apply emits_bind; [by apply emits_log | intros; apply emits_ret]. }
    intros count. apply emits_foldM. intros acc i. apply emits_bind.
    { apply emits_bind; [by apply emits_log | intros; apply emits_ret]. }
    intros handle. apply emits_bind; [|intros; apply emits_ret].
    unfold Il2CppImage.new_Il2CppClass, NativeStruct.nonNullHandle.
    case_bool_decide; [apply emits_throw | apply emits_ret].
Qed.

Lemma image_emits this : emits (placeholder_inflation SystemObject) (Il2CppAssembly.image this).
Proof.
  unfold Il2CppAssembly.image. apply emits_cached; [reflexivity|].
  apply emits_bind.
  { apply emits_bind; [by apply emits_log | intros; apply emits_ret]. }
  intros handle. unfold Il2CppAssembly.new_Il2CppImage, NativeStruct.nonNullHandle.
  case_bool_decide; [apply emits_throw | apply emits_ret].
Qed.

Lemma assembly_name_emits this : emits (placeholder_inflation SystemObject) (Il2CppAssembly.name this).
Proof.
  unfold Il2CppAssembly.name. apply emits_cached; [reflexivity|].
  apply emits_bind; [apply image_emits|]. intros image.
  apply emits_bind.
  { apply emits_cached; [reflexivity|].
    apply emits_bind; [by apply emits_log | intros; apply emits_ret]. }
  intros [n|]; [apply emits_ret | apply emits_throw].
Qed.

Lemma assemblies_emits : emits (placeholder_inflation SystemObject) Il2CppDomain.assemblies.
Proof.
  apply emits_foldM. intros acc a.
  apply emits_bind; [apply assembly_name_emits | intros; apply emits_ret].
Qed.

(** Whenever [getTypeArray] returns, it returns the placeholder list. *)
Lemma getTypeArray_inv k s s' types :
  Il2CppDumper.getTypeArray SystemType SystemObject k s = (s', Ok types) ->
  s' = s /\ valid_length k /\ types = placeholder_types SystemType SystemObject k.
Proof.
  unfold Il2CppDumper.getTypeArray, bind, of_result, Array_fill, ret.
  case_bool_decide as Hk; [|discriminate]. by intros [= <- <-].
Qed.

Lemma inflate_class_emits klass :
  emits (placeholder_inflation SystemObject) (let* types := Il2CppDumper.getTypeArray SystemType SystemObject
                           (Class_genericParameterCount klass) in
           Il2CppDumper.Class_inflateRaw klass types).
Proof.
  intros s. unfold bind at 1.
  destruct (Il2CppDumper.getTypeArray _ _ _ s) as [s1 [types|e]] eqn:E.
  - apply getTypeArray_inv in E as (-> & Hk & ->).
    eexists [_]. cbn. split; [reflexivity|]. constructor; [|constructor].
    cbn. split; [reflexivity|]. rewrite length_replicate.
    unfold valid_length in Hk. lia.
  - exists []. unfold Il2CppDumper.getTypeArray, bind, of_result in E.
    destruct (Array_fill _ _); [discriminate|]. injection E as <- _.
    cbn. by rewrite app_nil_r.
Qed.

Lemma inflate_method_emits method :
  emits (placeholder_inflation SystemObject) (let* types := Il2CppDumper.getTypeArray SystemType SystemObject
                           (Method_genericParameterCount method) in
           Il2CppDumper.Method_inflateRaw method types).
Proof.
  intros s. unfold bind at 1.
  destruct (Il2CppDumper.getTypeArray _ _ _ s) as [s1 [types|e]] eqn:E.
  - apply getTypeArray_inv in E as (-> & Hk & ->).
    eexists [_]. cbn. split; [reflexivity|]. constructor; [|constructor].
    cbn. split; [reflexivity|]. rewrite length_replicate.
    unfold valid_length in Hk. lia.
  - exists []. unfold Il2CppDumper.getTypeArray, bind, of_result in E.
    destruct (Array_fill _ _); [discriminate|]. injection E as <- _.
    cbn. by rewrite app_nil_r.
Qed.

Lemma methods_generator_emits :
  gen_emits (placeholder_inflation SystemObject) (Il2CppDumper.methods_generator SystemType SystemObject).
Proof.
  apply gen_emits_Step; [apply assemblies_emits|]. intros assemblies.
  apply gen_emits_for. intros assembly.
  apply gen_emits_Step.
  { apply emits_bind; [apply assembly_name_emits | intros; by apply emits_log]. }
  intros _. apply gen_emits_Step.
  { apply emits_bind; [apply image_emits | intros; apply classes_emits]. }
  intros classes. apply gen_emits_for. intros klass0.
  apply gen_emits_Step.
  { destruct (Class_isGeneric klass0); [apply inflate_class_emits | apply emits_ret]. }
  intros klass. apply gen_emits_for. intros method0.
  apply gen_emits_Step.
  { destruct (Method_isGeneric method0 && negb (Class_isGeneric klass));
      [apply inflate_method_emits | apply emits_ret]. }
  intros method. destruct (negb _); [|apply gen_emits_Done].
  apply gen_emits_Yield, gen_emits_Done.
Qed.

End InflationFacts.

(** ** More on tables and generators *)

Lemma first_occurrences_elem_of l x : x ∈ first_occurrences l <-> x ∈ l.
Proof.
  induction l as [|y l IH]; [reflexivity|]. cbn [first_occurrences].
  rewrite !elem_of_cons, list_elem_of_filter, IH.
  destruct (decide (x = y)); tauto.
Qed.

Lemma first_occurrences_length l :
  (List.length (first_occurrences l) <= List.length l)%nat.
Proof.
  induction l as [|x l IH]; [reflexivity|]. cbn [first_occurrences List.length].
  pose proof (length_filter (fun y => y ≠ x) (first_occurrences l)). lia.
Qed.

(** A repeated name makes the list of first occurrences shorter. *)
Lemma first_occurrences_shorter l :
  ~ NoDup l -> (List.length (first_occurrences l) < List.length l)%nat.
Proof.
  induction l as [|x l IH]; intros Hdup.
  - destruct Hdup. constructor.
  - cbn [first_occurrences List.length].
    destruct (decide (x ∈ l)) as [Hin|Hnin].
    + assert (Hlt : (List.length (filter (fun y => y ≠ x) (first_occurrences l))
                     < List.length (first_occurrences l))%nat).
      { apply length_filter_lt with x; [by apply first_occurrences_elem_of | tauto]. }
      pose proof (first_occurrences_length l). lia.
    + assert (Hl : ~ NoDup l).
      { intros Hnd. apply Hdup. by constructor. }
      pose proof (IH Hl).
      pose proof (length_filter (fun y => y ≠ x) (first_occurrences l)). lia.
Qed.

(** In slot order, the values of an accessor are what its keys give. *)
Lemma Accessor_values_by_key {T} (acc : Accessor.t T) :
  NoDup (Accessor.keys acc) ->
  Some <$> Accessor.values acc = Accessor.get acc <$> Accessor.keys acc.
Proof.
  unfold Accessor.keys, Accessor.values.
  induction acc as [|[k v] acc IH]; intros Hnd; [reflexivity|].
  rewrite !fmap_cons in *. cbn [fst snd] in *.
  apply NoDup_cons in Hnd as [Hk Hnd]. cbn [Accessor.get].
  destruct (decide (k = k)); [|congruence]. f_equal.
  rewrite IH by exact Hnd. apply list_fmap_ext.
  intros i k' Hk'. destruct (decide (k = k')) as [->|]; [|reflexivity].
  exfalso. apply Hk. by eapply list_elem_of_lookup_2.
Qed.

Section TableNames.
Context {rt : Runtime}.

Lemma table_values_names_from hs (acc : Accessor.t Z) :
  Class_type_name <$> Accessor.values acc = Accessor.keys acc ->
  Class_type_name <$> Accessor.values (foldl table_step acc hs)
  = Accessor.keys (foldl table_step acc hs).
Proof.
  revert acc. induction hs as [|h hs IH]; intros acc Hacc; [exact Hacc|].
  cbn [foldl]. apply IH. clear IH.
  unfold Accessor.keys, Accessor.values in *.
  induction acc as [|[k v] acc IHacc]; [reflexivity|].
  rewrite !fmap_cons in Hacc. cbn [fst snd] in Hacc. injection Hacc as Hk Hrest.
  cbn [Accessor.set]. destruct (decide (k = Class_type_name h)) as [->|Hne].
  - rewrite !fmap_cons. cbn [fst snd]. by rewrite Hrest.
  - rewrite !fmap_cons. cbn [fst snd]. by rewrite Hk, IHacc.
Qed.

(** The classes a table iterates over are pairwise distinct. *)
Lemma table_of_values_NoDup hs : NoDup (Accessor.values (table_of hs)).
Proof.
  apply (NoDup_fmap_1 Class_type_name). unfold table_of.
  rewrite table_values_names_from by reflexivity.
  apply table_keys_NoDup, NoDup_nil_2.
Qed.

Lemma table_of_values_length hs :
  List.length (Accessor.values (table_of hs))
  = List.length (first_occurrences (Class_type_name <$> hs)).
Proof.
  rewrite <- table_of_keys. unfold Accessor.keys, Accessor.values.
  by rewrite !length_fmap.
Qed.

(** One value per distinct name, in the order of the first occurrences of
    the names: the last handle of that name. *)
Lemma table_of_values_last hs :
  Some <$> Accessor.values (table_of hs)
  = (fun n => last (filter (fun h => Class_type_name h = n) hs))
      <$> first_occurrences (Class_type_name <$> hs).
Proof.
  rewrite Accessor_values_by_key by (apply table_keys_NoDup, NoDup_nil_2).
  rewrite table_of_keys. apply list_fmap_ext. intros i n _. apply table_of_get.
Qed.

End TableNames.

Lemma elem_of_concat {A} (x : A) (ls : list (list A)) :
  x ∈ List.concat ls <-> exists l, x ∈ l /\ l ∈ ls.
Proof.
  induction ls as [|l ls IH]; cbn [List.concat].
  - split; [intros H; by apply elem_of_nil in H|].
    intros (l & _ & H). by apply elem_of_nil in H.
  - rewrite elem_of_app, IH. split.
    + intros [H|(l' & H & H')]; [exists l; split; [exact H | left]|].
      exists l'. split; [exact H | by right].
    + intros (l' & H & H'). apply elem_of_cons in H' as [->|H']; [by left|].
      right. by exists l'.
Qed.

Lemma collect_for_events {A} (l : list A) body (f : A -> list string)
    (ev : A -> list event) :
  (forall a s, a ∈ l -> collect (body a) s = (add_events (ev a) s, f a, Ok ())) ->
  forall s, collect (gen_for l body) s
            = (add_events (List.concat (ev <$> l)) s, List.concat (f <$> l), Ok ()).
Proof.
  induction l as [|a l IH]; intros Hb s.
  - cbn. by rewrite add_events_nil.
  - cbn [gen_for foldr]. rewrite collect_seq, Hb by left.
    fold (gen_for l body). rewrite IH.
    + cbn. by rewrite add_events_app.
    + intros a' s' Ha'. apply Hb. by right.
Qed.

Lemma bind_ret_run {S A B} (a : A) (f : A -> M S B) s :
  bind (ret a) f s = f a s.
Proof. reflexivity. Qed.

Lemma bind_run {S A B} (m : M S A) (f : A -> M S B) s :
  bind m f s
  = match m s with (s', Ok a) => f a s' | (s', Err e) => (s', Err e) end.
Proof. reflexivity. Qed.

Lemma bind_liftL_run {S T A B} (m : M S A) (f : A -> M (S * T) B) s (t : T) :
  bind (liftL m) f (s, t)
  = match m s with (s', Ok a) => f a (s', t) | (s', Err e) => ((s', t), Err e) end.
Proof. unfold bind, liftL. cbn [fst snd]. by destruct (m s) as [? [?|?]]. Qed.

Section BuildDestination.
Context {rt : Runtime}.

(** [build] computes its destination, then does the rest. *)
Lemma build_destination this s fs :
  Il2CppDumper.build this (s, fs)
  = match destinationPath this s with
    | (s1, Ok path) => build_outcome this path s1 fs
    | (s1, Err e) => ((s1, fs), Err e)
    end.
Proof.
  unfold Il2CppDumper.build, destinationPath.
  destruct (Il2CppDumper.directoryPath_ this) as [d|],
           (Il2CppDumper.fileName_ this) as [n|].
  - repeat (rewrite bind_ret_run; cbn beta).
    unfold ret. apply build_at_run.
  - repeat (rewrite bind_ret_run; cbn beta). rewrite bind_liftL_run, bind_run.
    destruct (Il2CppDumper.defaultFileName s) as [s1 [n|e]]; [|reflexivity].
    unfold ret. apply build_at_run.
  - rewrite bind_liftL_run, bind_run.
    destruct (Il2CppDumper.defaultDirectoryPath s) as [s1 [d|e]]; [|reflexivity].
    cbn beta. repeat (rewrite bind_ret_run; cbn beta). unfold ret. apply build_at_run.
  - rewrite bind_liftL_run, bind_run.
    destruct (Il2CppDumper.defaultDirectoryPath s) as [s1 [d|e]]; [|reflexivity].
    cbn beta. rewrite bind_liftL_run, bind_run.
    destruct (Il2CppDumper.defaultFileName s1) as [s2 [n|e]]; [|reflexivity].
    unfold ret. apply build_at_run.
Qed.

End BuildDestination.

(** ** The class table of an image *)

Section ImageTheorems.
Context {rt : Runtime}.

(** C6: the by-name class table of an image is built by inserting the classes
    in traversal order under their full type names; its keys are the names in
    the order of their first insertion, and the slot of a name holds the class
    that was traversed last among those of that name. *)
Theorem classes_table_last_write_wins this s :
  coherent s ->
  Forall (fun h => h ≠ 0) (class_handles this) ->
  exists s' acc,
    Il2CppImage.classes this s = (s', Ok acc)
    /\ acc = foldl (fun accessor klass =>
                      Accessor.set accessor (Class_type_name klass) klass)
                   Accessor.empty (class_handles this)
    /\ Accessor.keys acc = first_occurrences (Class_type_name <$> class_handles this)
    /\ forall n, Accessor.get acc n
                 = last (filter (fun h => Class_type_name h = n) (class_handles this)).
Proof.
  intros Hs Hnz.
  destruct (classes_run this s Hs Hnz) as (s' & E & _).
  exists s', (table_of (class_handles this)).
  split; [exact E|]. split; [reflexivity|].
  split; [apply table_of_keys | apply table_of_get].
Qed.

(** C2, amended: under the current layout, for an image whose class handles
    at the indices of [0, classCount) are all non-null, the first access to
    [classes] asks the VM for the class at every index of [0, classCount), in
    index order, and a second access returns the same table without any new
    request.  The table iterates over pairwise distinct classes, one per
    distinct full type name, in the order in which the names first occur: the
    class of the highest index among those of that name.  When the names are
    pairwise distinct these are exactly the classCount classes in index
    order; when two classes share a name they share a slot and there are
    fewer than classCount of them. *)
Theorem classes_current_views this s :
  unityVersion_isLegacy = false ->
  coherent s ->
  classes_cache s !! this = None ->
  Forall (fun i => Api_imageGetClass this i ≠ 0) (seqZ 0 (Api_imageGetClassCount this)) ->
  exists s' acc,
    Il2CppImage.classes this s = (s', Ok acc)
    /\ trace s' = trace s ++ classCount_reads s this
                  ++ (Call_imageGetClass this <$> seqZ 0 (Api_imageGetClassCount this))
    /\ Il2CppImage.classes this s' = (s', Ok acc)
    /\ NoDup (Accessor.values acc)
    /\ Some <$> Accessor.values acc
       = (fun n => last (filter (fun h => Class_type_name h = n)
                           (Api_imageGetClass this <$> seqZ 0 (Api_imageGetClassCount this))))
           <$> first_occurrences
                 (Class_type_name
                    <$> (Api_imageGetClass this <$> seqZ 0 (Api_imageGetClassCount this)))
    /\ (NoDup (Class_type_name
                 <$> (Api_imageGetClass this <$> seqZ 0 (Api_imageGetClassCount this))) ->
        Accessor.values acc = Api_imageGetClass this <$> seqZ 0 (Api_imageGetClassCount this)
        /\ List.length (Accessor.values acc) = Z.to_nat (Api_imageGetClassCount this))
    /\ (~ NoDup (Class_type_name
                   <$> (Api_imageGetClass this <$> seqZ 0 (Api_imageGetClassCount this))) ->
        (List.length (Accessor.values acc) < Z.to_nat (Api_imageGetClassCount this))%nat).
Proof.
  intros Hcur Hs Hmiss Hnz.
  assert (Hh : class_handles this
               = Api_imageGetClass this <$> seqZ 0 (Api_imageGetClassCount this)).
  { unfold class_handles. by rewrite Hcur. }
  rewrite <- Hh.
  assert (Hnz' : Forall (fun h => h ≠ 0) (class_handles this)).
  { rewrite Hh, Forall_fmap. exact Hnz. }
  assert (Hlen : List.length (Class_type_name <$> class_handles this)
                 = Z.to_nat (Api_imageGetClassCount this)).
  { by rewrite Hh, !length_fmap, length_seqZ. }
  destruct (classes_run this s Hs Hnz') as (s' & E & Hs' & Hc & Ht & _).
  exists s', (table_of (class_handles this)).
  split; [exact E|].
  split.
  { rewrite (Ht Hmiss). unfold classes_trace. by rewrite Hcur. }
  split.
  { destruct (classes_run this s' Hs' Hnz') as (s'' & E' & _ & _ & _ & Hsame).
    rewrite E'. by rewrite Hsame. }
  split; [apply table_of_values_NoDup|].
  split; [apply table_of_values_last|].
  split.
  - intros Hnames. rewrite (table_of_values _ Hnames).
    split; [reflexivity|]. by rewrite length_fmap in Hlen.
  - intros Hdup. rewrite table_of_values_length, <- Hlen.
    by apply first_occurrences_shorter.
Qed.

(** C4: under the legacy layout, with classStart = S and classCount = C, the
    class table is built by storing each index of S, S+1, ..., S+C-1 in a
    synthesized type descriptor (type enum 0x20) and asking the VM to resolve
    the descriptor: exactly these indices, in this order, reach the VM, and
    the table holds the classes of the global class table at them. *)
Theorem classes_legacy_indices this s :
  unityVersion_isLegacy = true ->
  coherent s ->
  classes_cache s !! this = None ->
  - 2 ^ 31 <= Api_imageGetClassStart this ->
  Api_imageGetClassStart this + Api_imageGetClassCount this <= 2 ^ 31 ->
  4 <= Il2CppType_offsetOfTypeEnum ->
  Forall (fun i => Api_typeGetClassOrElementClass i ≠ 0)
         (seqZ (Api_imageGetClassStart this) (Api_imageGetClassCount this)) ->
  exists s' acc,
    Il2CppImage.classes this s = (s', Ok acc)
    /\ acc = table_of (Api_typeGetClassOrElementClass
                         <$> seqZ (Api_imageGetClassStart this) (Api_imageGetClassCount this))
    /\ trace s' = trace s ++ classStart_reads s this ++ classCount_reads s this
                  ++ [Memory_allocated Process_pointerSize (heap_next s)]
                  ++ ((fun i => Call_typeGetClassOrElementClass (heap_next s) i 32)
                        <$> seqZ (Api_imageGetClassStart this) (Api_imageGetClassCount this)).
Proof.
  intros Hleg Hs Hmiss Hlo Hhi Hoff Hnz.
  set (S := Api_imageGetClassStart this) in *.
  set (C := Api_imageGetClassCount this) in *.
  assert (Hsmall : Forall (fun i => Memory.to_int32 i = i) (seqZ S C)).
  { apply Forall_seqZ. intros i Hi. apply to_int32_small. lia. }
  assert (Hh : class_handles this = Api_typeGetClassOrElementClass <$> seqZ S C).
  { unfold class_handles. rewrite Hleg. fold S C.
    apply Forall_fmap_ext_1. eapply Forall_impl; [exact Hsmall|].
    intros i Hi. cbn. by rewrite Hi. }
  assert (Hnz' : Forall (fun h => h ≠ 0) (class_handles this)).
  { rewrite Hh, Forall_fmap. exact Hnz. }
  destruct (classes_run this s Hs Hnz') as (s' & E & _ & _ & Ht & _).
  exists s', (table_of (class_handles this)).
  split; [exact E|]. split; [by rewrite Hh|].
  rewrite (Ht Hmiss). unfold classes_trace. rewrite Hleg. fold S C.
  rewrite legacy_calls_plain.
  - do 4 f_equal. apply Forall_fmap_ext_1. eapply Forall_impl; [exact Hsmall|].
    intros i Hi. cbn. by rewrite Hi.
  - exact Hoff.
  - rewrite load32_store32. by apply to_int32_small.
Qed.

End ImageTheorems.

(** The clash image: the table has two slots, [A.B.C] holds the class
    traversed last. *)
Lemma classes_table_last_write_wins_witness :
  coherent (rt := Toy.runtime Toy.clash_vm) Session_init
  /\ Forall (fun h => h ≠ 0) (class_handles (rt := Toy.runtime Toy.clash_vm) 101)
  /\ exists s',
      Il2CppImage.classes (rt := Toy.runtime Toy.clash_vm) 101 Session_init
      = (s', Ok [("A.B.C", 203); ("A.D", 202)]).
Proof.
  assert (Hc : coherent (rt := Toy.runtime Toy.clash_vm) Session_init)
    by apply coherent_init.
  assert (Hnz : Forall (fun h => h ≠ 0)
                  (class_handles (rt := Toy.runtime Toy.clash_vm) 101))
    by (vm_compute; repeat constructor; discriminate).
  split; [exact Hc|]. split; [exact Hnz|].
  destruct (classes_table_last_write_wins (rt := Toy.runtime Toy.clash_vm)
              101 Session_init Hc Hnz) as (s' & acc & E & Hacc & _).
  exists s'. rewrite E, Hacc. reflexivity.
Defined.

(** C2 as stated fails on the clash image: classCount is 3, the table
    iterates over 2 classes. *)
Lemma classes_current_count_counterexample :
  unityVersion_isLegacy (Runtime := Toy.runtime Toy.clash_vm) = false
  /\ Api_imageGetClassCount (Runtime := Toy.runtime Toy.clash_vm) 101 = 3
  /\ exists acc,
      (Il2CppImage.classes (rt := Toy.runtime Toy.clash_vm) 101 Session_init).2 = Ok acc
      /\ List.length (Accessor.values acc) ≠ Z.to_nat 3
      /\ Accessor.values acc ≠ [201; 202; 203].
Proof.
  split; [reflexivity|]. split; [reflexivity|].
  exists [("A.B.C", 203); ("A.D", 202)].
  split; [vm_compute; reflexivity|]. split; vm_compute; discriminate.
Qed.

(** The clash image, where two of the three classes share a name, and the
    corlib of [generic_vm], where the names are distinct. *)
Lemma classes_current_views_witness :
  (unityVersion_isLegacy (Runtime := Toy.runtime Toy.clash_vm) = false
   /\ exists s',
       Il2CppImage.classes (rt := Toy.runtime Toy.clash_vm) 101 Session_init
       = (s', Ok [("A.B.C", 203); ("A.D", 202)])
       /\ trace s' = [Call_imageGetClassCount 101; Call_imageGetClass 101 0;
                      Call_imageGetClass 101 1; Call_imageGetClass 101 2]
       /\ Il2CppImage.classes (rt := Toy.runtime Toy.clash_vm) 101 s'
          = (s', Ok [("A.B.C", 203); ("A.D", 202)])
       /\ (List.length (Accessor.values [("A.B.C", 203); ("A.D", 202)]) < Z.to_nat 3)%nat)
  /\ (unityVersion_isLegacy (Runtime := Toy.runtime Toy.generic_vm) = false
      /\ exists s',
          Il2CppImage.classes (rt := Toy.runtime Toy.generic_vm) 101 Session_init
          = (s', Ok [("System.Object", 201); ("System.Type", 202)])
          /\ Accessor.values [("System.Object", 201); ("System.Type", 202)]
             = Api_imageGetClass (Runtime := Toy.runtime Toy.generic_vm) 101 <$> seqZ 0 2).
Proof.
  split.
  - split; [reflexivity|].
    destruct (classes_current_views (rt := Toy.runtime Toy.clash_vm)
                101 Session_init) as (s' & acc & E & Ht & E2 & _ & _ & _ & Hfew).
    + reflexivity.
    + apply coherent_init.
    + reflexivity.
    + vm_compute. repeat constructor; discriminate.
    + exists s'.
      assert (Hacc : acc = [("A.B.C", 203); ("A.D", 202)]).
      { pose proof E as E'. vm_compute in E'. congruence. }
      rewrite Hacc in *. split; [exact E|]. split; [exact Ht|]. split; [exact E2|].
      apply Hfew. intros Hnd. apply (bool_decide_pack _) in Hnd.
      vm_compute in Hnd. exact Hnd.
  - split; [reflexivity|].
    destruct (classes_current_views (rt := Toy.runtime Toy.generic_vm)
                101 Session_init) as (s' & acc & E & _ & _ & _ & _ & Hall & _).
    + reflexivity.
    + apply coherent_init.
    + reflexivity.
    + vm_compute. repeat constructor; discriminate.
    + exists s'.
      assert (Hacc : acc = [("System.Object", 201); ("System.Type", 202)]).
      { pose proof E as E'. vm_compute in E'. congruence. }
      rewrite Hacc in *. split; [exact E|].
      apply Hall. apply (bool_decide_unpack _). vm_compute. exact I.
Defined.

Lemma classes_legacy_indices_witness :
  unityVersion_isLegacy (Runtime := Toy.runtime Toy.legacy_vm) = true
  /\ exists s',
      Il2CppImage.classes (rt := Toy.runtime Toy.legacy_vm) 102 Session_init
      = (s', Ok [("Game.Player", 203); ("Game.Enemy", 204)])
      /\ trace s' = [Call_imageGetClassStart 102; Call_imageGetClassCount 102;
                     Memory_allocated 8 4096;
                     Call_typeGetClassOrElementClass 4096 2 32;
                     Call_typeGetClassOrElementClass 4096 3 32].
Proof.
  split; [reflexivity|].
  destruct (classes_legacy_indices (rt := Toy.runtime Toy.legacy_vm)
              102 Session_init) as (s' & acc & E & Hacc & Ht).
  - reflexivity.
  - apply coherent_init.
  - reflexivity.
  - vm_compute. discriminate.
  - vm_compute. discriminate.
  - vm_compute. discriminate.
  - vm_compute. repeat constructor; discriminate.
  - exists s'. rewrite E, Hacc, Ht. split; reflexivity.
Defined.

(** ** build *)

Section BuildTheorems.
Context {rt : Runtime}.

(** With the directory and the file name configured the destination is
    computed without a request to the host. *)
Lemma destinationPath_configured this directory name s :
  Il2CppDumper.directoryPath_ this = Some directory ->
  Il2CppDumper.fileName_ this = Some name ->
  destinationPath this s
  = (s, Ok (directory +:+ "/" +:+ name +:+ "."
            +:+ default "dump" (Il2CppDumper.extension_ this))).
Proof. intros Hd Hn. unfold destinationPath. by rewrite Hd, Hn. Qed.

(** C7, amended: every run of [build] takes one of these paths.  When a
    default directory or file name cannot be computed, [build] fails with
    that failure and no file operation is performed.  When the destination
    cannot be opened for writing, [build] fails with IOFailure and no other
    file operation is performed.  Otherwise the file is opened; with no dump
    kind chosen [build] fails there; else every chunk is written as it is
    produced, and the file is flushed and then closed when chunk production
    ends normally.  When chunk production fails, [build] ends with that
    failure after the writes of the chunks handed out so far: it performs no
    flush and no close. *)
Theorem build_every_exit_path this s fs :
  match destinationPath this s with
  | (s1, Err e) => Il2CppDumper.build this (s, fs) = ((s1, fs), Err e)
  | (s1, Ok path) =>
      if File_openable path then
        match Il2CppDumper.generator_ this with
        | None =>
            exists fs',
              Il2CppDumper.build this (s, fs) = ((s1, fs'), Err TypeError)
              /\ File.operations fs' = File.operations fs ++ [File.Opened path]
        | Some generator =>
            match collect generator s1 with
            | (s2, chunks, Ok _) =>
                exists fs',
                  Il2CppDumper.build this (s, fs)
                  = ((add_events [Console_ok ("Dump saved to " +:+ path +:+ ".")] s2, fs'),
                     Ok ())
                  /\ File.operations fs'
                     = File.operations fs ++ [File.Opened path]
                       ++ (File.Written (List.length (File.files fs)) <$> chunks)
                       ++ [File.Flushed (List.length (File.files fs));
                           File.Closed (List.length (File.files fs))]
            | (s2, chunks, Err e) =>
                exists fs',
                  Il2CppDumper.build this (s, fs) = ((s2, fs'), Err e)
                  /\ File.operations fs'
                     = File.operations fs ++ [File.Opened path]
                       ++ (File.Written (List.length (File.files fs)) <$> chunks)
            end
        end
      else Il2CppDumper.build this (s, fs) = ((s1, fs), Err IOFailure)
  end.
Proof.
  rewrite build_destination.
  destruct (destinationPath this s) as [s1 [path|e]]; [|reflexivity].
  unfold build_outcome. destruct (File_openable path); [|reflexivity].
  destruct (Il2CppDumper.generator_ this) as [generator|].
  - destruct (collect generator s1) as [[s2 chunks] [[]|e]];
      eexists; (split; [reflexivity|]); cbn [dumped File.operations];
      [reflexivity | by rewrite app_nil_r].
  - eexists. split; reflexivity.
Qed.

(** C9: with no directory and no file name configured, [build] reads the
    host's persistent-data path and writes to
    [<persistentDataPath>/<base>.<extension>], where the base name is
    [<identifier>_<version>] when both getters are there and return, and the
    timestamp otherwise; the extension is [cs] for the classes dump and [ms]
    for the methods dump. *)
Theorem build_default_destination this s fs directory app :
  coherent s ->
  Il2CppDumper.directoryPath_ this = None ->
  Il2CppDumper.fileName_ this = None ->
  persistentDataPath_of = Ok directory ->
  Application_of = Ok app ->
  (exists s1,
     Il2CppDumper.build this (s, fs)
     = build_outcome this
         (template directory +:+ "/" +:+ default_base_name app +:+ "."
          +:+ default "dump" (Il2CppDumper.extension_ this))
         s1 fs)
  /\ Il2CppDumper.extension_ (Il2CppDumper.classes this) = Some "cs"
  /\ (forall s0 s0' this', Il2CppDumper.methods this s0 = (s0', Ok this') ->
        Il2CppDumper.extension_ this' = Some "ms").
Proof.
  intros Hs Hd Hn Hdir Happ. split; [|split; [reflexivity|]].
  - destruct (defaultDirectoryPath_denotes _ Hdir s Hs) as (s1 & E1 & Hs1).
    destruct (defaultFileName_denotes _ Happ s1 Hs1) as (s2 & E2 & Hs2).
    exists s2. rewrite <- build_at_run.
    unfold Il2CppDumper.build. rewrite Hd, Hn.
    unfold bind at 1, liftL at 1. cbn [fst snd]. rewrite E1.
    unfold bind at 1, liftL at 1. cbn [fst snd]. rewrite E2.
    reflexivity.
  - intros s0 s0' this'. unfold Il2CppDumper.methods, bind, Il2CppDumper.member, ret, throw.
    destruct (Il2CppImage.classes Image_corlib s0) as [s1 [c1|e1]]; [|discriminate].
    destruct (Il2CppImage.classes Image_corlib s1) as [s2 [c2|e2]]; [|discriminate].
    destruct (Accessor.get c2 "System.Object"); [|discriminate].
    by intros [= _ <-].
Qed.

End BuildTheorems.

(** Three runs of [build]: on [generic_vm], which has no UnityEngine
    assembly, with nothing configured; on [broken_vm] with a destination that
    cannot be opened; on [Toy_bare_vm] with a destination that can. *)
Lemma build_every_exit_path_witness :
  (exists s1,
     Il2CppDumper.build (rt := Toy.runtime Toy.generic_vm)
       (Il2CppDumper.classes (rt := Toy.runtime Toy.generic_vm) Il2CppDumper.new)
       (Session_init, File.FileSystem_init)
     = ((s1, File.FileSystem_init), Err TypeError))
  /\ Il2CppDumper.build (rt := Toy.runtime Toy.broken_vm)
       (Il2CppDumper.fileName
          (Il2CppDumper.directoryPath
             (Il2CppDumper.classes (rt := Toy.runtime Toy.broken_vm) Il2CppDumper.new)
             "/readonly") "out")
       (Session_init, File.FileSystem_init)
     = ((Session_init, File.FileSystem_init), Err IOFailure)
  /\ (exists s' fs',
        Il2CppDumper.build (rt := Toy.runtime Toy_bare_vm)
          (Il2CppDumper.fileName
             (Il2CppDumper.directoryPath
                (Il2CppDumper.classes (rt := Toy.runtime Toy_bare_vm) Il2CppDumper.new)
                "/sdcard") "out")
          (Session_init, File.FileSystem_init)
        = ((s', fs'), Ok ())
        /\ File.operations fs'
           = [File.Opened "/sdcard/out.cs";
              File.Written 0 "class System.Object {}";
              File.Written 0 "class System.Type {}";
              File.Written 0 "class UnityEngine.Object {}";
              File.Flushed 0; File.Closed 0]).
Proof.
  split; [|split].
  - pose proof (build_every_exit_path (rt := Toy.runtime Toy.generic_vm)
                  (Il2CppDumper.classes (rt := Toy.runtime Toy.generic_vm) Il2CppDumper.new)
                  Session_init File.FileSystem_init) as H.
    destruct (destinationPath (rt := Toy.runtime Toy.generic_vm)
                (Il2CppDumper.classes (rt := Toy.runtime Toy.generic_vm) Il2CppDumper.new)
                Session_init) as [s1 r] eqn:E.
    assert (Hr : r = Err TypeError).
    { pose proof E as E'. vm_compute in E'. congruence. }
    subst r. exists s1. exact H.
  - pose proof (build_every_exit_path (rt := Toy.runtime Toy.broken_vm)
                  (Il2CppDumper.fileName
                     (Il2CppDumper.directoryPath
                        (Il2CppDumper.classes (rt := Toy.runtime Toy.broken_vm)
                           Il2CppDumper.new)
                        "/readonly") "out")
                  Session_init File.FileSystem_init) as H.
    exact H.
  - pose proof (build_every_exit_path (rt := Toy.runtime Toy_bare_vm)
                  (Il2CppDumper.fileName
                     (Il2CppDumper.directoryPath
                        (Il2CppDumper.classes (rt := Toy.runtime Toy_bare_vm)
                           Il2CppDumper.new)
                        "/sdcard") "out")
                  Session_init File.FileSystem_init) as H.
    change (match collect (Il2CppDumper.classes_generator (rt := Toy.runtime Toy_bare_vm))
                    Session_init with
            | (s2, chunks, Ok _) =>
                exists fs',
                  Il2CppDumper.build (rt := Toy.runtime Toy_bare_vm)
                    (Il2CppDumper.fileName
                       (Il2CppDumper.directoryPath
                          (Il2CppDumper.classes (rt := Toy.runtime Toy_bare_vm)
                             Il2CppDumper.new)
                          "/sdcard") "out")
                    (Session_init, File.FileSystem_init)
                  = ((add_events [Console_ok "Dump saved to /sdcard/out.cs."] s2, fs'),
                     Ok ())
                  /\ File.operations fs'
                     = [File.Opened "/sdcard/out.cs"]
                       ++ (File.Written 0 <$> chunks) ++ [File.Flushed 0; File.Closed 0]
            | (s2, chunks, Err e) =>
                exists fs',
                  Il2CppDumper.build (rt := Toy.runtime Toy_bare_vm)
                    (Il2CppDumper.fileName
                       (Il2CppDumper.directoryPath
                          (Il2CppDumper.classes (rt := Toy.runtime Toy_bare_vm)
                             Il2CppDumper.new)
                          "/sdcard") "out")
                    (Session_init, File.FileSystem_init) = ((s2, fs'), Err e)
                  /\ File.operations fs'
                     = [File.Opened "/sdcard/out.cs"] ++ (File.Written 0 <$> chunks)
            end) in H.
    destruct (collect (Il2CppDumper.classes_generator (rt := Toy.runtime Toy_bare_vm))
                Session_init) as [[s2 chunks] r] eqn:E.
    assert (Hr : chunks = ["class System.Object {}"; "class System.Type {}";
                           "class UnityEngine.Object {}"] /\ r = Ok ()).
    { pose proof E as E'. vm_compute in E'. split; congruence. }
    destruct Hr as [-> ->]. destruct H as (fs' & Eb & Hops).
    eexists _, fs'. split; [exact Eb | exact Hops].
Defined.

(** C7 as stated fails when the second image of [broken_vm] makes chunk
    production fail after the first chunk: [build] ends with that failure,
    and the file it opened and wrote the first chunk to is neither flushed
    nor closed. *)
Lemma build_failure_counterexample :
  exists s' fs',
    Il2CppDumper.build (rt := Toy.runtime Toy.broken_vm)
      (Il2CppDumper.fileName
         (Il2CppDumper.directoryPath
            (Il2CppDumper.classes (rt := Toy.runtime Toy.broken_vm) Il2CppDumper.new)
            "/data") "out")
      (Session_init, File.FileSystem_init) = ((s', fs'), Err InvalidHandle)
    /\ File.operations fs' = [File.Opened "/data/out.cs";
                              File.Written 0 "class Game.Player {}"]
    /\ (File.Flushed 0 ∉ File.operations fs')
    /\ (File.Closed 0 ∉ File.operations fs').
Proof.
  eexists _, _. split; [vm_compute; reflexivity|].
  split; [reflexivity|].
  split; intros Hin; repeat (apply elem_of_cons in Hin as [Hin|Hin]; [discriminate|]);
    by apply elem_of_nil in Hin.
Qed.

(** The classes dump on [host_vm], nothing configured. *)
Lemma build_default_destination_witness :
  coherent (rt := Toy.runtime Toy.host_vm) Session_init
  /\ persistentDataPath_of (rt := Toy.runtime Toy.host_vm) = Ok (Some "/data/files")
  /\ exists s1,
      Il2CppDumper.build (rt := Toy.runtime Toy.host_vm)
        (Il2CppDumper.classes (rt := Toy.runtime Toy.host_vm) Il2CppDumper.new)
        (Session_init, File.FileSystem_init)
      = build_outcome (rt := Toy.runtime Toy.host_vm)
          (Il2CppDumper.classes (rt := Toy.runtime Toy.host_vm) Il2CppDumper.new)
          "/data/files/com.x.y_1.0.cs" s1 File.FileSystem_init.
Proof.
  assert (Hc : coherent (rt := Toy.runtime Toy.host_vm) Session_init)
    by apply coherent_init.
  assert (Hp : persistentDataPath_of (rt := Toy.runtime Toy.host_vm)
               = Ok (Some "/data/files")) by (vm_compute; reflexivity).
  assert (Ha : Application_of (rt := Toy.runtime Toy.host_vm) = Ok (Some 220))
    by (vm_compute; reflexivity).
  split; [exact Hc|]. split; [exact Hp|].
  destruct (build_default_destination (rt := Toy.runtime Toy.host_vm)
              (Il2CppDumper.classes (rt := Toy.runtime Toy.host_vm) Il2CppDumper.new)
              Session_init File.FileSystem_init (Some "/data/files") (Some 220)
              Hc eq_refl eq_refl Hp Ha) as [[s1 E] _].
  exists s1. exact E.
Defined.

(** Without a version getter the base name is the timestamp. *)
Example default_base_name_timestamp :
  default_base_name (rt := Toy.runtime Toy.old_host_vm) (Some 220) = "1700000000000".
Proof. vm_compute. reflexivity. Qed.

(** ** The dumps *)

Lemma Accessor_get_values {T} (acc : Accessor.t T) k v :
  Accessor.get acc k = Some v -> v ∈ Accessor.values acc.
Proof.
  unfold Accessor.values. induction acc as [|[k0 v0] acc IH]; [discriminate|].
  cbn [Accessor.get]. rewrite fmap_cons. cbn [snd].
  destruct (decide (k0 = k)); [intros [= ->]; left | intros Hg; right; by apply IH].
Qed.

Section DumpTheorems.
Context {rt : Runtime}.
Variable SystemType : option Z.
Variable SystemObject : Z.

(** C1: while the methods of a class are dumped, a method whose virtual
    address is null gives no line and no error, and a method whose virtual
    address is not null gives exactly one line: its relative virtual address
    as formatted by [formatNativePointer], a space, the name of the type of
    the dumped class, a dot, the name of the method and a line terminator.
    The chunks of the class are these lines, in the order of its methods. *)
Theorem methods_dump_lines klass0 s :
  dumpable SystemType SystemObject klass0 ->
  let klass := dumped_class SystemType SystemObject klass0 in
  (exists s',
     collect (Il2CppDumper.methods_of_class SystemType SystemObject klass0) s
     = (s', List.concat (method_lines SystemType SystemObject klass
                           <$> Accessor.values (Class_methods klass)), Ok ()))
  /\ forall method0,
       let method := dumped_method SystemType SystemObject klass method0 in
       (Method_virtualAddress method = 0 ->
        method_lines SystemType SystemObject klass method0 = [])
       /\ (Method_virtualAddress method ≠ 0 ->
           method_lines SystemType SystemObject klass method0
           = [formatNativePointer (Method_relativeVirtualAddress method) +:+ " "
              +:+ Class_type_name klass +:+ "." +:+ Method_name method +:+ newline]).
Proof.
  intros Hd klass. split.
  - destruct (methods_of_class_appends SystemType SystemObject klass0 Hd s) as [evs E].
    eexists. exact E.
  - intros method0 method. unfold method_lines. fold method. split; intros Hva.
    + by rewrite bool_decide_eq_true_2.
    + by rewrite bool_decide_eq_false_2.
Qed.

(** C8: the classes an image exposes are the values of its by-name table,
    and both dumps go through that table.  A class that is followed, in the
    traversal of the image, by another class of the same full type name is
    not in the table, neither under its name nor among its values, and
    neither dump visits it: the chunks of the assembly are those of the
    values of the table. *)
Theorem shadowed_class_not_dumped assembly image name before klass after later s :
  coherent s ->
  image_of assembly = Ok image ->
  assembly_name_of assembly = Ok name ->
  Forall (fun h => h ≠ 0) (class_handles image) ->
  class_handles image = before ++ klass :: after ->
  later ∈ after ->
  Class_type_name later = Class_type_name klass ->
  klass ∉ after ->
  exists acc,
    classes_of image = Ok acc
    /\ Accessor.get acc (Class_type_name klass) ≠ Some klass
    /\ (klass ∉ Accessor.values acc)
    /\ (exists s',
          collect (Il2CppDumper.classes_of_assembly assembly) s
          = (s', (Class_toString <$> Accessor.values acc), Ok ()))
    /\ (Forall (dumpable SystemType SystemObject) (Accessor.values acc) ->
        exists s',
          collect (Il2CppDumper.methods_of_assembly SystemType SystemObject assembly) s
          = (s', List.concat (class_lines SystemType SystemObject <$> Accessor.values acc),
             Ok ())).
Proof.
  intros Hs Hi Hn Hnz Hsplit Hlater Hname Hnot.
  assert (Hc : classes_of image = Ok (table_of (class_handles image))).
  { unfold classes_of. by rewrite bool_decide_eq_true_2. }
  assert (Habs : klass ∉ Accessor.values (table_of (class_handles image))).
  { rewrite Hsplit. by apply table_of_shadowed with later. }
  exists (table_of (class_handles image)).
  split; [exact Hc|]. split.
  { intros Hg. by apply Habs, Accessor_get_values with (Class_type_name klass). }
  split; [exact Habs|]. split.
  - destruct (classes_of_assembly_produces assembly image name _ Hi Hn Hc s Hs)
      as (s' & E & _). by exists s'.
  - intros Hd.
    destruct (methods_of_assembly_produces SystemType SystemObject
                assembly image name _ Hi Hn Hc Hd s Hs) as (s' & E & _).
    by exists s'.
Qed.

End DumpTheorems.

(** [Box<T>] of [generic_vm]: the abstract [Peek] gives no line. *)
Lemma methods_dump_lines_witness :
  dumpable (rt := Toy.runtime Toy.generic_vm) (Some 202) 1201 210
  /\ exists s',
      collect (Il2CppDumper.methods_of_class (rt := Toy.runtime Toy.generic_vm)
                 (Some 202) 1201 210) Session_init
      = (s', ["0x00002000 Box<System.Object>.Get" +:+ newline;
              "0x00002100 Box<System.Object>.Convert" +:+ newline], Ok ()).
Proof.
  assert (Hd : dumpable (rt := Toy.runtime Toy.generic_vm) (Some 202) 1201 210).
  { split; [intros _; vm_compute; split; [discriminate | reflexivity]|].
    intros method _ _ _.
    assert (Hm : Method_genericParameterCount (Runtime := Toy.runtime Toy.generic_vm)
                   method = 0
                 \/ Method_genericParameterCount (Runtime := Toy.runtime Toy.generic_vm)
                      method = 1).
    { cbn. unfold Toy.method_row_of. cbn.
      repeat (case_bool_decide; cbn; [auto|]). auto. }
    unfold valid_length. destruct Hm as [-> | ->]; vm_compute; split; congruence. }
  split; [exact Hd|].
  destruct (methods_dump_lines (rt := Toy.runtime Toy.generic_vm)
              (Some 202) 1201 210 Session_init Hd) as [[s' E] _].
  exists s'. rewrite E. reflexivity.
Defined.

Lemma shadowed_class_not_dumped_witness :
  class_handles (rt := Toy.runtime Toy.clash_vm) 101 = [] ++ 201 :: [202; 203]
  /\ Class_type_name (Runtime := Toy.runtime Toy.clash_vm) 203
     = Class_type_name (Runtime := Toy.runtime Toy.clash_vm) 201
  /\ exists s',
      collect (Il2CppDumper.classes_of_assembly (rt := Toy.runtime Toy.clash_vm) 1)
        Session_init
      = (s', ["class A.B.C {}"; "class A.D {}"], Ok ())
      /\ Call_imageGetClass 101 0 ∈ trace s'.
Proof.
  split; [reflexivity|]. split; [reflexivity|].
  destruct (shadowed_class_not_dumped (rt := Toy.runtime Toy.clash_vm) None 0
              1 101 "Game" [] 201 [202; 203] 203 Session_init)
    as (acc & Hacc & _ & _ & [s' E] & _).
  - apply coherent_init.
  - reflexivity.
  - reflexivity.
  - vm_compute. repeat constructor; discriminate.
  - reflexivity.
  - right. left.
  - reflexivity.
  - intros Hin. apply elem_of_cons in Hin as [?|Hin]; [discriminate|].
    apply elem_of_cons in Hin as [?|Hin]; [discriminate|]. inversion Hin.
  - exists s'.
    assert (Hv : acc = [("A.B.C", 203); ("A.D", 202)]).
    { vm_compute in Hacc. congruence. }
    rewrite Hv in E. split; [exact E|].
    pose proof E as E'. vm_compute in E'. injection E' as <-.
    vm_compute. repeat (first [left | right]).
Defined.

(** ** Inflation in the methods dump *)

Section InflationTheorems.
Context {rt : Runtime}.

Lemma classes_kept this s s' acc :
  Il2CppImage.classes this s = (s', Ok acc) -> Il2CppImage.classes this s' = (s', Ok acc).
Proof.
  unfold Il2CppImage.classes, cached. cbn [view classes_slot].
  destruct (classes_cache s !! this) as [v|] eqn:E.
  - intros [= <- <-]. by rewrite E.
  - match goal with |- context [match ?c s with _ => _ end] => destruct (c s) as [s1 [v|e]] end;
      [|discriminate].
    intros [= <- <-]. cbn. by rewrite lookup_insert_eq.
Qed.

(** C5: the generator that [methods()] installs passes, at every inflation of
    a class or of a method with generic parameter count k, a list of length k
    whose slots all hold the type object of corlib's [System.Object]. *)
Theorem inflation_placeholders this s s1 this' g :
  Il2CppDumper.methods this s = (s1, Ok this') ->
  Il2CppDumper.generator_ this' = Some g ->
  exists corlib_classes System_Object,
    Il2CppImage.classes Image_corlib s1 = (s1, Ok corlib_classes)
    /\ Accessor.get corlib_classes "System.Object" = Some System_Object
    /\ gen_emits (placeholder_inflation (Class_type_object System_Object)) g.
Proof.
  unfold Il2CppDumper.methods. unfold bind at 1.
  destruct (Il2CppImage.classes Image_corlib s) as [sA [c1|e1]] eqn:E1; [|discriminate].
  unfold bind at 1. rewrite (classes_kept _ _ _ _ E1).
  unfold bind, Il2CppDumper.member, ret, throw.
  destruct (Accessor.get c1 "System.Object") as [obj|] eqn:Eo; [|discriminate].
  intros [= <- <-]. cbn. intros [= <-].
  exists c1, obj. split; [by apply classes_kept with s|]. split; [exact Eo|].
  apply methods_generator_emits.
Qed.

(** The test that decides whether a method is inflated on its own reads
    [isGeneric] of the class whose methods are being dumped, that is, of the
    placeholder instantiation when the class of the image was generic. *)
Lemma method_inflation_test SystemType SystemObject klass method s :
  valid_length (Method_genericParameterCount method) ->
  trace (collect (Il2CppDumper.methods_of_method SystemType SystemObject klass method) s).1.1
  = trace s
    ++ (if Method_isGeneric method && negb (Class_isGeneric klass)
        then [Inflated_method method
                (placeholder_types SystemType SystemObject
                   (Method_genericParameterCount method))]
        else []).
Proof.
  intros Hk. unfold Il2CppDumper.methods_of_method. cbn [collect].
  destruct (Method_isGeneric method && negb (Class_isGeneric klass)).
  - unfold bind at 1. rewrite getTypeArray_run by exact Hk.
    unfold Il2CppDumper.Method_inflateRaw, bind, log, ret.
    destruct (negb _); reflexivity.
  - unfold ret. destruct (negb _); cbn; by rewrite app_nil_r.
Qed.

(** One run of the loop body over the methods of [klass]. *)
Lemma methods_of_method_run SystemType SystemObject klass method s :
  (Method_isGeneric method = true -> Class_isGeneric klass = false ->
   valid_length (Method_genericParameterCount method)) ->
  collect (Il2CppDumper.methods_of_method SystemType SystemObject klass method) s
  = (add_events
       (if Method_isGeneric method && negb (Class_isGeneric klass)
        then [Inflated_method method
                (placeholder_types SystemType SystemObject
                   (Method_genericParameterCount method))]
        else []) s,
     method_lines SystemType SystemObject klass method, Ok ()).
Proof.
  intros Hk. unfold Il2CppDumper.methods_of_method, method_lines, dumped_method.
  cbn [collect].
  destruct (Method_isGeneric method) eqn:Eg, (Class_isGeneric klass) eqn:Ec;
    cbn [andb negb].
  2:{ unfold bind at 1. rewrite getTypeArray_run by auto.
      unfold Il2CppDumper.Method_inflateRaw, bind, log, ret.
      case_bool_decide; reflexivity. }
  all: unfold ret; rewrite add_events_nil; case_bool_decide; reflexivity.
Qed.

(** C3, amended: while the methods of a class of an image are dumped, the
    inflations asked for are that of the class, when it is generic, and then,
    in the order of the methods of the dumped class (the placeholder
    instantiation when the class of the image was generic, the class itself
    otherwise), that of every method that is generic while the dumped
    class does not report [isGeneric].  So a method is inflated on its own
    if and only if it is generic and the class whose methods are being
    dumped does not report [isGeneric]; whether the class of the image was
    generic is not what is tested. *)
Theorem method_inflation_rule SystemType SystemObject klass s :
  dumpable SystemType SystemObject klass ->
  collect (Il2CppDumper.methods_of_class SystemType SystemObject klass) s
  = (add_events (class_inflations SystemType SystemObject klass) s,
     class_lines SystemType SystemObject klass, Ok ())
  /\ forall method types,
       Inflated_method method types ∈ class_inflations SystemType SystemObject klass
       <-> method ∈ Accessor.values
                      (Class_methods (dumped_class SystemType SystemObject klass))
           /\ Method_isGeneric method = true
           /\ Class_isGeneric (dumped_class SystemType SystemObject klass) = false
           /\ types = placeholder_types SystemType SystemObject
                        (Method_genericParameterCount method).
Proof.
  intros [Hk Hm]. split.
  - unfold Il2CppDumper.methods_of_class, class_inflations, class_lines, dumped_class.
    cbn [collect].
    destruct (Class_isGeneric klass) eqn:Eg.
    + unfold bind at 1. rewrite getTypeArray_run by auto.
      unfold Il2CppDumper.Class_inflateRaw, bind, log, ret.
      erewrite collect_for_events.
      * rewrite add_events_app. reflexivity.
      * intros method s0 Hin. apply methods_of_method_run.
        intros Hg Hc. apply Hm; [|exact Hg|]; unfold dumped_class; by rewrite Eg.
    + unfold ret. erewrite collect_for_events.
      * reflexivity.
      * intros method s0 Hin. apply methods_of_method_run.
        intros Hg Hc. apply Hm; [|exact Hg|]; unfold dumped_class; by rewrite Eg.
  - intros method types. unfold class_inflations.
    set (dumped := dumped_class SystemType SystemObject klass).
    rewrite elem_of_app. split.
    + intros [Hin|Hin].
      * destruct (Class_isGeneric klass); [|by apply elem_of_nil in Hin].
        apply list_elem_of_singleton in Hin. discriminate.
      * apply elem_of_concat in Hin as (evs & Hin & Hevs).
        apply list_elem_of_fmap in Hevs as (m & -> & Hm').
        destruct (Method_isGeneric m) eqn:Eg, (Class_isGeneric dumped) eqn:Ec;
          cbn [andb negb] in Hin; try by apply elem_of_nil in Hin.
        apply list_elem_of_singleton in Hin. injection Hin as -> ->. by rewrite Eg.
    + intros (Hin & Hg & Hc & ->). right.
      apply elem_of_concat. eexists. split; [|apply list_elem_of_fmap; eauto].
      cbn beta. rewrite Hg, Hc. cbn [andb negb]. by apply list_elem_of_singleton.
Qed.

End InflationTheorems.

Lemma inflation_placeholders_witness :
  exists s1 this',
    Il2CppDumper.methods (rt := Toy.runtime Toy.generic_vm) Il2CppDumper.new Session_init
    = (s1, Ok this')
    /\ Il2CppDumper.generator_ this'
       = Some (Il2CppDumper.methods_generator (rt := Toy.runtime Toy.generic_vm)
                 (Some 202) 1201)
    /\ gen_emits (placeholder_inflation (rt := Toy.runtime Toy.generic_vm) 1201)
         (Il2CppDumper.methods_generator (rt := Toy.runtime Toy.generic_vm) (Some 202) 1201).
Proof.
  destruct (Il2CppImage.classes (rt := Toy.runtime Toy.generic_vm) 101 Session_init)
    as [sA r] eqn:E1.
  assert (Hr : r = Ok [("System.Object", 201); ("System.Type", 202)]).
  { pose proof E1 as E. vm_compute in E. congruence. }
  subst r.
  assert (E : Il2CppDumper.methods (rt := Toy.runtime Toy.generic_vm) Il2CppDumper.new
                Session_init
              = (sA, Ok {| Il2CppDumper.directoryPath_ := None;
                           Il2CppDumper.fileName_ := None;
                           Il2CppDumper.extension_ := Some "ms";
                           Il2CppDumper.generator_ :=
                             Some (Il2CppDumper.methods_generator
                                     (rt := Toy.runtime Toy.generic_vm) (Some 202) 1201) |})).
  { unfold Il2CppDumper.methods. unfold bind at 1.
    change (Image_corlib (Runtime := Toy.runtime Toy.generic_vm)) with 101.
    rewrite E1. unfold bind at 1. rewrite (classes_kept _ _ _ _ E1). reflexivity. }
  destruct (inflation_placeholders (rt := Toy.runtime Toy.generic_vm)
              _ _ _ _ _ E eq_refl) as (c & obj & Ec & Eobj & Hg).
  eexists sA, _. split; [exact E|]. split; [reflexivity|].
  change (Image_corlib (Runtime := Toy.runtime Toy.generic_vm)) with 101 in Ec.
  rewrite (classes_kept _ _ _ _ E1) in Ec. injection Ec as <-.
  vm_compute in Eobj. injection Eobj as <-. exact Hg.
Defined.

(** C3 as stated fails at [Box<T>] of [generic_vm]: the class is generic and
    is inflated to [Box<System.Object>], which does not report [isGeneric];
    the generic method [Convert] of the generic class is then inflated on its
    own. *)
Lemma generic_method_of_generic_class_inflated :
  Class_isGeneric (Runtime := Toy.runtime Toy.generic_vm) 210 = true
  /\ dumped_class (rt := Toy.runtime Toy.generic_vm) (Some 202) 1201 210 = 211
  /\ Class_isGeneric (Runtime := Toy.runtime Toy.generic_vm) 211 = false
  /\ Accessor.get (Class_methods (Runtime := Toy.runtime Toy.generic_vm) 211) "Convert"
     = Some 303
  /\ Method_isGeneric (Runtime := Toy.runtime Toy.generic_vm) 303 = true
  /\ trace (collect (Il2CppDumper.methods_of_class (rt := Toy.runtime Toy.generic_vm)
                       (Some 202) 1201 210) Session_init).1.1
     = [Inflated_class 210 {| elementClass := Some 202; elements := [1201] |};
        Inflated_method 303 {| elementClass := Some 202; elements := [1201] |}].
Proof. repeat split; vm_compute; reflexivity. Qed.

(** The class [Box<T>] of [generic_vm]: the class is inflated, then its
    generic method [Convert]. *)
Lemma method_inflation_rule_witness :
  dumpable (rt := Toy.runtime Toy.generic_vm) (Some 202) 1201 210
  /\ collect (Il2CppDumper.methods_of_class (rt := Toy.runtime Toy.generic_vm)
                (Some 202) 1201 210) Session_init
     = (add_events
          [Inflated_class 210 {| elementClass := Some 202; elements := [1201] |};
           Inflated_method 303 {| elementClass := Some 202; elements := [1201] |}]
          Session_init,
        class_lines (rt := Toy.runtime Toy.generic_vm) (Some 202) 1201 210, Ok ())
  /\ Inflated_method 303 {| elementClass := Some 202; elements := [1201] |}
     ∈ class_inflations (rt := Toy.runtime Toy.generic_vm) (Some 202) 1201 210.
Proof.
  assert (Hd : dumpable (rt := Toy.runtime Toy.generic_vm) (Some 202) 1201 210).
  { split.
    - intros _. vm_compute. split; [discriminate | reflexivity].
    - intros method Hin _ _.
      change (method ∈ [301; 302; 303]) in Hin.
      apply elem_of_cons in Hin as [->|Hin];
        [vm_compute; split; [discriminate | reflexivity]|].
      apply elem_of_cons in Hin as [->|Hin];
        [vm_compute; split; [discriminate | reflexivity]|].
      apply list_elem_of_singleton in Hin as ->.
      vm_compute; split; [discriminate | reflexivity]. }
  split; [exact Hd|].
  destruct (method_inflation_rule (rt := Toy.runtime Toy.generic_vm)
              (Some 202) 1201 210 Session_init Hd) as [E Hiff].
  split; [exact E|].
  apply Hiff. split; [|split; [reflexivity|split; reflexivity]].
  apply (bool_decide_unpack _). vm_compute. exact I.
Defined.

(** ** The name of an assembly *)

(** C10 at the assembly [Tools.dll.Editor]: its image is named
    [Tools.dll.Editor.dll]; the first [.dll] is removed, not the extension,
    and the image name is not the assembly name plus [.dll]. *)
Theorem assembly_name_first_occurrence :
  Api_imageGetName (Runtime := Toy.runtime Toy.dotted_vm) 101 = Some "Tools.dll.Editor.dll"
  /\ (Il2CppAssembly.name (rt := Toy.runtime Toy.dotted_vm) 1 Session_init).2
     = Ok "Tools.Editor.dll"
  /\ "Tools.Editor.dll" +:+ ".dll" ≠ "Tools.dll.Editor.dll".
Proof. split; [reflexivity|]. split; [vm_compute; reflexivity | discriminate]. Qed.

(** Where the extension is the only [.dll] of the image name, removing the
    first occurrence does strip it. *)
Lemma replace_extension_at_end (base : string) :
  (forall u v, base = u +:+ v -> v ≠ "" -> String.prefix ".dll" (v +:+ ".dll") = false) ->
  JS.replace ".dll" "" (base +:+ ".dll") = base.
Proof.
  induction base as [|c base IH]; intros Hfirst; [reflexivity|].
  assert (Hhere : String.prefix ".dll" (String c base +:+ ".dll") = false)
    by (apply (Hfirst "" (String c base)); [reflexivity | discriminate]).
  change (String c base +:+ ".dll") with (String c (base +:+ ".dll")) in *.
  cbn [JS.replace]. rewrite Hhere. f_equal. apply IH.
  intros u v -> Hv. apply (Hfirst (String c u) v); [reflexivity | exact Hv].
Qed.

(** An image name that ends with its only [.dll] loses it. *)
Example assembly_name_mscorlib :
  (Il2CppAssembly.name (rt := Toy.runtime Toy.generic_vm) 1 Session_init).2 = Ok "mscorlib".
Proof. vm_compute. reflexivity. Qed.

(** * Further properties of the code *)

(** ** The class table: empty images and null handles *)

Section ImageEdges.
Context {rt : Runtime}.

(** An image whose class count is not positive has an empty class table,
    and no class is requested from the VM for it. *)
Theorem classes_empty_image this s :
  coherent s ->
  classes_cache s !! this = None ->
  Api_imageGetClassCount this <= 0 ->
  exists s',
    Il2CppImage.classes this s = (s', Ok Accessor.empty)
    /\ trace s'
       = trace s
         ++ (if unityVersion_isLegacy
             then classStart_reads s this ++ classCount_reads s this
                  ++ [Memory_allocated Process_pointerSize (heap_next s)]
             else classCount_reads s this).
Proof.
  intros Hs Hmiss Hc.
  assert (Hh : class_handles this = []).
  { unfold class_handles. destruct unityVersion_isLegacy; by rewrite seqZ_nil. }
  destruct (classes_run this s Hs) as (s' & E & _ & _ & Ht & _).
  { rewrite Hh. constructor. }
  rewrite Hh in E. exists s'. split; [exact E|].
  rewrite (Ht Hmiss). unfold classes_trace.
  destruct unityVersion_isLegacy; rewrite seqZ_nil by exact Hc; cbn; [|by rewrite app_nil_r].
  reflexivity.
Qed.

Lemma current_loop_null this l1 n l2 acc s :
  Forall (fun i => Api_imageGetClass this i ≠ 0) l1 ->
  Api_imageGetClass this n = 0 ->
  foldM (fun accessor i =>
           let* handle := Il2CppImage.Api_imageGetClass_call this i in
           let* klass := Il2CppImage.new_Il2CppClass handle in
           ret (Accessor.set accessor (Class_type_name klass) klass)) (l1 ++ n :: l2) acc s
  = (add_events (Call_imageGetClass this <$> (l1 ++ [n])) s, Err InvalidHandle).
Proof.
  intros Hl Hn. revert acc s. induction Hl as [|i l Hi Hl IH]; intros acc s.
  - cbn [app foldM]. unfold bind at 1.
    unfold Il2CppImage.Api_imageGetClass_call, Il2CppImage.new_Il2CppClass,
      NativeStruct.nonNullHandle, bind, log, ret, throw.
    by rewrite bool_decide_eq_true_2 by exact Hn.
  - cbn [app foldM]. unfold bind at 1.
    unfold Il2CppImage.Api_imageGetClass_call, Il2CppImage.new_Il2CppClass,
      NativeStruct.nonNullHandle, bind, log, ret, throw.
    rewrite bool_decide_eq_false_2 by exact Hi.
    rewrite IH, add_events_app. reflexivity.
Qed.

(** Under the current layout, when the VM hands out a null class handle at
    index [n], the classes before [n] are requested, then [n], and nothing
    after it; [classes] fails with InvalidHandle and keeps nothing in its
    slot, so a later access starts again from index 0. *)
Theorem classes_first_null_handle this n s :
  unityVersion_isLegacy = false ->
  coherent s ->
  classes_cache s !! this = None ->
  0 <= n < Api_imageGetClassCount this ->
  (forall i, 0 <= i < n -> Api_imageGetClass this i ≠ 0) ->
  Api_imageGetClass this n = 0 ->
  exists s',
    Il2CppImage.classes this s = (s', Err InvalidHandle)
    /\ trace s' = trace s ++ classCount_reads s this
                  ++ (Call_imageGetClass this <$> seqZ 0 (n + 1))
    /\ classes_cache s' !! this = None
    /\ coherent s'.
Proof.
  intros Hcur Hs Hmiss Hn Hbefore Hnull.
  unfold Il2CppImage.classes, cached. cbn [view classes_slot]. rewrite Hmiss, Hcur.
  unfold bind at 1.
  destruct (classCount_run this s Hs) as (s1 & E1 & Hs1 & T1 & _ & _ & K1).
  rewrite E1.
  assert (Hsplit : seqZ 0 (Api_imageGetClassCount this)
                   = seqZ 0 n ++ n :: seqZ (Z.succ n) (Z.pred (Api_imageGetClassCount this - n))).
  { replace (Api_imageGetClassCount this) with (n + (Api_imageGetClassCount this - n)) at 1
      by lia.
    rewrite seqZ_app by lia. f_equal. rewrite Z.add_0_l. apply seqZ_cons. lia. }
  rewrite Hsplit, current_loop_null.
  2:{ apply Forall_seqZ. intros i Hi. apply Hbefore. lia. }
  2:{ exact Hnull. }
  eexists. split; [reflexivity|]. cbn [trace add_events classes_cache].
  split.
  { assert (Hupto : seqZ 0 (n + 1) = seqZ 0 n ++ [n]).
    { rewrite seqZ_app by lia. by rewrite Z.add_0_l. }
    by rewrite T1, Hupto, <- app_assoc. }
  split; [by rewrite K1 | by apply coherent_add_events].
Qed.

End ImageEdges.

Lemma classes_empty_image_witness :
  coherent (rt := Toy.runtime Toy_bare_vm) Session_init
  /\ Api_imageGetClassCount (Runtime := Toy.runtime Toy_bare_vm) 103 <= 0
  /\ exists s',
      Il2CppImage.classes (rt := Toy.runtime Toy_bare_vm) 103 Session_init = (s', Ok [])
      /\ trace s' = [Call_imageGetClassCount 103].
Proof.
  assert (Hc : coherent (rt := Toy.runtime Toy_bare_vm) Session_init)
    by apply coherent_init.
  split; [exact Hc|]. split; [vm_compute; discriminate|].
  destruct (classes_empty_image (rt := Toy.runtime Toy_bare_vm) 103 Session_init Hc)
    as (s' & E & T).
  - reflexivity.
  - vm_compute. discriminate.
  - exists s'. split; [exact E | exact T].
Defined.

Lemma classes_first_null_handle_witness :
  Api_imageGetClass (Runtime := Toy.runtime Toy.broken_vm) 102 0 = 0
  /\ exists s',
      Il2CppImage.classes (rt := Toy.runtime Toy.broken_vm) 102 Session_init
      = (s', Err InvalidHandle)
      /\ trace s' = [Call_imageGetClassCount 102; Call_imageGetClass 102 0]
      /\ classes_cache s' !! 102 = None.
Proof.
  split; [reflexivity|].
  destruct (classes_first_null_handle (rt := Toy.runtime Toy.broken_vm) 102 0 Session_init)
    as (s' & E & T & K & _).
  - reflexivity.
  - apply coherent_init.
  - reflexivity.
  - vm_compute. split; [discriminate | reflexivity].
  - intros i Hi. lia.
  - reflexivity.
  - exists s'. split; [exact E|]. split; [exact T | exact K].
Defined.

(** ** The name of an assembly *)

Lemma string_drop_length (s : string) : string_drop (String.length s) s = "".
Proof. induction s as [|c s IH]; [reflexivity | exact IH]. Qed.

Lemma prefix_refl (s : string) : String.prefix s s = true.
Proof.
  induction s as [|c s IH]; [reflexivity|]. cbn.
  destruct (ascii_dec c c); [exact IH | congruence].
Qed.

(** Without an occurrence of the pattern, [replace] returns the string. *)
Lemma replace_not_found pattern replacement s :
  indexOf pattern s = None -> JS.replace pattern replacement s = s.
Proof.
  induction s as [|c s IH]; cbn [indexOf JS.replace].
  - by destruct (String.prefix pattern "").
  - destruct (String.prefix pattern (String c s)); [discriminate|].
    destruct (indexOf pattern s); [discriminate|]. intros _. by rewrite IH.
Qed.

(** When the first occurrence of the pattern is the end of the string,
    [replace] with the empty string cuts it off. *)
Lemma replace_found_at_end pattern base :
  indexOf pattern (base +:+ pattern) = Some (String.length base) ->
  JS.replace pattern "" (base +:+ pattern) = base.
Proof.
  induction base as [|c base IH].
  - intros _. change ("" +:+ pattern) with pattern.
    destruct pattern as [|p pattern]; [reflexivity|].
    cbn [JS.replace]. rewrite prefix_refl.
    by rewrite string_drop_length.
  - change (String c base +:+ pattern) with (String c (base +:+ pattern)).
    cbn [indexOf JS.replace String.length].
    destruct (String.prefix pattern (String c (base +:+ pattern))); [discriminate|].
    destruct (indexOf pattern (base +:+ pattern)) as [i|] eqn:E; [|discriminate].
    intros [= ->]. by rewrite IH.
Qed.

Section AssemblyNameTheorems.
Context {rt : Runtime}.

Lemma denotes_cached_Err {A} (slot : Slot A) this (compute : M Session A) e :
  (forall s v', coherent s -> view slot s !! this = Some v' -> False) ->
  denotes compute (Err e) -> denotes (cached slot this compute) (Err e).
Proof.
  intros Hview Hc s Hs. unfold cached.
  destruct (view slot s !! this) as [v'|] eqn:E.
  - destruct (Hview s v' Hs E).
  - destruct (Hc s Hs) as (s1 & E1 & Hs1). rewrite E1. by exists s1.
Qed.

Lemma image_denotes_any this : denotes (Il2CppAssembly.image this) (image_of this).
Proof.
  destruct (image_of this) as [img|e] eqn:Himg; [by apply image_denotes|].
  unfold image_of in Himg. case_bool_decide as Hz; [|discriminate].
  injection Himg as <-.
  unfold Il2CppAssembly.image. apply denotes_cached_Err.
  - intros s v' Hs Hv. pose proof (coherent_image s Hs _ _ Hv) as Hi.
    unfold image_of in Hi. by rewrite bool_decide_eq_true_2 in Hi.
  - eapply denotes_bind.
    + unfold Il2CppAssembly.Api_assemblyGetImage_call.
      eapply denotes_bind; [apply denotes_log | apply denotes_ret].
    + unfold Il2CppAssembly.new_Il2CppImage, NativeStruct.nonNullHandle.
      rewrite bool_decide_eq_true_2 by exact Hz. intros s Hs. by exists s.
Qed.

Lemma assembly_name_denotes_any this :
  denotes (Il2CppAssembly.name this) (assembly_name_of this).
Proof.
  destruct (assembly_name_of this) as [n|e] eqn:Hn; [by apply assembly_name_denotes|].
  unfold Il2CppAssembly.name. apply denotes_cached_Err.
  - intros s v' Hs Hv. pose proof (coherent_assembly_name s Hs _ _ Hv). congruence.
  - unfold assembly_name_of in Hn.
    destruct (image_of this) as [img|e'] eqn:Himg; cbn in Hn.
    + eapply denotes_bind; [rewrite <- Himg; apply image_denotes_any|].
      eapply denotes_bind; [apply image_name_denotes|].
      destruct (Api_imageGetName img); [discriminate|].
      injection Hn as <-. intros s Hs. by exists s.
    + injection Hn as <-. apply denotes_bind_Err.
      rewrite <- Himg. apply image_denotes_any.
Qed.

(** Whatever has been read before, [name] returns what the VM says now:
    InvalidHandle when the assembly has no image, TypeError when the image
    has no name, and otherwise the image name with its first [.dll]
    removed. *)
Theorem assembly_name_from_vm this s :
  coherent s ->
  exists s',
    Il2CppAssembly.name this s
    = (s', if bool_decide (Api_assemblyGetImage this = 0) then Err InvalidHandle
           else match Api_imageGetName (Api_assemblyGetImage this) with
                | None => Err TypeError
                | Some n => Ok (JS.replace ".dll" "" n)
                end)
    /\ coherent s'.
Proof.
  intros Hs. destruct (assembly_name_denotes_any this s Hs) as (s' & E & Hs').
  exists s'. split; [|exact Hs']. rewrite E. f_equal.
  unfold assembly_name_of, image_of. by case_bool_decide.
Qed.

(** An image named [<base>.dll] whose first [.dll] is its extension belongs
    to the assembly named [<base>]: the image name is the assembly name plus
    the extension. *)
Theorem assembly_name_strips_extension this base s :
  coherent s ->
  Api_assemblyGetImage this ≠ 0 ->
  Api_imageGetName (Api_assemblyGetImage this) = Some (base +:+ ".dll") ->
  indexOf ".dll" (base +:+ ".dll") = Some (String.length base) ->
  exists s', Il2CppAssembly.name this s = (s', Ok base).
Proof.
  intros Hs Hi Hn Hfirst.
  destruct (assembly_name_denotes_any this s Hs) as (s' & E & _).
  exists s'. rewrite E. f_equal.
  unfold assembly_name_of, image_of. rewrite bool_decide_eq_false_2 by exact Hi.
  cbn. rewrite Hn. f_equal. by apply replace_found_at_end.
Qed.

(** An image whose name holds no [.dll] gives its name to the assembly
    unchanged. *)
Theorem assembly_name_without_extension this n s :
  coherent s ->
  Api_assemblyGetImage this ≠ 0 ->
  Api_imageGetName (Api_assemblyGetImage this) = Some n ->
  indexOf ".dll" n = None ->
  exists s', Il2CppAssembly.name this s = (s', Ok n).
Proof.
  intros Hs Hi Hn Hnone.
  destruct (assembly_name_denotes_any this s Hs) as (s' & E & _).
  exists s'. rewrite E. f_equal.
  unfold assembly_name_of, image_of. rewrite bool_decide_eq_false_2 by exact Hi.
  cbn. rewrite Hn. f_equal. by apply replace_not_found.
Qed.

End AssemblyNameTheorems.

(** An assembly the VM knows no image for. *)
Lemma assembly_name_from_vm_witness :
  coherent (rt := Toy.runtime Toy_bare_vm) Session_init
  /\ exists s',
      Il2CppAssembly.name (rt := Toy.runtime Toy_bare_vm) 9 Session_init
      = (s', Err InvalidHandle).
Proof.
  assert (Hc : coherent (rt := Toy.runtime Toy_bare_vm) Session_init)
    by apply coherent_init.
  split; [exact Hc|].
  destruct (assembly_name_from_vm (rt := Toy.runtime Toy_bare_vm) 9 Session_init Hc)
    as (s' & E & _).
  exists s'. exact E.
Defined.

Lemma assembly_name_strips_extension_witness :
  indexOf ".dll" ("UnityEngine" +:+ ".dll") = Some (String.length "UnityEngine")
  /\ exists s',
      Il2CppAssembly.name (rt := Toy.runtime Toy_bare_vm) 2 Session_init
      = (s', Ok "UnityEngine").
Proof.
  split; [reflexivity|].
  apply (assembly_name_strips_extension (rt := Toy.runtime Toy_bare_vm) 2 "UnityEngine"
           Session_init).
  - apply coherent_init.
  - vm_compute. discriminate.
  - reflexivity.
  - reflexivity.
Defined.

Lemma assembly_name_without_extension_witness :
  indexOf ".dll" "Empty" = None
  /\ exists s',
      Il2CppAssembly.name (rt := Toy.runtime Toy_bare_vm) 3 Session_init = (s', Ok "Empty").
Proof.
  split; [reflexivity|].
  apply (assembly_name_without_extension (rt := Toy.runtime Toy_bare_vm) 3 "Empty"
           Session_init).
  - apply coherent_init.
  - vm_compute. discriminate.
  - reflexivity.
  - reflexivity.
Defined.

(** ** Whole dumps *)

Section WholeDumps.
Context {rt : Runtime}.

Lemma classes_generator_produces asms :
  assemblies_of = Ok asms ->
  Forall readable (Accessor.values asms) ->
  produces Il2CppDumper.classes_generator
    (List.concat ((fun a => Class_toString <$> assembly_classes a) <$> Accessor.values asms)).
Proof.
  intros Hasms Hread. unfold Il2CppDumper.classes_generator.
  eapply produces_Step; [by apply assemblies_denotes|].
  apply produces_for. intros a Ha.
  rewrite Forall_forall in Hread.
  destruct (Hread a Ha) as (image & name & acc & Hi & Hn & Hc).
  unfold assembly_classes. rewrite Hi, Hc.
  by apply classes_of_assembly_produces with image name.
Qed.

Lemma methods_generator_produces SystemType SystemObject asms :
  assemblies_of = Ok asms ->
  Forall readable (Accessor.values asms) ->
  Forall (fun a => Forall (dumpable SystemType SystemObject) (assembly_classes a))
         (Accessor.values asms) ->
  produces (Il2CppDumper.methods_generator SystemType SystemObject)
    (List.concat ((fun a => List.concat (class_lines SystemType SystemObject
                                           <$> assembly_classes a))
                    <$> Accessor.values asms)).
Proof.
  intros Hasms Hread Hdump. unfold Il2CppDumper.methods_generator.
  eapply produces_Step; [by apply assemblies_denotes|].
  apply produces_for. intros a Ha.
  rewrite Forall_forall in Hread, Hdump.
  destruct (Hread a Ha) as (image & name & acc & Hi & Hn & Hc).
  pose proof (Hdump a Ha) as Hd.
  unfold assembly_classes in *. rewrite Hi, Hc in *.
  by apply methods_of_assembly_produces with image name.
Qed.

(** The classes dump hands out, for every assembly of the domain in the
    order of the domain's table, the string form of every class of the
    table of its image, in the order of that table, and then ends. *)
Theorem classes_dump_chunks asms s :
  coherent s ->
  assemblies_of = Ok asms ->
  Forall readable (Accessor.values asms) ->
  exists s',
    collect Il2CppDumper.classes_generator s
    = (s', List.concat ((fun a => Class_toString <$> assembly_classes a)
                          <$> Accessor.values asms), Ok ())
    /\ coherent s'.
Proof.
  intros Hs Hasms Hread.
  exact (classes_generator_produces asms Hasms Hread s Hs).
Qed.

(** The methods dump hands out, assembly after assembly and class after
    class, the lines of the methods that have a virtual address, and then
    ends. *)
Theorem methods_dump_chunks SystemType SystemObject asms s :
  coherent s ->
  assemblies_of = Ok asms ->
  Forall readable (Accessor.values asms) ->
  Forall (fun a => Forall (dumpable SystemType SystemObject) (assembly_classes a))
         (Accessor.values asms) ->
  exists s',
    collect (Il2CppDumper.methods_generator SystemType SystemObject) s
    = (s', List.concat ((fun a => List.concat (class_lines SystemType SystemObject
                                                 <$> assembly_classes a))
                          <$> Accessor.values asms), Ok ())
    /\ coherent s'.
Proof.
  intros Hs Hasms Hread Hdump.
  exact (methods_generator_produces SystemType SystemObject asms Hasms Hread Hdump s Hs).
Qed.

End WholeDumps.

Lemma Toy_bare_readable :
  Forall (readable (rt := Toy.runtime Toy_bare_vm)) [1; 2; 3].
Proof.
  repeat constructor.
  - exists 101, "mscorlib", [("System.Object", 201); ("System.Type", 202)].
    repeat split; vm_compute; reflexivity.
  - exists 102, "UnityEngine", [("UnityEngine.Object", 220)].
    repeat split; vm_compute; reflexivity.
  - exists 103, "Empty", []. repeat split; vm_compute; reflexivity.
Qed.

Lemma Toy_bare_no_generic_class k :
  Class_isGeneric (Runtime := Toy.runtime Toy_bare_vm) k = false.
Proof.
  cbn. unfold Toy.class_row_of. cbn.
  repeat (case_bool_decide; cbn; [reflexivity|]). reflexivity.
Qed.

Lemma Toy_bare_no_generic_method m :
  Method_isGeneric (Runtime := Toy.runtime Toy_bare_vm) m = false.
Proof.
  cbn. unfold Toy.method_row_of. cbn.
  repeat (case_bool_decide; cbn; [reflexivity|]). reflexivity.
Qed.

Lemma Toy_bare_dumpable k :
  dumpable (rt := Toy.runtime Toy_bare_vm) (Some 202) 1201 k.
Proof.
  split.
  - rewrite Toy_bare_no_generic_class. discriminate.
  - intros m _. rewrite Toy_bare_no_generic_method. discriminate.
Qed.

Lemma classes_dump_chunks_witness :
  assemblies_of (rt := Toy.runtime Toy_bare_vm)
  = Ok [("mscorlib", 1); ("UnityEngine", 2); ("Empty", 3)]
  /\ exists s',
      collect (Il2CppDumper.classes_generator (rt := Toy.runtime Toy_bare_vm)) Session_init
      = (s', ["class System.Object {}"; "class System.Type {}";
              "class UnityEngine.Object {}"], Ok ()).
Proof.
  assert (Ha : assemblies_of (rt := Toy.runtime Toy_bare_vm)
               = Ok [("mscorlib", 1); ("UnityEngine", 2); ("Empty", 3)])
    by (vm_compute; reflexivity).
  split; [exact Ha|].
  destruct (classes_dump_chunks (rt := Toy.runtime Toy_bare_vm) _ Session_init
              (coherent_init (rt := Toy.runtime Toy_bare_vm)) Ha Toy_bare_readable)
    as (s' & E & _).
  exists s'. rewrite E. reflexivity.
Defined.

Lemma methods_dump_chunks_witness :
  exists s',
    collect (Il2CppDumper.methods_generator (rt := Toy.runtime Toy_bare_vm) (Some 202) 1201)
      Session_init
    = (s', ["0x00001000 UnityEngine.Object.ToString" +:+ newline], Ok ()).
Proof.
  assert (Ha : assemblies_of (rt := Toy.runtime Toy_bare_vm)
               = Ok [("mscorlib", 1); ("UnityEngine", 2); ("Empty", 3)])
    by (vm_compute; reflexivity).
  destruct (methods_dump_chunks (rt := Toy.runtime Toy_bare_vm) (Some 202) 1201 _
              Session_init (coherent_init (rt := Toy.runtime Toy_bare_vm)) Ha
              Toy_bare_readable) as (s' & E & _).
  - apply Forall_forall. intros a _. apply Forall_forall. intros k _.
    apply Toy_bare_dumpable.
  - exists s'. rewrite E. reflexivity.
Defined.

(** ** The defaults of the dumper *)

Section DefaultsTheorems.
Context {rt : Runtime}.

Lemma Application_denotes_missing asms :
  assemblies_of = Ok asms ->
  getUntilFound asms ["UnityEngine.CoreModule"; "UnityEngine"] = None ->
  denotes Il2CppDumper.Application (Err TypeError).
Proof.
  intros Hasms Hnone. unfold Il2CppDumper.Application.
  eapply denotes_bind; [by apply assemblies_denotes|].
  apply denotes_bind_Err. rewrite Hnone. apply (member_denotes None).
Qed.

(** The guarded block of [defaultFileName] starts after the lookup of the
    UnityEngine assembly: when the domain has neither
    [UnityEngine.CoreModule] nor [UnityEngine], both defaults fail with a
    TypeError, and no timestamp is used. *)
Theorem defaults_without_UnityEngine asms s :
  coherent s ->
  assemblies_of = Ok asms ->
  getUntilFound asms ["UnityEngine.CoreModule"; "UnityEngine"] = None ->
  (exists s', Il2CppDumper.defaultFileName s = (s', Err TypeError))
  /\ (exists s', Il2CppDumper.defaultDirectoryPath s = (s', Err TypeError)).
Proof.
  intros Hs Hasms Hnone.
  pose proof (Application_denotes_missing asms Hasms Hnone) as Happ.
  assert (Hf : denotes Il2CppDumper.defaultFileName (Err TypeError)).
  { unfold Il2CppDumper.defaultFileName. by apply denotes_bind_Err. }
  assert (Hd : denotes Il2CppDumper.defaultDirectoryPath (Err TypeError)).
  { unfold Il2CppDumper.defaultDirectoryPath. by apply denotes_bind_Err. }
  split.
  - destruct (Hf s Hs) as (s' & E & _). exists s'. exact E.
  - destruct (Hd s Hs) as (s' & E & _). exists s'. exact E.
Qed.

(** When the UnityEngine image has no [UnityEngine.Application] class, the
    default file name is the timestamp, while the default directory path
    fails with a TypeError. *)
Theorem defaults_without_Application s :
  coherent s ->
  Application_of = Ok None ->
  (exists s', Il2CppDumper.defaultFileName s = (s', Ok (number_toString Date_getTime)))
  /\ (exists s', Il2CppDumper.defaultDirectoryPath s = (s', Err TypeError)).
Proof.
  intros Hs Happ. split.
  - destruct (defaultFileName_denotes None Happ s Hs) as (s' & E & _).
    exists s'. exact E.
  - assert (Hd : denotes Il2CppDumper.defaultDirectoryPath (Err TypeError)).
    { unfold Il2CppDumper.defaultDirectoryPath.
      eapply denotes_bind; [by apply Application_denotes|].
      apply denotes_bind_Err. apply (member_denotes None). }
    destruct (Hd s Hs) as (s' & E & _). exists s'. exact E.
Qed.

Lemma build_configured this directory name s fs :
  Il2CppDumper.directoryPath_ this = Some directory ->
  Il2CppDumper.fileName_ this = Some name ->
  Il2CppDumper.build this (s, fs)
  = build_outcome this
      (directory +:+ "/" +:+ name +:+ "." +:+ default "dump" (Il2CppDumper.extension_ this))
      s fs.
Proof.
  intros Hd Hn. rewrite <- build_at_run.
  unfold Il2CppDumper.build. rewrite Hd, Hn. reflexivity.
Qed.

(** With a directory configured and no file name, [build] does not read the
    host's persistent-data path: it only needs the UnityEngine image, and
    writes to [<directory>/<base>.<extension>]. *)
Theorem build_directory_only this directory app s fs :
  coherent s ->
  Il2CppDumper.directoryPath_ this = Some directory ->
  Il2CppDumper.fileName_ this = None ->
  Application_of = Ok app ->
  exists s1,
    Il2CppDumper.build this (s, fs)
    = build_outcome this
        (directory +:+ "/" +:+ default_base_name app +:+ "."
         +:+ default "dump" (Il2CppDumper.extension_ this))
        s1 fs.
Proof.
  intros Hs Hd Hn Happ.
  destruct (defaultFileName_denotes _ Happ s Hs) as (s1 & E1 & Hs1).
  exists s1. rewrite <- build_at_run.
  unfold Il2CppDumper.build. rewrite Hd, Hn.
  unfold bind at 1, ret at 1.
  unfold bind at 1, liftL at 1. cbn [fst snd]. rewrite E1.
  reflexivity.
Qed.

(** With a file name configured and no directory, [build] writes to
    [<persistentDataPath>/<name>.<extension>]; the directory is the text
    [null] when the host returns a null string. *)
Theorem build_fileName_only this name directory s fs :
  coherent s ->
  Il2CppDumper.directoryPath_ this = None ->
  Il2CppDumper.fileName_ this = Some name ->
  persistentDataPath_of = Ok directory ->
  exists s1,
    Il2CppDumper.build this (s, fs)
    = build_outcome this
        (template directory +:+ "/" +:+ name +:+ "."
         +:+ default "dump" (Il2CppDumper.extension_ this))
        s1 fs.
Proof.
  intros Hs Hd Hn Hdir.
  destruct (defaultDirectoryPath_denotes _ Hdir s Hs) as (s1 & E1 & Hs1).
  exists s1. rewrite <- build_at_run.
  unfold Il2CppDumper.build. rewrite Hd, Hn.
  unfold bind at 1, liftL at 1. cbn [fst snd]. rewrite E1.
  reflexivity.
Qed.

End DefaultsTheorems.

Lemma defaults_without_UnityEngine_witness :
  assemblies_of (rt := Toy.runtime Toy.generic_vm) = Ok [("mscorlib", 1); ("A", 2)]
  /\ exists s',
      Il2CppDumper.defaultFileName (rt := Toy.runtime Toy.generic_vm) Session_init
      = (s', Err TypeError).
Proof.
  assert (Ha : assemblies_of (rt := Toy.runtime Toy.generic_vm)
               = Ok [("mscorlib", 1); ("A", 2)]) by (vm_compute; reflexivity).
  split; [exact Ha|].
  destruct (defaults_without_UnityEngine (rt := Toy.runtime Toy.generic_vm) _ Session_init
              (coherent_init (rt := Toy.runtime Toy.generic_vm)) Ha eq_refl) as [H _].
  exact H.
Defined.

Lemma defaults_without_Application_witness :
  Application_of (rt := Toy.runtime Toy_bare_vm) = Ok None
  /\ (exists s',
        Il2CppDumper.defaultFileName (rt := Toy.runtime Toy_bare_vm) Session_init
        = (s', Ok "1700000000000"))
  /\ (exists s',
        Il2CppDumper.defaultDirectoryPath (rt := Toy.runtime Toy_bare_vm) Session_init
        = (s', Err TypeError)).
Proof.
  assert (Ha : Application_of (rt := Toy.runtime Toy_bare_vm) = Ok None)
    by (vm_compute; reflexivity).
  split; [exact Ha|].
  exact (defaults_without_Application (rt := Toy.runtime Toy_bare_vm) Session_init
           (coherent_init (rt := Toy.runtime Toy_bare_vm)) Ha).
Defined.

Lemma build_directory_only_witness :
  Application_of (rt := Toy.runtime Toy_bare_vm) = Ok None
  /\ exists s1,
      Il2CppDumper.build (rt := Toy.runtime Toy_bare_vm)
        (Il2CppDumper.directoryPath
           (Il2CppDumper.classes (rt := Toy.runtime Toy_bare_vm) Il2CppDumper.new) "/sdcard")
        (Session_init, File.FileSystem_init)
      = build_outcome (rt := Toy.runtime Toy_bare_vm)
          (Il2CppDumper.directoryPath
             (Il2CppDumper.classes (rt := Toy.runtime Toy_bare_vm) Il2CppDumper.new)
             "/sdcard")
          "/sdcard/1700000000000.cs" s1 File.FileSystem_init.
Proof.
  assert (Ha : Application_of (rt := Toy.runtime Toy_bare_vm) = Ok None)
    by (vm_compute; reflexivity).
  split; [exact Ha|].
  exact (build_directory_only (rt := Toy.runtime Toy_bare_vm)
           (Il2CppDumper.directoryPath
              (Il2CppDumper.classes (rt := Toy.runtime Toy_bare_vm) Il2CppDumper.new)
              "/sdcard")
           "/sdcard" None Session_init File.FileSystem_init
           (coherent_init (rt := Toy.runtime Toy_bare_vm)) eq_refl eq_refl Ha).
Defined.

Lemma build_fileName_only_witness :
  persistentDataPath_of (rt := Toy.runtime Toy.host_vm) = Ok (Some "/data/files")
  /\ exists s1,
      Il2CppDumper.build (rt := Toy.runtime Toy.host_vm)
        (Il2CppDumper.fileName
           (Il2CppDumper.classes (rt := Toy.runtime Toy.host_vm) Il2CppDumper.new) "dump1")
        (Session_init, File.FileSystem_init)
      = build_outcome (rt := Toy.runtime Toy.host_vm)
          (Il2CppDumper.fileName
             (Il2CppDumper.classes (rt := Toy.runtime Toy.host_vm) Il2CppDumper.new) "dump1")
          "/data/files/dump1.cs" s1 File.FileSystem_init.
Proof.
  assert (Hp : persistentDataPath_of (rt := Toy.runtime Toy.host_vm)
               = Ok (Some "/data/files")) by (vm_compute; reflexivity).
  split; [exact Hp|].
  exact (build_fileName_only (rt := Toy.runtime Toy.host_vm)
           (Il2CppDumper.fileName
              (Il2CppDumper.classes (rt := Toy.runtime Toy.host_vm) Il2CppDumper.new)
              "dump1")
           "dump1" (Some "/data/files") Session_init File.FileSystem_init
           (coherent_init (rt := Toy.runtime Toy.host_vm)) eq_refl eq_refl Hp).
Defined.

(** ** build: what is left on disk *)

Section BuildEdges.
Context {rt : Runtime}.

(** [build] on a dumper for which no dump kind was selected: the file
    [<directory>/<name>.dump] is created empty, then the call of the missing
    generator fails with a TypeError and the file stays open. *)
Theorem build_without_kind directory name s fs :
  File_openable (directory +:+ "/" +:+ name +:+ ".dump") = true ->
  Il2CppDumper.build
    (Il2CppDumper.fileName (Il2CppDumper.directoryPath Il2CppDumper.new directory) name)
    (s, fs)
  = ((s, {| File.disk := <[directory +:+ "/" +:+ name +:+ ".dump" := ""]> (File.disk fs);
            File.files :=
              File.files fs
              ++ [{| File.path := directory +:+ "/" +:+ name +:+ ".dump";
                     File.pending := ""; File.opened := true |}];
            File.operations :=
              File.operations fs
              ++ [File.Opened (directory +:+ "/" +:+ name +:+ ".dump")] |}),
     Err TypeError).
Proof.
  intros Hopen. rewrite (build_configured _ directory name) by reflexivity.
  unfold build_outcome. cbn [Il2CppDumper.extension_ Il2CppDumper.generator_
    Il2CppDumper.fileName Il2CppDumper.directoryPath Il2CppDumper.new default
    from_option id].
  change (File_openable (directory +:+ "/" +:+ name +:+ "." +:+ "dump") = true) in Hopen.
  rewrite Hopen. unfold dumped. cbn [negb joined foldr fmap list_fmap].
  rewrite app_nil_r. reflexivity.
Qed.

(** A [build] whose generator ends normally leaves on disk, under the
    destination path, exactly the chunks put end to end, whatever the file
    held before; the other files on disk and the file objects that existed
    are untouched, and the new file object is closed with nothing
    pending. *)
Theorem build_success this directory name g s s' chunks fs :
  Il2CppDumper.directoryPath_ this = Some directory ->
  Il2CppDumper.fileName_ this = Some name ->
  Il2CppDumper.generator_ this = Some g ->
  File_openable (directory +:+ "/" +:+ name +:+ "."
                 +:+ default "dump" (Il2CppDumper.extension_ this)) = true ->
  collect g s = (s', chunks, Ok ()) ->
  exists s'' fs',
    Il2CppDumper.build this (s, fs) = ((s'', fs'), Ok ())
    /\ File.disk fs' !! (directory +:+ "/" +:+ name +:+ "."
                         +:+ default "dump" (Il2CppDumper.extension_ this))
       = Some (joined chunks)
    /\ (forall q, q ≠ directory +:+ "/" +:+ name +:+ "."
                      +:+ default "dump" (Il2CppDumper.extension_ this) ->
                  File.disk fs' !! q = File.disk fs !! q)
    /\ (forall i f, File.files fs !! i = Some f -> File.files fs' !! i = Some f)
    /\ File.files fs' !! List.length (File.files fs)
       = Some {| File.path := directory +:+ "/" +:+ name +:+ "."
                              +:+ default "dump" (Il2CppDumper.extension_ this);
                 File.pending := ""; File.opened := false |}
    /\ last (trace s'')
       = Some (Console_ok ("Dump saved to "
                           +:+ (directory +:+ "/" +:+ name +:+ "."
                                +:+ default "dump" (Il2CppDumper.extension_ this))
                           +:+ ".")).
Proof.
  intros Hd Hn Hg Hopen Hc.
  set (p := directory +:+ "/" +:+ name +:+ "."
            +:+ default "dump" (Il2CppDumper.extension_ this)) in *.
  rewrite (build_configured _ directory name _ _ Hd Hn). fold p.
  unfold build_outcome. rewrite Hopen, Hg, Hc.
  eexists _, _. split; [reflexivity|].
  unfold dumped. cbn [File.disk File.files negb].
  split; [by rewrite lookup_insert_eq|].
  split; [intros q Hq; by rewrite lookup_insert_ne|].
  split.
  { intros i f Hi. rewrite lookup_app_l; [exact Hi|]. by eapply lookup_lt_Some. }
  split.
  { by rewrite list_lookup_middle. }
  unfold add_events. cbn [trace]. rewrite last_snoc. reflexivity.
Qed.

(** Running the classes dump twice to the same destination in one session
    gives the same file: both runs end normally, and each leaves under the
    destination path the string forms of the classes put end to end. *)
Theorem build_twice_same_file this directory name asms s fs :
  coherent s ->
  Il2CppDumper.directoryPath_ this = Some directory ->
  Il2CppDumper.fileName_ this = Some name ->
  Il2CppDumper.generator_ this = Some Il2CppDumper.classes_generator ->
  File_openable (directory +:+ "/" +:+ name +:+ "."
                 +:+ default "dump" (Il2CppDumper.extension_ this)) = true ->
  assemblies_of = Ok asms ->
  Forall readable (Accessor.values asms) ->
  exists s1 fs1 s2 fs2,
    Il2CppDumper.build this (s, fs) = ((s1, fs1), Ok ())
    /\ Il2CppDumper.build this (s1, fs1) = ((s2, fs2), Ok ())
    /\ File.disk fs1 !! (directory +:+ "/" +:+ name +:+ "."
                         +:+ default "dump" (Il2CppDumper.extension_ this))
       = Some (joined (List.concat ((fun a => Class_toString <$> assembly_classes a)
                                      <$> Accessor.values asms)))
    /\ File.disk fs2 !! (directory +:+ "/" +:+ name +:+ "."
                         +:+ default "dump" (Il2CppDumper.extension_ this))
       = File.disk fs1 !! (directory +:+ "/" +:+ name +:+ "."
                           +:+ default "dump" (Il2CppDumper.extension_ this)).
Proof.
  intros Hs Hd Hn Hg Hopen Hasms Hread.
  set (p := directory +:+ "/" +:+ name +:+ "."
            +:+ default "dump" (Il2CppDumper.extension_ this)) in *.
  pose proof (classes_generator_produces asms Hasms Hread) as Hp.
  destruct (Hp s Hs) as (sa & Ea & Hsa).
  assert (Hsa' : coherent (add_events [Console_ok ("Dump saved to " +:+ p +:+ ".")] sa))
    by by apply coherent_add_events.
  destruct (Hp _ Hsa') as (sb & Eb & Hsb).
  eexists _, _, _, _.
  split.
  { rewrite (build_configured _ directory name _ _ Hd Hn). fold p.
    unfold build_outcome. rewrite Hopen, Hg, Ea. reflexivity. }
  split.
  { rewrite (build_configured _ directory name _ _ Hd Hn). fold p.
    unfold build_outcome. rewrite Hopen, Hg, Eb. reflexivity. }
  unfold dumped. cbn [File.disk]. by rewrite !lookup_insert_eq.
Qed.

End BuildEdges.

Lemma build_without_kind_witness :
  File_openable (Runtime := Toy.runtime Toy_bare_vm) ("/sdcard" +:+ "/" +:+ "out" +:+ ".dump")
  = true
  /\ (Il2CppDumper.build (rt := Toy.runtime Toy_bare_vm)
        (Il2CppDumper.fileName (Il2CppDumper.directoryPath Il2CppDumper.new "/sdcard") "out")
        (Session_init, File.FileSystem_init)).2 = Err TypeError.
Proof.
  split; [reflexivity|].
  rewrite (build_without_kind (rt := Toy.runtime Toy_bare_vm) "/sdcard" "out"
             Session_init File.FileSystem_init eq_refl).
  reflexivity.
Defined.

Lemma build_twice_same_file_witness :
  exists s1 fs1 s2 fs2,
    Il2CppDumper.build (rt := Toy.runtime Toy_bare_vm)
      (Il2CppDumper.fileName
         (Il2CppDumper.directoryPath
            (Il2CppDumper.classes (rt := Toy.runtime Toy_bare_vm) Il2CppDumper.new)
            "/sdcard") "out")
      (Session_init, File.FileSystem_init) = ((s1, fs1), Ok ())
    /\ Il2CppDumper.build (rt := Toy.runtime Toy_bare_vm)
         (Il2CppDumper.fileName
            (Il2CppDumper.directoryPath
               (Il2CppDumper.classes (rt := Toy.runtime Toy_bare_vm) Il2CppDumper.new)
               "/sdcard") "out")
         (s1, fs1) = ((s2, fs2), Ok ())
    /\ File.disk fs1 !! "/sdcard/out.cs"
       = Some "class System.Object {}class System.Type {}class UnityEngine.Object {}"
    /\ File.disk fs2 !! "/sdcard/out.cs" = File.disk fs1 !! "/sdcard/out.cs".
Proof.
  assert (Ha : assemblies_of (rt := Toy.runtime Toy_bare_vm)
               = Ok [("mscorlib", 1); ("UnityEngine", 2); ("Empty", 3)])
    by (vm_compute; reflexivity).
  destruct (build_twice_same_file (rt := Toy.runtime Toy_bare_vm)
              (Il2CppDumper.fileName
                 (Il2CppDumper.directoryPath
                    (Il2CppDumper.classes (rt := Toy.runtime Toy_bare_vm) Il2CppDumper.new)
                    "/sdcard") "out")
              "/sdcard" "out" _ Session_init File.FileSystem_init
              (coherent_init (rt := Toy.runtime Toy_bare_vm)) eq_refl eq_refl eq_refl
              eq_refl Ha Toy_bare_readable)
    as (s1 & fs1 & s2 & fs2 & E1 & E2 & D1 & D2).
  exists s1, fs1, s2, fs2. split; [exact E1|]. split; [exact E2|].
  split; [exact D1 | exact D2].
Defined.

Lemma build_success_witness :
  exists s'' fs',
    Il2CppDumper.build (rt := Toy.runtime Toy_bare_vm)
      (Il2CppDumper.fileName
         (Il2CppDumper.directoryPath
            (Il2CppDumper.classes (rt := Toy.runtime Toy_bare_vm) Il2CppDumper.new)
            "/sdcard") "out")
      (Session_init, {| File.disk := {["/sdcard/out.cs" := "stale"]};
                        File.files := []; File.operations := [] |})
    = ((s'', fs'), Ok ())
    /\ File.disk fs' !! "/sdcard/out.cs"
       = Some "class System.Object {}class System.Type {}class UnityEngine.Object {}".
Proof.
  destruct (collect (Il2CppDumper.classes_generator (rt := Toy.runtime Toy_bare_vm))
              Session_init) as [[s' chunks] r] eqn:E.
  assert (Hr : chunks = ["class System.Object {}"; "class System.Type {}";
                         "class UnityEngine.Object {}"] /\ r = Ok ()).
  { pose proof E as E'. vm_compute in E'. split; congruence. }
  destruct Hr as [-> ->].
  destruct (build_success (rt := Toy.runtime Toy_bare_vm)
              (Il2CppDumper.fileName
                 (Il2CppDumper.directoryPath
                    (Il2CppDumper.classes (rt := Toy.runtime Toy_bare_vm) Il2CppDumper.new)
                    "/sdcard") "out")
              "/sdcard" "out" _ Session_init s' _
              {| File.disk := {["/sdcard/out.cs" := "stale"]};
                 File.files := []; File.operations := [] |}
              eq_refl eq_refl eq_refl eq_refl E)
    as (s'' & fs' & Eb & D & _).
  exists s'', fs'. split; [exact Eb | exact D].
Defined.

(** ** methods() and the methods dump without generics *)

Section MethodsEdges.
Context {rt : Runtime}.

(** [methods()] needs corlib's [System.Object] and fails with a TypeError,
    before any generator exists, when corlib has no such class; a missing
    [System.Type] is tolerated.  Otherwise it keeps the configured
    destination, selects the extension [ms] and installs the generator over
    corlib's [System.Type] and the type object of [System.Object]. *)
Theorem methods_installs this corlib_classes s :
  coherent s ->
  classes_of Image_corlib = Ok corlib_classes ->
  exists s',
    Il2CppDumper.methods this s
    = (s', match Accessor.get corlib_classes "System.Object" with
           | Some System_Object =>
               Ok {| Il2CppDumper.directoryPath_ := Il2CppDumper.directoryPath_ this;
                     Il2CppDumper.fileName_ := Il2CppDumper.fileName_ this;
                     Il2CppDumper.extension_ := Some "ms";
                     Il2CppDumper.generator_ :=
                       Some (Il2CppDumper.methods_generator
                               (Accessor.get corlib_classes "System.Type")
                               (Class_type_object System_Object)) |}
           | None => Err TypeError
           end)
    /\ coherent s'.
Proof.
  intros Hs Hc.
  destruct (classes_denotes _ _ Hc s Hs) as (s1 & E1 & Hs1).
  destruct (classes_denotes _ _ Hc s1 Hs1) as (s2 & E2 & Hs2).
  exists s2. split; [|exact Hs2].
  unfold Il2CppDumper.methods. unfold bind at 1. rewrite E1.
  unfold bind at 1. rewrite E2.
  unfold bind, Il2CppDumper.member, ret, throw.
  by destruct (Accessor.get corlib_classes "System.Object").
Qed.

Lemma collect_for_quiet {A} (l : list A) body (f : A -> list string) :
  (forall a s, a ∈ l -> collect (body a) s = (s, f a, Ok ())) ->
  forall s, collect (gen_for l body) s = (s, List.concat (f <$> l), Ok ()).
Proof.
  induction l as [|a l IH]; intros Hb s; [reflexivity|].
  cbn [gen_for foldr]. rewrite collect_seq, Hb by left.
  fold (gen_for l body). rewrite IH; [reflexivity|].
  intros a' s' Ha'. apply Hb. by right.
Qed.

(** For a class that is not generic and whose methods are not generic, the
    methods dump asks for no inflation and builds no argument list: the
    session is left as it was, whatever the generic parameter counts are,
    and the lines are those of the class's own methods. *)
Theorem methods_of_plain_class SystemType SystemObject klass s :
  Class_isGeneric klass = false ->
  (forall method, method ∈ Accessor.values (Class_methods klass) ->
                  Method_isGeneric method = false) ->
  collect (Il2CppDumper.methods_of_class SystemType SystemObject klass) s
  = (s, List.concat
          ((fun method =>
              if bool_decide (Method_virtualAddress method = 0) then []
              else [formatNativePointer (Method_relativeVirtualAddress method) +:+ " "
                    +:+ Class_type_name klass +:+ "." +:+ Method_name method +:+ newline])
             <$> Accessor.values (Class_methods klass)), Ok ()).
Proof.
  intros Hk Hm. unfold Il2CppDumper.methods_of_class. cbn [collect].
  rewrite Hk. unfold ret at 1.
  apply collect_for_quiet. intros method s0 Hin.
  unfold Il2CppDumper.methods_of_method. cbn [collect].
  rewrite (Hm _ Hin). cbn [andb]. unfold ret.
  by case_bool_decide.
Qed.

End MethodsEdges.

Lemma methods_installs_witness :
  classes_of (rt := Toy.runtime Toy.clash_vm) (Image_corlib (Runtime := Toy.runtime Toy.clash_vm))
  = Ok [("A.B.C", 203); ("A.D", 202)]
  /\ exists s',
      Il2CppDumper.methods (rt := Toy.runtime Toy.clash_vm) Il2CppDumper.new Session_init
      = (s', Err TypeError).
Proof.
  assert (Hc : classes_of (rt := Toy.runtime Toy.clash_vm)
                 (Image_corlib (Runtime := Toy.runtime Toy.clash_vm))
               = Ok [("A.B.C", 203); ("A.D", 202)]) by (vm_compute; reflexivity).
  split; [exact Hc|].
  destruct (methods_installs (rt := Toy.runtime Toy.clash_vm) Il2CppDumper.new _
              Session_init (coherent_init (rt := Toy.runtime Toy.clash_vm)) Hc)
    as (s' & E & _).
  exists s'. exact E.
Defined.

Lemma methods_of_plain_class_witness :
  collect (Il2CppDumper.methods_of_class (rt := Toy.runtime Toy_bare_vm) None 0 220)
    Session_init
  = (Session_init, ["0x00001000 UnityEngine.Object.ToString" +:+ newline], Ok ()).
Proof.
  rewrite (methods_of_plain_class (rt := Toy.runtime Toy_bare_vm) None 0 220 Session_init
             (Toy_bare_no_generic_class 220)
             (fun m _ => Toy_bare_no_generic_method m)).
  reflexivity.
Defined.

(** ** The two layouts *)

Lemma table_of_ext (rt1 rt2 : Runtime) hs :
  (forall h, Class_type_name (Runtime := rt1) h = Class_type_name (Runtime := rt2) h) ->
  table_of (rt := rt1) hs = table_of (rt := rt2) hs.
Proof.
  intros Hname. unfold table_of. generalize (@Accessor.empty Z).
  induction hs as [|h hs IH]; intros acc; [reflexivity|].
  cbn [foldl]. rewrite Hname. apply IH.
Qed.

(** The two branches of [classes] build the same table when the VM of the
    legacy layout keeps, at the indices [classStart, classStart +
    classCount) of its global class table, the classes that the VM of the
    current layout hands out for the indices [0, classCount) of the
    image. *)
Theorem classes_layouts_agree (legacy current : Runtime) this sL sC :
  unityVersion_isLegacy (Runtime := legacy) = true ->
  unityVersion_isLegacy (Runtime := current) = false ->
  coherent (rt := legacy) sL ->
  coherent (rt := current) sC ->
  (forall h, Class_type_name (Runtime := legacy) h = Class_type_name (Runtime := current) h) ->
  Api_imageGetClassCount (Runtime := legacy) this
  = Api_imageGetClassCount (Runtime := current) this ->
  - 2 ^ 31 <= Api_imageGetClassStart (Runtime := legacy) this ->
  Api_imageGetClassStart (Runtime := legacy) this
  + Api_imageGetClassCount (Runtime := legacy) this <= 2 ^ 31 ->
  (forall i, 0 <= i < Api_imageGetClassCount (Runtime := current) this ->
             Api_typeGetClassOrElementClass (Runtime := legacy)
               (Api_imageGetClassStart (Runtime := legacy) this + i)
             = Api_imageGetClass (Runtime := current) this i) ->
  (forall i, 0 <= i < Api_imageGetClassCount (Runtime := current) this ->
             Api_imageGetClass (Runtime := current) this i ≠ 0) ->
  exists sL' sC' acc,
    Il2CppImage.classes (rt := legacy) this sL = (sL', Ok acc)
    /\ Il2CppImage.classes (rt := current) this sC = (sC', Ok acc).
Proof.
  intros HL HC HsL HsC Hname Hcount Hlo Hhi Hsame Hnz.
  set (S := Api_imageGetClassStart (Runtime := legacy) this) in *.
  set (C := Api_imageGetClassCount (Runtime := current) this) in *.
  assert (HhC : class_handles (rt := current) this
                = Api_imageGetClass (Runtime := current) this <$> seqZ 0 C).
  { unfold class_handles. by rewrite HC. }
  assert (HhL : class_handles (rt := legacy) this = class_handles (rt := current) this).
  { rewrite HhC. unfold class_handles. rewrite HL, Hcount. fold S C.
    replace (seqZ S C) with (Z.add S <$> seqZ 0 C).
    2:{ rewrite fmap_add_seqZ. f_equal. lia. }
    rewrite <- list_fmap_compose. apply Forall_fmap_ext_1, Forall_seqZ.
    intros i Hi. cbn. rewrite to_int32_small by lia. apply Hsame. lia. }
  assert (HnzC : Forall (fun h => h ≠ 0) (class_handles (rt := current) this)).
  { rewrite HhC, Forall_fmap. apply Forall_seqZ. intros i Hi. apply Hnz. lia. }
  destruct (classes_run (rt := current) this sC HsC HnzC) as (sC' & EC & _).
  destruct (classes_run (rt := legacy) this sL HsL) as (sL' & EL & _).
  { by rewrite HhL. }
  exists sL', sC', (table_of (rt := current) (class_handles (rt := current) this)).
  split; [|exact EC]. rewrite EL, HhL. do 2 f_equal. by apply table_of_ext.
Qed.

Lemma classes_layouts_agree_witness :
  exists sL' sC',
    Il2CppImage.classes (rt := Toy.runtime Toy.legacy_vm) 102 Session_init
    = (sL', Ok [("Game.Player", 203); ("Game.Enemy", 204)])
    /\ Il2CppImage.classes (rt := Toy.runtime (Toy_with_layout false Toy.legacy_vm)) 102
         Session_init
       = (sC', Ok [("Game.Player", 203); ("Game.Enemy", 204)]).
Proof.
  destruct (classes_layouts_agree (Toy.runtime Toy.legacy_vm)
              (Toy.runtime (Toy_with_layout false Toy.legacy_vm)) 102
              Session_init Session_init) as (sL' & sC' & acc & EL & EC).
  - reflexivity.
  - reflexivity.
  - apply coherent_init.
  - apply coherent_init.
  - reflexivity.
  - reflexivity.
  - vm_compute. discriminate.
  - vm_compute. discriminate.
  - intros i Hi.
    assert (i = 0 \/ i = 1) as [-> | ->] by (change (0 <= i < 2) in Hi; lia); reflexivity.
  - intros i Hi.
    assert (i = 0 \/ i = 1) as [-> | ->] by (change (0 <= i < 2) in Hi; lia);
      vm_compute; discriminate.
  - exists sL', sC'.
    assert (Hacc : acc = [("Game.Player", 203); ("Game.Enemy", 204)]).
    { pose proof EC as E. vm_compute in E. congruence. }
    rewrite Hacc in *. split; [exact EL | exact EC].
Defined.

(** ** Progress notices *)

Section VmEvents.
Context {rt : Runtime}.
Variable P : event -> Prop.
Hypothesis vm_events_P : forall e, vm_event e -> P e.

Lemma classes_emits_vm this : emits P (Il2CppImage.classes this).
Proof.
  unfold Il2CppImage.classes. apply emits_cached; [reflexivity|].
  destruct unityVersion_isLegacy.
  - apply emits_bind.
    { apply emits_cached; [reflexivity|].
      apply emits_bind; [by apply emits_log, vm_events_P | intros; apply emits_ret]. }
    intros start. apply emits_bind.
    { apply emits_cached; [reflexivity|].
      apply emits_bind; [by apply emits_log, vm_events_P | intros; apply emits_ret]. }
    intros count. apply emits_bind.
    { intros s. eexists [_]. cbn. split; [reflexivity|].
      constructor; [by apply vm_events_P | constructor]. }
    intros p. apply emits_bind.
    { intros s. exists []. cbn. by rewrite app_nil_r. }
    intros _. apply emits_foldM. intros acc i. apply emits_bind.
    { intros s. exists []. cbn. by rewrite app_nil_r. }
    intros type. apply emits_bind.
    { intros s. eexists [_]. cbn. split; [reflexivity|].
      constructor; [by apply vm_events_P | constructor]. }
    intros handle. apply emits_bind; [|intros; apply emits_ret].
    unfold Il2CppImage.new_Il2CppClass, NativeStruct.nonNullHandle.
    case_bool_decide; [apply emits_throw | apply emits_ret].
  - apply emits_bind.
    { apply emits_cached; [reflexivity|].
      apply emits_bind; [by apply emits_log, vm_events_P | intros; apply emits_ret]. }
    intros count. apply emits_foldM. intros acc i. apply emits_bind.
    { apply emits_bind; [by apply emits_log, vm_events_P | intros; apply emits_ret]. }
    intros handle. apply emits_bind; [|intros; apply emits_ret].
    unfold Il2CppImage.new_Il2CppClass, NativeStruct.nonNullHandle.
    case_bool_decide; [apply emits_throw | apply emits_ret].
Qed.

Lemma image_emits_vm this : emits P (Il2CppAssembly.image this).
Proof.
  unfold Il2CppAssembly.image. apply emits_cached; [reflexivity|].
  apply emits_bind.
  { apply emits_bind; [by apply emits_log, vm_events_P | intros; apply emits_ret]. }
  intros handle. unfold Il2CppAssembly.new_Il2CppImage, NativeStruct.nonNullHandle.
  case_bool_decide; [apply emits_throw | apply emits_ret].
Qed.

Lemma assembly_name_emits_vm this : emits P (Il2CppAssembly.name this).
Proof.
  unfold Il2CppAssembly.name. apply emits_cached; [reflexivity|].
  apply emits_bind; [apply image_emits_vm|]. intros image.
  apply emits_bind.
  { apply emits_cached; [reflexivity|].
    apply emits_bind; [by apply emits_log, vm_events_P | intros; apply emits_ret]. }
  intros [n|]; [apply emits_ret | apply emits_throw].
Qed.

Lemma assemblies_emits_vm : emits P Il2CppDomain.assemblies.
Proof.
  apply emits_foldM. intros acc a.
  apply emits_bind; [apply assembly_name_emits_vm | intros; apply emits_ret].
Qed.

End VmEvents.

Lemma notices_of_quiet evs :
  Forall (fun e => is_notice e = false) evs -> notices_of evs = [].
Proof.
  unfold notices_of. induction 1 as [|e evs He _ IH]; [reflexivity|].
  rewrite filter_cons_False by congruence. exact IH.
Qed.

Lemma notices_of_app evs1 evs2 :
  notices_of (evs1 ++ evs2) = notices_of evs1 ++ notices_of evs2.
Proof. apply filter_app. Qed.

Section Announces.
Context {rt : Runtime}.

Lemma announces_Done : announces Done [].
Proof.
  intros s Hs. exists s, [], []. rewrite app_nil_r.
  split; [reflexivity|]. split; [exact Hs|]. split; reflexivity.
Qed.

Lemma announces_Yield chunk next messages :
  announces next messages -> announces (Yield chunk next) messages.
Proof.
  intros Hn s Hs. destruct (Hn s Hs) as (s' & chunks & evs & E & Hs' & T & N).
  exists s', (chunk :: chunks), evs. cbn [collect]. rewrite E.
  split; [reflexivity|]. split; [exact Hs'|]. split; [exact T | exact N].
Qed.

(** A step that returns, keeps the session coherent and sends [here]. *)
Lemma announces_Step {A} (m : M Session A) next a here messages :
  (forall s, coherent s ->
     exists s' evs, m s = (s', Ok a) /\ coherent s'
       /\ trace s' = trace s ++ evs /\ notices_of evs = Console_inform <$> here) ->
  announces (next a) messages ->
  announces (Step m next) (here ++ messages).
Proof.
  intros Hm Hn s Hs. destruct (Hm s Hs) as (s1 & evs1 & E1 & Hs1 & T1 & N1).
  destruct (Hn s1 Hs1) as (s2 & chunks & evs2 & E2 & Hs2 & T2 & N2).
  exists s2, chunks, (evs1 ++ evs2). cbn. rewrite E1.
  split; [exact E2|]. split; [exact Hs2|].
  split; [by rewrite T2, T1, app_assoc|].
  by rewrite notices_of_app, N1, N2, fmap_app.
Qed.

Lemma quiet_step {A} (m : M Session A) a :
  denotes m (Ok a) -> emits (fun e => is_notice e = false) m ->
  forall s, coherent s ->
    exists s' evs, m s = (s', Ok a) /\ coherent s'
      /\ trace s' = trace s ++ evs /\ notices_of evs = Console_inform <$> [].
Proof.
  intros Hd He s Hs. destruct (Hd s Hs) as (s' & E & Hs').
  destruct (He s) as (evs & T & Q). rewrite E in T. cbn [fst] in T.
  exists s', evs. split; [exact E|]. split; [exact Hs'|]. split; [exact T|].
  by apply notices_of_quiet.
Qed.

Lemma announces_seq g1 g2 messages1 messages2 :
  announces g1 messages1 -> announces g2 messages2 ->
  announces (gen_seq g1 g2) (messages1 ++ messages2).
Proof.
  intros H1 H2 s Hs. destruct (H1 s Hs) as (s1 & c1 & evs1 & E1 & Hs1 & T1 & N1).
  destruct (H2 s1 Hs1) as (s2 & c2 & evs2 & E2 & Hs2 & T2 & N2).
  exists s2, (c1 ++ c2), (evs1 ++ evs2). rewrite collect_seq, E1, E2.
  split; [reflexivity|]. split; [exact Hs2|].
  split; [by rewrite T2, T1, app_assoc|].
  by rewrite notices_of_app, N1, N2, fmap_app.
Qed.

Lemma announces_for {A} (l : list A) body (f : A -> list string) :
  (forall a, a ∈ l -> announces (body a) (f a)) ->
  announces (gen_for l body) (List.concat (f <$> l)).
Proof.
  induction l as [|a l IH]; intros Hb.
  - apply announces_Done.
  - cbn. apply announces_seq.
    + apply Hb. left.
    + apply IH. intros a' Ha'. apply Hb. by right.
Qed.

Lemma announces_for_silent {A} (l : list A) body :
  (forall a, a ∈ l -> announces (body a) []) -> announces (gen_for l body) [].
Proof.
  intros Hb. replace (@nil string) with (List.concat ((fun _ : A => @nil string) <$> l)).
  - by apply announces_for.
  - induction l as [|a l IH]; [reflexivity|]. cbn. apply IH.
    intros a' Ha'. apply Hb. by right.
Qed.

Lemma is_notice_vm e : vm_event e -> is_notice e = false.
Proof. by destruct e. Qed.

Lemma classes_of_assembly_announces assembly image name acc :
  image_of assembly = Ok image -> assembly_name_of assembly = Ok name ->
  classes_of image = Ok acc ->
  announces (Il2CppDumper.classes_of_assembly assembly)
    ["Dumping " +:+ Il2CppDumper.esc +:+ "[1m" +:+ name +:+ Il2CppDumper.esc +:+ "[0m..."].
Proof.
  intros Hi Hn Hc. unfold Il2CppDumper.classes_of_assembly.
  apply (announces_Step _ _ () [_] []).
  { intros s Hs.
    destruct (assembly_name_denotes _ _ Hn s Hs) as (s1 & E1 & Hs1).
    destruct (assembly_name_emits_vm _ is_notice_vm assembly s) as (evs & T & Q).
    rewrite E1 in T. cbn [fst] in T.
    eexists _, (evs ++ [_]). unfold bind. rewrite E1.
    unfold Il2CppDumper.inform, log.
    split; [reflexivity|]. split; [by apply coherent_add_events|].
    split; [cbn; by rewrite T, app_assoc|].
    rewrite notices_of_app, notices_of_quiet by exact Q. reflexivity. }
  apply (announces_Step _ _ acc [] []).
  { apply quiet_step.
    - eapply denotes_bind; [by apply image_denotes | by apply classes_denotes].
    - apply emits_bind; [by apply image_emits_vm, is_notice_vm|].
      intros. by apply classes_emits_vm, is_notice_vm. }
  apply announces_for_silent. intros k _. apply announces_Yield, announces_Done.
Qed.

(** The classes dump sends one progress notice per assembly of the domain,
    in the order in which it goes through them, each naming its assembly. *)
Theorem classes_dump_notices asms s :
  coherent s ->
  assemblies_of = Ok asms ->
  Forall readable (Accessor.values asms) ->
  exists s' chunks evs,
    collect Il2CppDumper.classes_generator s = (s', chunks, Ok ())
    /\ trace s' = trace s ++ evs
    /\ notices_of evs
       = (fun a => Console_inform
                     ("Dumping " +:+ Il2CppDumper.esc +:+ "[1m"
                      +:+ assembly_name_or_empty a +:+ Il2CppDumper.esc +:+ "[0m..."))
           <$> Accessor.values asms.
Proof.
  intros Hs Hasms Hread.
  assert (Ha : announces Il2CppDumper.classes_generator
                 (List.concat
                    ((fun a => ["Dumping " +:+ Il2CppDumper.esc +:+ "[1m"
                                +:+ assembly_name_or_empty a +:+ Il2CppDumper.esc +:+ "[0m..."])
                       <$> Accessor.values asms))).
  { unfold Il2CppDumper.classes_generator.
    apply (announces_Step _ _ asms [] _).
    { apply quiet_step; [by apply assemblies_denotes|].
      by apply assemblies_emits_vm, is_notice_vm. }
    apply announces_for. intros a Hin.
    rewrite Forall_forall in Hread.
    destruct (Hread a Hin) as (image & name & acc & Hi & Hn & Hc).
    unfold assembly_name_or_empty. rewrite Hn.
    by apply classes_of_assembly_announces with image acc. }
  destruct (Ha s Hs) as (s' & chunks & evs & E & _ & T & N).
  exists s', chunks, evs. split; [exact E|]. split; [exact T|].
  rewrite N. clear. induction (Accessor.values asms) as [|a l IH]; [reflexivity|].
  cbn. by rewrite IH.
Qed.

End Announces.

Lemma classes_dump_notices_witness :
  exists s' chunks evs,
    collect (Il2CppDumper.classes_generator (rt := Toy.runtime Toy_bare_vm)) Session_init
    = (s', chunks, Ok ())
    /\ trace s' = evs
    /\ notices_of evs
       = [Console_inform ("Dumping " +:+ Il2CppDumper.esc +:+ "[1mmscorlib"
                          +:+ Il2CppDumper.esc +:+ "[0m...");
          Console_inform ("Dumping " +:+ Il2CppDumper.esc +:+ "[1mUnityEngine"
                          +:+ Il2CppDumper.esc +:+ "[0m...");
          Console_inform ("Dumping " +:+ Il2CppDumper.esc +:+ "[1mEmpty"
                          +:+ Il2CppDumper.esc +:+ "[0m...")].
Proof.
  assert (Ha : assemblies_of (rt := Toy.runtime Toy_bare_vm)
               = Ok [("mscorlib", 1); ("UnityEngine", 2); ("Empty", 3)])
    by (vm_compute; reflexivity).
  destruct (classes_dump_notices (rt := Toy.runtime Toy_bare_vm) _ Session_init
              (coherent_init (rt := Toy.runtime Toy_bare_vm)) Ha Toy_bare_readable)
    as (s' & chunks & evs & E & T & N).
  exists s', chunks, evs. split; [exact E|]. split; [exact T|].
  rewrite N. reflexivity.
Defined.
